(** * Saga orchestration for the distributed e-commerce system

    A shallow embedding of the Go services of the repository:
    the saga orchestrator (domain, repository, service), the inventory
    participant (aggregate, repository, service, handler), the payment
    participant (aggregate, repository, service, handler), and the
    publisher and the consumer of the messaging layer.

    Conventions of the embedding.
    - A [uuid.UUID] is a number; [uuid.Nil] is [0].
    - A [time.Time] is a natural number of seconds; each handler receives the
      reading of [time.Now()] as its argument [now].
    - In the tables, the events and the services a monetary amount
      is an exact integer of minor currency units, as the
      DECIMAL(10,2) columns hold it.  The [float64] arithmetic of the
      payment aggregate, with its rounding and its NaN, is modelled
      apart, on the binary64 numbers of the kernel (PaymentFloat).
    - A Go [int] is an integer wrapped to 64 bits.
    - An [interface{}] value that travels as JSON is a [Value]; a JSON
      string in the textual form of a UUID is a [VID], one in the
      textual form of a time a [VTime], any other string a [VString].
    - A database table is a finite map or a list of rows; the columns
      and the constraints are those of the migrations.  The database
      and the broker are reachable: a statement fails only on a
      constraint, on the type of a column or on a missing row, and
      an event that is handed to the publisher is published.
    - The random [ID], [CorrelationID] and the [Timestamp] of an event
      envelope are left out of [SagaEvent].
    - In the model of the messaging layer itself the result of every
      publish is a parameter, and a message body is the event that it
      decodes to. *)

From Stdlib Require Import ZArith Ascii String List Bool Lia Sorted.
From Stdlib Require Floats.
From stdpp Require Import base option gmap strings pretty list.

Local Open Scope string_scope.

(** A decimal literal of a binary64 number stands for the nearest
    one, as in Go. *)
Set Warnings "-inexact-float".

Abbreviation UUID := N (only parsing).
Abbreviation Time := N (only parsing).
Abbreviation Money := Z (only parsing).

Definition uuid_Nil : UUID := 0%N.

(** ** Dynamic values and errors *)

#[warnings="-register-all"]
Inductive Value :=
| VNil
| VString (s : string)
| VNumber (n : Z)
| VID (u : UUID)
| VTime (t : Time)
| VList (l : list Value)
| VObject (fields : list (string * Value)).

(** [m[k]] on a Go map: the zero value [nil] when the key is absent. *)
Definition index (m : gmap string Value) (k : string) : Value :=
  default VNil (m !! k).

(** [u.String()]. *)
Definition uuid_String (u : UUID) : string := pretty u.

(** [v.(string)] in its two-result form. *)
Definition as_string (v : Value) : option string :=
  match v with
  | VString s => Some s
  | VID u => Some (uuid_String u)
  | VTime t => Some (pretty t)
  | _ => None
  end.

(** [fmt.Errorf(format, ...)]: the format string and, where the
    arguments hold an error, that error. *)
#[warnings="-register-all"]
Inductive error :=
| Errorf (format : string) (cause : option error).

(** The text of a [%v] verb replaced by [arg]. *)
Fixpoint subst_v (format arg : string) : string :=
  match format with
  | String "%"%char (String "v"%char rest) => arg ++ rest
  | String c rest => String c (subst_v rest arg)
  | EmptyString => EmptyString
  end.

(** [err.Error()]: the verbs of other arguments stay in the text. *)
Fixpoint Error (e : error) : string :=
  match e with
  | Errorf format None => format
  | Errorf format (Some cause) => subst_v format (Error cause)
  end.

(** [fmt.Sprintf(format, err)]. *)
Definition Sprintf (format : string) (err : error) : string :=
  subst_v format (Error err).

(** What a call of a handler does: it returns ([nil] or an error) or
    it panics. *)
Inductive outcome :=
| Returned (err : option error)
| Panicked.

(** ** Event envelope (shared-domain/events) *)

Module Events.

Definition OrderCreatedEvent := "order.created".
Definition OrderCompletedEvent := "order.completed".
Definition OrderCancelledEvent := "order.cancelled".
Definition PaymentProcessedEvent := "payment.processed".
Definition PaymentFailedEvent := "payment.failed".
Definition PaymentRefundedEvent := "payment.refunded".
Definition InventoryReservedEvent := "inventory.reserved".
Definition InventoryFailedEvent := "inventory.failed".
Definition InventoryReleasedEvent := "inventory.released".
Definition ShippingCreatedEvent := "shipping.created".
Definition ShippingFailedEvent := "shipping.failed".
Definition ShippingCancelledEvent := "shipping.cancelled".
Definition NotificationSentEvent := "notification.sent".
Definition NotificationFailedEvent := "notification.failed".

(** [Payload] is [Some m] when the payload is a JSON object, the only
    shape for which [event.Payload.(map[string]interface{})] does not
    panic. *)
Record SagaEvent := {
  SagaID : UUID;
  OrderID : UUID;
  EventType : string;
  Service : string;
  Payload : option (gmap string Value)
}.

End Events.

Export Events.

(** ** Orders (shared-domain/types) *)

Record OrderItem := {
  ProductID : UUID;
  Quantity : Z;
  Price : Money
}.

Record ShippingAddress := {
  Street : string;
  City : string;
  State : string;
  ZipCode : string;
  Country : string
}.

(** [ShippingAddress] is a pointer: [None] is nil. *)
Record Order := {
  order_ID : UUID;
  order_CustomerID : UUID;
  order_Items : list OrderItem;
  order_TotalAmount : Money;
  order_Status : string;
  order_ShippingAddress : option ShippingAddress;
  order_CreatedAt : Time;
  order_UpdatedAt : Time
}.

Definition address_value (a : option ShippingAddress) : Value :=
  match a with
  | None => VNil
  | Some a =>
      VObject [("street", VString (Street a));
               ("city", VString (City a));
               ("state", VString (State a));
               ("zip_code", VString (ZipCode a));
               ("country", VString (Country a))]
  end.

Definition item_value (i : OrderItem) : Value :=
  VObject [("product_id", VID (ProductID i));
           ("quantity", VNumber (Quantity i));
           ("price", VNumber (Price i))].

Definition items_value (l : list OrderItem) : Value :=
  VList (map item_value l).

(** The JSON of a slice declared by [var] and filled by [append]: such
    a slice is nil until its first element, and [encoding/json]
    writes a nil slice as [null]. *)
Definition appended (l : list Value) : Value :=
  match l with
  | [] => VNil
  | _ :: _ => VList l
  end.

Definition order_value (o : Order) : Value :=
  VObject [("id", VID (order_ID o));
           ("customer_id", VID (order_CustomerID o));
           ("items", items_value (order_Items o));
           ("total_amount", VNumber (order_TotalAmount o));
           ("status", VString (order_Status o));
           ("shipping_address", address_value (order_ShippingAddress o));
           ("created_at", VTime (order_CreatedAt o));
           ("updated_at", VTime (order_UpdatedAt o))].

(** * The orchestrator *)

Module Orchestrator.

(** ** Domain: saga instance *)

Inductive SagaStatus :=
| SagaStatusStarted
| SagaStatusInProgress
| SagaStatusCompleted
| SagaStatusFailed
| SagaStatusCompensating
| SagaStatusCompensated.

Inductive SagaStep :=
| StepOrderCreated
| StepPaymentProcessed
| StepInventoryReserved
| StepShippingCreated
| StepNotificationSent
| StepOrderCancelled
| StepPaymentRefunded
| StepInventoryReleased
| StepShippingCancelled.

#[global] Instance SagaStep_eq_dec : EqDecision SagaStep.
Proof. solve_decision. Defined.

#[global] Instance SagaStatus_eq_dec : EqDecision SagaStatus.
Proof. solve_decision. Defined.

Record SagaInstance := {
  ID : UUID;
  OrderID : UUID;
  CustomerID : UUID;
  Status : SagaStatus;
  CurrentStep : SagaStep;
  CompletedSteps : list SagaStep;
  FailureReason : string;
  CreatedAt : Time;
  UpdatedAt : Time;
  CompletedAt : option Time;
  CompensatedSteps : list SagaStep;
  Context : gmap string Value
}.

Definition set_Status (v : SagaStatus) (s : SagaInstance) : SagaInstance :=
  {| ID := ID s; OrderID := OrderID s; CustomerID := CustomerID s;
     Status := v; CurrentStep := CurrentStep s;
     CompletedSteps := CompletedSteps s; FailureReason := FailureReason s;
     CreatedAt := CreatedAt s; UpdatedAt := UpdatedAt s;
     CompletedAt := CompletedAt s; CompensatedSteps := CompensatedSteps s;
     Context := Context s |}.

Definition set_CurrentStep (v : SagaStep) (s : SagaInstance) : SagaInstance :=
  {| ID := ID s; OrderID := OrderID s; CustomerID := CustomerID s;
     Status := Status s; CurrentStep := v;
     CompletedSteps := CompletedSteps s; FailureReason := FailureReason s;
     CreatedAt := CreatedAt s; UpdatedAt := UpdatedAt s;
     CompletedAt := CompletedAt s; CompensatedSteps := CompensatedSteps s;
     Context := Context s |}.

Definition set_CompletedSteps (v : list SagaStep) (s : SagaInstance) : SagaInstance :=
  {| ID := ID s; OrderID := OrderID s; CustomerID := CustomerID s;
     Status := Status s; CurrentStep := CurrentStep s;
     CompletedSteps := v; FailureReason := FailureReason s;
     CreatedAt := CreatedAt s; UpdatedAt := UpdatedAt s;
     CompletedAt := CompletedAt s; CompensatedSteps := CompensatedSteps s;
     Context := Context s |}.

Definition set_FailureReason (v : string) (s : SagaInstance) : SagaInstance :=
  {| ID := ID s; OrderID := OrderID s; CustomerID := CustomerID s;
     Status := Status s; CurrentStep := CurrentStep s;
     CompletedSteps := CompletedSteps s; FailureReason := v;
     CreatedAt := CreatedAt s; UpdatedAt := UpdatedAt s;
     CompletedAt := CompletedAt s; CompensatedSteps := CompensatedSteps s;
     Context := Context s |}.

Definition set_UpdatedAt (v : Time) (s : SagaInstance) : SagaInstance :=
  {| ID := ID s; OrderID := OrderID s; CustomerID := CustomerID s;
     Status := Status s; CurrentStep := CurrentStep s;
     CompletedSteps := CompletedSteps s; FailureReason := FailureReason s;
     CreatedAt := CreatedAt s; UpdatedAt := v;
     CompletedAt := CompletedAt s; CompensatedSteps := CompensatedSteps s;
     Context := Context s |}.

Definition set_CompletedAt (v : option Time) (s : SagaInstance) : SagaInstance :=
  {| ID := ID s; OrderID := OrderID s; CustomerID := CustomerID s;
     Status := Status s; CurrentStep := CurrentStep s;
     CompletedSteps := CompletedSteps s; FailureReason := FailureReason s;
     CreatedAt := CreatedAt s; UpdatedAt := UpdatedAt s;
     CompletedAt := v; CompensatedSteps := CompensatedSteps s;
     Context := Context s |}.

Definition set_CompensatedSteps (v : list SagaStep) (s : SagaInstance) : SagaInstance :=
  {| ID := ID s; OrderID := OrderID s; CustomerID := CustomerID s;
     Status := Status s; CurrentStep := CurrentStep s;
     CompletedSteps := CompletedSteps s; FailureReason := FailureReason s;
     CreatedAt := CreatedAt s; UpdatedAt := UpdatedAt s;
     CompletedAt := CompletedAt s; CompensatedSteps := v;
     Context := Context s |}.

Definition set_Context (v : gmap string Value) (s : SagaInstance) : SagaInstance :=
  {| ID := ID s; OrderID := OrderID s; CustomerID := CustomerID s;
     Status := Status s; CurrentStep := CurrentStep s;
     CompletedSteps := CompletedSteps s; FailureReason := FailureReason s;
     CreatedAt := CreatedAt s; UpdatedAt := UpdatedAt s;
     CompletedAt := CompletedAt s; CompensatedSteps := CompensatedSteps s;
     Context := v |}.

(** The [for ... range] scan of a step slice. *)
Fixpoint contains_step (l : list SagaStep) (step : SagaStep) : bool :=
  match l with
  | [] => false
  | c :: rest => if bool_decide (c = step) then true else contains_step rest step
  end.

Definition IsStepCompleted (s : SagaInstance) (step : SagaStep) : bool :=
  contains_step (CompletedSteps s) step.

Definition MarkStepCompleted (now : Time) (step : SagaStep) (s : SagaInstance)
  : SagaInstance :=
  let s1 := if negb (IsStepCompleted s step)
            then set_CompletedSteps (CompletedSteps s ++ [step]) s
            else s in
  set_UpdatedAt now (set_CurrentStep step s1).

(** [None] is the empty step name that the Go code returns after the
    last step. *)
Definition GetNextStep (s : SagaInstance) : option SagaStep :=
  match CurrentStep s with
  | StepOrderCreated => Some StepPaymentProcessed
  | StepPaymentProcessed => Some StepInventoryReserved
  | StepInventoryReserved => Some StepShippingCreated
  | StepShippingCreated => Some StepNotificationSent
  | _ => None
  end.

Definition IsCompensationCompleted (s : SagaInstance) (step : SagaStep) : bool :=
  contains_step (CompensatedSteps s) step.

Definition GetCompensationStep (s : SagaInstance) : option SagaStep :=
  if IsStepCompleted s StepShippingCreated
     && negb (IsCompensationCompleted s StepShippingCancelled)
  then Some StepShippingCancelled
  else if IsStepCompleted s StepInventoryReserved
          && negb (IsCompensationCompleted s StepInventoryReleased)
  then Some StepInventoryReleased
  else if IsStepCompleted s StepPaymentProcessed
          && negb (IsCompensationCompleted s StepPaymentRefunded)
  then Some StepPaymentRefunded
  else if IsStepCompleted s StepOrderCreated
          && negb (IsCompensationCompleted s StepOrderCancelled)
  then Some StepOrderCancelled
  else None.

Definition MarkCompensationCompleted (now : Time) (step : SagaStep)
  (s : SagaInstance) : SagaInstance :=
  let s1 := if negb (IsCompensationCompleted s step)
            then set_CompensatedSteps (CompensatedSteps s ++ [step]) s
            else s in
  set_UpdatedAt now s1.

(** ** Repository: the saga_instances table *)

(** The columns of saga_instances.  There is no column for the
    compensated steps, and neither INSERT, SELECT nor UPDATE names one. *)
Record SagaRow := {
  row_order_id : UUID;
  row_customer_id : UUID;
  row_status : SagaStatus;
  row_current_step : SagaStep;
  row_completed_steps : list SagaStep;
  row_failure_reason : string;
  row_context : gmap string Value;
  row_created_at : Time;
  row_updated_at : Time;
  row_completed_at : option Time
}.

Record World := {
  sagas : gmap N SagaRow;
  published : list SagaEvent
}.

Definition set_sagas (m : gmap N SagaRow) (w : World) : World :=
  {| sagas := m; published := published w |}.

(** The UNIQUE constraint on order_id. *)
Definition order_has_saga (orderID : UUID) (m : gmap N SagaRow) : bool :=
  existsb (fun kr => N.eqb (row_order_id (snd kr)) orderID) (map_to_list m).

(** INSERT, with the primary key and the UNIQUE constraint on
    order_id; completed_at is not among the inserted columns.  The
    texts that start with pq stand for the messages of the driver. *)
Definition CreateSaga (saga : SagaInstance) (w : World) : error + World :=
  if bool_decide (is_Some (sagas w !! ID saga))
     || order_has_saga (OrderID saga) (sagas w)
  then inl (Errorf "saga creation error: %v"
              (Some (Errorf "pq: insert violates constraint" None)))
  else inr (set_sagas
              (<[ID saga :=
                  {| row_order_id := OrderID saga;
                     row_customer_id := CustomerID saga;
                     row_status := Status saga;
                     row_current_step := CurrentStep saga;
                     row_completed_steps := CompletedSteps saga;
                     row_failure_reason := FailureReason saga;
                     row_context := Context saga;
                     row_created_at := CreatedAt saga;
                     row_updated_at := UpdatedAt saga;
                     row_completed_at := None |}]> (sagas w)) w).

(** SELECT ... WHERE id = $1: [CompensatedSteps] keeps the zero value
    of the freshly allocated struct. *)
Definition GetSagaByID (sagaID : UUID) (w : World) : error + SagaInstance :=
  match sagas w !! sagaID with
  | None => inl (Errorf "saga not found: %s" None)
  | Some r =>
      inr {| ID := sagaID;
             OrderID := row_order_id r;
             CustomerID := row_customer_id r;
             Status := row_status r;
             CurrentStep := row_current_step r;
             CompletedSteps := row_completed_steps r;
             FailureReason := row_failure_reason r;
             CreatedAt := row_created_at r;
             UpdatedAt := row_updated_at r;
             CompletedAt := row_completed_at r;
             CompensatedSteps := [];
             Context := row_context r |}
  end.

(** UPDATE ... WHERE id = $1, with the rows-affected check. *)
Definition UpdateSaga (saga : SagaInstance) (w : World) : error + World :=
  match sagas w !! ID saga with
  | None => inl (Errorf "saga not found: %s" None)
  | Some r =>
      inr (set_sagas
             (<[ID saga :=
                 {| row_order_id := row_order_id r;
                    row_customer_id := row_customer_id r;
                    row_status := Status saga;
                    row_current_step := CurrentStep saga;
                    row_completed_steps := CompletedSteps saga;
                    row_failure_reason := FailureReason saga;
                    row_context := Context saga;
                    row_created_at := row_created_at r;
                    row_updated_at := UpdatedAt saga;
                    row_completed_at := CompletedAt saga |}]> (sagas w)) w)
  end.

(** [publisher.PublishSagaEvent]. *)
Definition PublishSagaEvent (e : SagaEvent) (w : World) : World :=
  {| sagas := sagas w; published := published w ++ [e] |}.

(** ** Service: the saga orchestrator *)

Definition command (saga : SagaInstance) (eventType : string)
  (payload : list (string * Value)) : SagaEvent :=
  {| Events.SagaID := ID saga;
     Events.OrderID := OrderID saga;
     EventType := eventType;
     Service := "saga-orchestrator";
     Payload := Some (list_to_map payload) |}.

Definition sendStepEvent (saga : SagaInstance) (step : SagaStep) (w : World)
  : outcome * World :=
  let send e := (Returned None, PublishSagaEvent e w) in
  match step with
  | StepPaymentProcessed =>
      send (command saga "payment.process"
              [("order_id", VID (OrderID saga));
               ("customer_id", VID (CustomerID saga));
               ("amount", index (Context saga) "total_amount");
               ("payment_method", VString "credit_card")])
  | StepInventoryReserved =>
      send (command saga "inventory.reserve"
              [("order_id", VID (OrderID saga));
               ("items", index (Context saga) "items")])
  | StepShippingCreated =>
      send (command saga "shipping.create"
              [("order_id", VID (OrderID saga));
               ("customer_id", VID (CustomerID saga));
               ("items", index (Context saga) "items")])
  | StepNotificationSent =>
      send (command saga "notification.send"
              [("order_id", VID (OrderID saga));
               ("customer_id", VID (CustomerID saga));
               ("type", VString "order_confirmation");
               ("message", VString "Siparişiniz başarıyla oluşturuldu!")])
  | _ => (Returned (Some (Errorf "unknown step: %s" None)), w)
  end.

Definition sendCompensationEvent (saga : SagaInstance) (step : SagaStep)
  (w : World) : outcome * World :=
  let send e := (Returned None, PublishSagaEvent e w) in
  match step with
  | StepShippingCancelled =>
      send (command saga "shipping.cancel"
              [("shipment_id", index (Context saga) "shipment_id");
               ("reason", VString (FailureReason saga))])
  | StepInventoryReleased =>
      send (command saga "inventory.release"
              [("reservation_ids", index (Context saga) "reservation_ids");
               ("reason", VString (FailureReason saga))])
  | StepPaymentRefunded =>
      send (command saga "payment.refund"
              [("payment_id", index (Context saga) "payment_id");
               ("transaction_id", index (Context saga) "transaction_id");
               ("amount", index (Context saga) "total_amount");
               ("reason", VString (FailureReason saga))])
  | StepOrderCancelled =>
      send (command saga "order.cancel"
              [("order_id", VID (OrderID saga));
               ("reason", VString (FailureReason saga))])
  | _ => (Returned (Some (Errorf "unknown compensation step: %s" None)), w)
  end.

Definition completeSaga (now : Time) (saga : SagaInstance) (w : World)
  : outcome * World :=
  let saga := set_CompletedAt (Some now)
                (set_UpdatedAt now (set_Status SagaStatusCompleted saga)) in
  match UpdateSaga saga w with
  | inl err => (Returned (Some (Errorf "saga tamamlama hatası: %v" (Some err))), w)
  | inr w1 =>
      (Returned None,
       PublishSagaEvent
         (command saga OrderCompletedEvent
            [("order_id", VID (OrderID saga));
             ("status", VString "completed")]) w1)
  end.

Definition processNextStep (now : Time) (saga : SagaInstance) (w : World)
  : outcome * World :=
  match GetNextStep saga with
  | None => completeSaga now saga w
  | Some nextStep =>
      let saga := set_UpdatedAt now (set_Status SagaStatusInProgress saga) in
      match UpdateSaga saga w with
      | inl err => (Returned (Some err), w)
      | inr w1 => sendStepEvent saga nextStep w1
      end
  end.

(** The struct literal at the head of [StartSaga]; [sagaID] is the
    result of [uuid.New()]. *)
Definition newSaga (sagaID : UUID) (now : Time) (order : Order) : SagaInstance :=
  {| ID := sagaID;
     OrderID := order_ID order;
     CustomerID := order_CustomerID order;
     Status := SagaStatusStarted;
     CurrentStep := StepOrderCreated;
     CompletedSteps := [StepOrderCreated];
     FailureReason := "";
     CreatedAt := now;
     UpdatedAt := now;
     CompletedAt := None;
     CompensatedSteps := [];
     Context := list_to_map
                  [("order", order_value order);
                   ("total_amount", VNumber (order_TotalAmount order));
                   ("items", items_value (order_Items order));
                   ("retry_counts", VObject [])] |}.

Definition StartSaga (sagaID : UUID) (now : Time) (order : Order) (w : World)
  : outcome * World :=
  let saga := newSaga sagaID now order in
  match CreateSaga saga w with
  | inl err => (Returned (Some err), w)
  | inr w1 => processNextStep now saga w1
  end.

Definition compensationCompleted (now : Time) (saga : SagaInstance) (w : World)
  : outcome * World :=
  let saga := set_CompletedAt (Some now)
                (set_UpdatedAt now (set_Status SagaStatusCompensated saga)) in
  match UpdateSaga saga w with
  | inl err =>
      (Returned (Some (Errorf "saga compensation complete error: %v" (Some err))), w)
  | inr w1 =>
      (Returned None,
       PublishSagaEvent
         (command saga OrderCancelledEvent
            [("order_id", VID (OrderID saga));
             ("reason", VString (FailureReason saga))]) w1)
  end.

Definition startCompensation (now : Time) (saga : SagaInstance) (w : World)
  : outcome * World :=
  match GetCompensationStep saga with
  | None => compensationCompleted now saga w
  | Some compensationStep =>
      match UpdateSaga saga w with
      | inl err =>
          (Returned (Some (Errorf "saga compensation update error: %v" (Some err))), w)
      | inr w1 => sendCompensationEvent saga compensationStep w1
      end
  end.

Definition HandleCompensationSuccess (now : Time) (sagaID : UUID)
  (completedCompensation : SagaStep) (w : World) : outcome * World :=
  match GetSagaByID sagaID w with
  | inl err => (Returned (Some err), w)
  | inr saga =>
      startCompensation now
        (MarkCompensationCompleted now completedCompensation saga) w
  end.

Definition HandleStepFailure (now : Time) (sagaID : UUID) (failedStep : SagaStep)
  (eventData : gmap string Value) (w : World) : outcome * World :=
  match GetSagaByID sagaID w with
  | inl err => (Returned (Some (Errorf "saga not found: %v" (Some err))), w)
  | inr saga =>
      let saga := match as_string (index eventData "reason") with
                  | Some reason => set_FailureReason reason saga
                  | None => saga
                  end in
      let saga := set_UpdatedAt now (set_Status SagaStatusCompensating saga) in
      startCompensation now saga w
  end.

(** The test [eventData != nil] holds for every decoded JSON object. *)
Definition HandleStepSuccess (now : Time) (sagaID : UUID) (completedStep : SagaStep)
  (eventData : gmap string Value) (w : World) : outcome * World :=
  match GetSagaByID sagaID w with
  | inl err => (Returned (Some (Errorf "saga not found: %v" (Some err))), w)
  | inr saga =>
      let saga := MarkStepCompleted now completedStep saga in
      let ctx := Context saga in
      let ctx :=
        match completedStep with
        | StepPaymentProcessed =>
            <["transaction_id" := index eventData "transaction_id"]>
              (<["payment_id" := index eventData "payment_id"]> ctx)
        | StepInventoryReserved =>
            <["reservation_ids" := index eventData "reservation_ids"]> ctx
        | StepShippingCreated =>
            <["tracking_id" := index eventData "tracking_id"]>
              (<["shipment_id" := index eventData "shipment_id"]> ctx)
        | _ => ctx
        end in
      processNextStep now (set_Context ctx saga) w
  end.

(** The type assertion on the payload is an argument of the call, so
    it is evaluated, and may panic, before the handler runs. *)
Definition with_payload (event : SagaEvent)
  (k : gmap string Value -> World -> outcome * World) (w : World)
  : outcome * World :=
  match Payload event with
  | Some eventData => k eventData w
  | None => (Panicked, w)
  end.

Definition ProcessIncomingEvent (now : Time) (event : SagaEvent) (w : World)
  : outcome * World :=
  let t := EventType event in
  let id := SagaID event in
  if String.eqb t PaymentProcessedEvent then
    with_payload event (HandleStepSuccess now id StepPaymentProcessed) w
  else if String.eqb t InventoryReservedEvent then
    with_payload event (HandleStepSuccess now id StepInventoryReserved) w
  else if String.eqb t ShippingCreatedEvent then
    with_payload event (HandleStepSuccess now id StepShippingCreated) w
  else if String.eqb t NotificationSentEvent then
    with_payload event (HandleStepSuccess now id StepNotificationSent) w
  else if String.eqb t PaymentFailedEvent then
    with_payload event (HandleStepFailure now id StepPaymentProcessed) w
  else if String.eqb t InventoryFailedEvent then
    with_payload event (HandleStepFailure now id StepInventoryReserved) w
  else if String.eqb t ShippingCancelledEvent then
    HandleCompensationSuccess now id StepShippingCancelled w
  else if String.eqb t InventoryReleasedEvent then
    HandleCompensationSuccess now id StepInventoryReleased w
  else if String.eqb t PaymentRefundedEvent then
    HandleCompensationSuccess now id StepPaymentRefunded w
  else (Returned None, w).

(** [EventHandler.HandleSagaEvent], the consumer callback. *)
Definition HandleSagaEvent (now : Time) (event : SagaEvent) (w : World)
  : outcome * World :=
  ProcessIncomingEvent now event w.

(** ** Repository: the other queries *)

(** [Scan] into a freshly allocated struct, as in every query of the
    repository. *)
Definition scan (sagaID : UUID) (r : SagaRow) : SagaInstance :=
  {| ID := sagaID;
     OrderID := row_order_id r;
     CustomerID := row_customer_id r;
     Status := row_status r;
     CurrentStep := row_current_step r;
     CompletedSteps := row_completed_steps r;
     FailureReason := row_failure_reason r;
     CreatedAt := row_created_at r;
     UpdatedAt := row_updated_at r;
     CompletedAt := row_completed_at r;
     CompensatedSteps := [];
     Context := row_context r |}.

(** SELECT ... WHERE order_id = $1, of which [QueryRow] takes the
    first row. *)
Definition GetSagaByOrderID (orderID : UUID) (w : World) : error + SagaInstance :=
  match find (fun kr => N.eqb (row_order_id (snd kr)) orderID)
          (map_to_list (sagas w)) with
  | None => inl (Errorf "saga not found order: %s" None)
  | Some kr => inr (scan (fst kr) (snd kr))
  end.

(** WHERE status IN ('started', 'in_progress', 'compensating'). *)
Definition awaits_recovery (status : SagaStatus) : bool :=
  match status with
  | SagaStatusStarted | SagaStatusInProgress | SagaStatusCompensating => true
  | _ => false
  end.

(** ORDER BY created_at ASC, as a stable insertion sort. *)
Fixpoint insert_by_created (x : N * SagaRow) (l : list (N * SagaRow))
  : list (N * SagaRow) :=
  match l with
  | [] => [x]
  | y :: rest =>
      if (row_created_at (snd x) <? row_created_at (snd y))%N then x :: l
      else y :: insert_by_created x rest
  end.

Definition order_by_created (l : list (N * SagaRow)) : list (N * SagaRow) :=
  fold_left (fun acc x => insert_by_created x acc) l [].

Definition GetInProgressSagas (w : World) : list SagaInstance :=
  map (fun kr => scan (fst kr) (snd kr))
    (order_by_created
       (List.filter (fun kr => awaits_recovery (row_status (snd kr)))
          (map_to_list (sagas w)))).

End Orchestrator.

(** * The inventory participant *)

Module Inventory.

(** ** Domain *)

Inductive InventoryStatus :=
| InventoryStatusAvailable
| InventoryStatusReserved
| InventoryStatusReleased
| InventoryStatusSold.

#[global] Instance InventoryStatus_eq_dec : EqDecision InventoryStatus.
Proof. solve_decision. Defined.

(** Go [int] arithmetic: two's complement on 64 bits. *)
Definition wrap64 (z : Z) : Z :=
  ((z + 2 ^ 63) mod 2 ^ 64 - 2 ^ 63)%Z.

(** [InventoryAggregate]: the embedded [types.Product] and the saga id. *)
Record InventoryAggregate := {
  ID : UUID;
  Name : string;
  Price : Money;
  Stock : Z;
  ReservedStock : Z;
  SagaID : UUID
}.

Definition set_ReservedStock (v : Z) (i : InventoryAggregate) : InventoryAggregate :=
  {| ID := ID i; Name := Name i; Price := Price i; Stock := Stock i;
     ReservedStock := v; SagaID := SagaID i |}.

(** [ReservationAggregate]: the embedded [types.InventoryReservation]
    and the saga id. *)
Record ReservationAggregate := {
  res_ID : UUID;
  res_OrderID : UUID;
  res_ProductID : UUID;
  res_Quantity : Z;
  res_Status : InventoryStatus;
  res_ReservedAt : Time;
  res_ExpiresAt : Time;
  res_UpdatedAt : Time;
  res_SagaID : UUID
}.

(** One hour of the clock, in its ticks. *)
Definition Hour : Time := 3600%N.

(** [id] is the result of [uuid.New()]. *)
Definition NewReservationAggregate (id : UUID) (now : Time)
  (orderID productID sagaID : UUID) (quantity : Z) : ReservationAggregate :=
  {| res_ID := id; res_OrderID := orderID; res_ProductID := productID;
     res_Quantity := quantity; res_Status := InventoryStatusReserved;
     res_ReservedAt := now; res_ExpiresAt := (now + Hour * 24)%N;
     res_UpdatedAt := now; res_SagaID := sagaID |}.

Definition reservation_Release (now : Time) (r : ReservationAggregate)
  : ReservationAggregate :=
  {| res_ID := res_ID r; res_OrderID := res_OrderID r;
     res_ProductID := res_ProductID r; res_Quantity := res_Quantity r;
     res_Status := InventoryStatusReleased;
     res_ReservedAt := res_ReservedAt r; res_ExpiresAt := res_ExpiresAt r;
     res_UpdatedAt := now; res_SagaID := res_SagaID r |}.

Definition CanReserve (i : InventoryAggregate) (quantity : Z) : bool :=
  let availableStock := wrap64 (Stock i - ReservedStock i) in
  (quantity <=? availableStock)%Z.

Definition Reserve (i : InventoryAggregate) (quantity : Z)
  : error + InventoryAggregate :=
  if negb (CanReserve i quantity)
  then inl (Errorf "insufficient stock: available=%d, requested=%d" None)
  else inr (set_ReservedStock (wrap64 (ReservedStock i + quantity)) i).

Definition Release (i : InventoryAggregate) (quantity : Z) : InventoryAggregate :=
  if (quantity <=? ReservedStock i)%Z
  then set_ReservedStock (wrap64 (ReservedStock i - quantity)) i
  else i.

Record ReservationItem := {
  item_ProductID : UUID;
  item_Quantity : Z
}.

Record InventoryReserveRequest := {
  req_SagaID : UUID;
  req_OrderID : UUID;
  req_Items : list ReservationItem
}.

Record InventoryReleaseRequest := {
  rel_SagaID : UUID;
  rel_OrderID : UUID;
  rel_ReservationIDs : list UUID
}.

(** ** Repository: the products and inventory_reservations tables *)

Record ProductRow := {
  row_name : string;
  row_price : Money;
  row_stock : Z;
  row_reserved_stock : Z
}.

(** [next_uuid] is the supply behind [uuid.New()]. *)
Record World := {
  products : gmap N ProductRow;
  reservations : list ReservationAggregate;
  published : list SagaEvent;
  next_uuid : UUID
}.

Definition set_products (m : gmap N ProductRow) (w : World) : World :=
  {| products := m; reservations := reservations w;
     published := published w; next_uuid := next_uuid w |}.

Definition set_reservations (l : list ReservationAggregate) (w : World) : World :=
  {| products := products w; reservations := l;
     published := published w; next_uuid := next_uuid w |}.

Definition uuid_New (w : World) : UUID * World :=
  (next_uuid w,
   {| products := products w; reservations := reservations w;
      published := published w; next_uuid := N.succ (next_uuid w) |}).

Definition PublishSagaEvent (e : SagaEvent) (w : World) : World :=
  {| products := products w; reservations := reservations w;
     published := published w ++ [e]; next_uuid := next_uuid w |}.

(** The range of an INTEGER column. *)
Definition int4 (z : Z) : bool :=
  ((- 2 ^ 31 <=? z) && (z <? 2 ^ 31))%Z.

(** CHECK (stock >= 0), CHECK (reserved_stock >= 0) and
    chk_reserved_stock_limit. *)
Definition product_checks (stock reserved : Z) : bool :=
  int4 stock && int4 reserved
  && (0 <=? stock)%Z && (0 <=? reserved)%Z && (reserved <=? stock)%Z.

Definition GetProductByID (productID : UUID) (w : World)
  : error + InventoryAggregate :=
  match products w !! productID with
  | None => inl (Errorf "product not found: %s" None)
  | Some r =>
      inr {| ID := productID; Name := row_name r; Price := row_price r;
             Stock := row_stock r; ReservedStock := row_reserved_stock r;
             SagaID := uuid_Nil |}
  end.

(** UPDATE products ... WHERE id = $1: no error when no row matches. *)
Definition UpdateProduct (product : InventoryAggregate) (w : World)
  : error + World :=
  match products w !! ID product with
  | None => inr w
  | Some r =>
      if product_checks (Stock product) (ReservedStock product)
      then inr (set_products
                  (<[ID product :=
                      {| row_name := row_name r; row_price := row_price r;
                         row_stock := Stock product;
                         row_reserved_stock := ReservedStock product |}]>
                     (products w)) w)
      else inl (Errorf "pq: new row violates check constraint" None)
  end.

(** INSERT INTO inventory_reservations: primary key, foreign key on
    products and CHECK (quantity > 0). *)
Definition CreateReservation (reservation : ReservationAggregate) (w : World)
  : error + World :=
  if existsb (fun r => N.eqb (res_ID r) (res_ID reservation)) (reservations w)
     || negb (bool_decide (is_Some (products w !! res_ProductID reservation)))
     || negb (int4 (res_Quantity reservation))
     || negb (0 <? res_Quantity reservation)%Z
  then inl (Errorf "pq: insert violates constraint" None)
  else inr (set_reservations (reservations w ++ [reservation]) w).

(** UPDATE inventory_reservations SET status, updated_at WHERE id. *)
Definition UpdateReservation (reservation : ReservationAggregate) (w : World)
  : World :=
  set_reservations
    (map (fun r =>
            if N.eqb (res_ID r) (res_ID reservation)
            then {| res_ID := res_ID r; res_OrderID := res_OrderID r;
                    res_ProductID := res_ProductID r;
                    res_Quantity := res_Quantity r;
                    res_Status := res_Status reservation;
                    res_ReservedAt := res_ReservedAt r;
                    res_ExpiresAt := res_ExpiresAt r;
                    res_UpdatedAt := res_UpdatedAt reservation;
                    res_SagaID := res_SagaID r |}
            else r)
       (reservations w)) w.

Definition GetReservationsBySagaID (sagaID : UUID) (w : World)
  : list ReservationAggregate :=
  filter (fun r => res_SagaID r = sagaID) (reservations w).

(** ** Service *)

Definition event (sagaID orderID : UUID) (eventType : string)
  (payload : list (string * Value)) : SagaEvent :=
  {| Events.SagaID := sagaID; OrderID := orderID; EventType := eventType;
     Service := "inventory-service";
     Payload := Some (list_to_map payload) |}.

Definition publishInventoryFailedEvent (sagaID orderID productID : UUID)
  (reason : string) (w : World) : outcome * World :=
  (Returned None,
   PublishSagaEvent
     (event sagaID orderID InventoryFailedEvent
        [("order_id", VID orderID);
         ("product_id", VID productID);
         ("reason", VString reason)]) w).

Definition reservation_value (r : ReservationAggregate) : Value :=
  VObject [("id", VID (res_ID r));
           ("order_id", VID (res_OrderID r));
           ("product_id", VID (res_ProductID r));
           ("quantity", VNumber (res_Quantity r));
           ("status", VString match res_Status r with
                              | InventoryStatusAvailable => "available"
                              | InventoryStatusReserved => "reserved"
                              | InventoryStatusReleased => "released"
                              | InventoryStatusSold => "sold"
                              end);
           ("reserved_at", VTime (res_ReservedAt r));
           ("expires_at", VTime (res_ExpiresAt r));
           ("updated_at", VTime (res_UpdatedAt r))].

Definition publishInventoryReservedEvent (sagaID orderID : UUID)
  (rs : list ReservationAggregate) (w : World) : outcome * World :=
  (Returned None,
   PublishSagaEvent
     (event sagaID orderID InventoryReservedEvent
        [("reservations", appended (map reservation_value rs))]) w).

Definition publishInventoryReleasedEvent (sagaID orderID : UUID)
  (rs : list ReservationAggregate) (w : World) : outcome * World :=
  (Returned None,
   PublishSagaEvent
     (event sagaID orderID InventoryReleasedEvent
        [("order_id", VID orderID);
         ("reservation_ids", appended (map (fun r => VID (res_ID r)) rs))]) w).

Definition publishInventoryReleaseFailedEvent (sagaID orderID : UUID)
  (reason : string) (w : World) : outcome * World :=
  (Returned None,
   PublishSagaEvent
     (event sagaID orderID "inventory.release.failed"
        [("reason", VString reason)]) w).

(** The loop of [ReserveInventory] from the item [items] on, with the
    reservations made so far in [acc]. *)
Fixpoint reserve_items (now : Time) (request : InventoryReserveRequest)
  (items : list ReservationItem) (acc : list ReservationAggregate) (w : World)
  : outcome * World :=
  match items with
  | [] => publishInventoryReservedEvent (req_SagaID request) (req_OrderID request) acc w
  | item :: rest =>
      let failed := publishInventoryFailedEvent (req_SagaID request)
                      (req_OrderID request) (item_ProductID item) in
      match GetProductByID (item_ProductID item) w with
      | inl err => failed (Sprintf "Product not found: %v" err) w
      | inr product =>
          if negb (CanReserve product (item_Quantity item))
          then failed "Insufficient stock" w
          else
            match Reserve product (item_Quantity item) with
            | inl err => failed (Error err) w
            | inr product =>
                match UpdateProduct product w with
                | inl err => failed (Sprintf "Failed to update product: %v" err) w
                | inr w1 =>
                    let (id, w2) := uuid_New w1 in
                    let reservation :=
                      NewReservationAggregate id now (req_OrderID request)
                        (item_ProductID item) (req_SagaID request)
                        (item_Quantity item) in
                    match CreateReservation reservation w2 with
                    | inl err => failed (Sprintf "Failed to create reservation: %v" err) w2
                    | inr w3 => reserve_items now request rest (acc ++ [reservation]) w3
                    end
                end
            end
      end
  end.

Definition ReserveInventory (now : Time) (request : InventoryReserveRequest)
  (w : World) : outcome * World :=
  reserve_items now request (req_Items request) [] w.

(** One iteration of the loop of [ReleaseInventory]; the errors of the
    two updates are dropped, as in the Go code. *)
Definition release_one (now : Time) (reservation : ReservationAggregate)
  (w : World) : World :=
  match GetProductByID (res_ProductID reservation) w with
  | inl _ => w
  | inr product =>
      let product := Release product (res_Quantity reservation) in
      let w1 := match UpdateProduct product w with
                | inl _ => w
                | inr w1 => w1
                end in
      UpdateReservation (reservation_Release now reservation) w1
  end.

(** [ReleaseInventory] from the result [found] of
    [GetReservationsBySagaID] on. *)
Definition release_found (now : Time) (request : InventoryReleaseRequest)
  (found : error + list ReservationAggregate) (w : World) : outcome * World :=
  match found with
  | inl err =>
      publishInventoryReleaseFailedEvent (rel_SagaID request)
        (rel_OrderID request) (Sprintf "Failed to get reservations: %v" err) w
  | inr rs =>
      let w1 := fold_left (fun w r => release_one now r w) rs w in
      publishInventoryReleasedEvent (rel_SagaID request) (rel_OrderID request)
        rs w1
  end.

(** The SELECT of [GetReservationsBySagaID] has no error of its own:
    on a database that answers, [found] is the list of the rows. *)
Definition ReleaseInventory (now : Time) (request : InventoryReleaseRequest)
  (w : World) : outcome * World :=
  release_found now request
    (inr (GetReservationsBySagaID (rel_SagaID request) w)) w.

End Inventory.

(** * The payment participant *)

(** ** Domain: the payment aggregate

    The aggregate as the service uses it, on the amounts of the
    payments table: exact integers of minor units. *)

Module PaymentDomain.

Inductive PaymentStatus :=
| PaymentStatusPending
| PaymentStatusCompleted
| PaymentStatusFailed
| PaymentStatusRefunded.

#[global] Instance PaymentStatus_eq_dec : EqDecision PaymentStatus.
Proof. solve_decision. Defined.

(** [PaymentAggregate], with the fields of the embedded
    [*types.Payment] first. *)
Record PaymentAggregate := {
  ID : UUID;
  OrderID : UUID;
  CustomerID : UUID;
  Amount : Money;
  PaymentMethod : string;
  Status : PaymentStatus;
  TransactionID : string;
  CreatedAt : Time;
  UpdatedAt : Time;
  SagaID : UUID;
  ExternalRef : string;
  FailureReason : string;
  RefundedAmount : Money;
  RefundReference : string;
  ProcessedAt : option Time;
  RefundedAt : option Time
}.

(** [id] is the result of [uuid.New()]. *)
Definition NewPaymentAggregate (id : UUID) (now : Time)
  (orderID customerID sagaID : UUID) (amount : Money) (paymentMethod : string)
  : PaymentAggregate :=
  {| ID := id; OrderID := orderID; CustomerID := customerID;
     Amount := amount; PaymentMethod := paymentMethod;
     Status := PaymentStatusPending; TransactionID := "";
     CreatedAt := now; UpdatedAt := now; SagaID := sagaID;
     ExternalRef := ""; FailureReason := ""; RefundedAmount := 0;
     RefundReference := ""; ProcessedAt := None; RefundedAt := None |}.

Definition ProcessPayment (now : Time) (transactionID externalRef : string)
  (p : PaymentAggregate) : PaymentAggregate :=
  {| ID := ID p; OrderID := OrderID p; CustomerID := CustomerID p;
     Amount := Amount p; PaymentMethod := PaymentMethod p;
     Status := PaymentStatusCompleted; TransactionID := transactionID;
     CreatedAt := CreatedAt p; UpdatedAt := now; SagaID := SagaID p;
     ExternalRef := externalRef; FailureReason := FailureReason p;
     RefundedAmount := RefundedAmount p;
     RefundReference := RefundReference p;
     ProcessedAt := Some now; RefundedAt := RefundedAt p |}.

Definition RefundPayment (now : Time) (refundRef : string) (amount : Money)
  (p : PaymentAggregate) : error + PaymentAggregate :=
  if negb (bool_decide (Status p = PaymentStatusCompleted)) then
    inl (Errorf "only completed payments can be refunded, current status: %s" None)
  else if (amount <=? 0)%Z || (Amount p <? amount)%Z then
    inl (Errorf "invalid refund amount: %.2f, max: %.2f" None)
  else if (Amount p <? RefundedAmount p + amount)%Z then
    inl (Errorf "total refund amount limit exceed: %.2f + %.2f > %.2f" None)
  else
    inr {| ID := ID p; OrderID := OrderID p; CustomerID := CustomerID p;
           Amount := Amount p; PaymentMethod := PaymentMethod p;
           Status := PaymentStatusRefunded; TransactionID := TransactionID p;
           CreatedAt := CreatedAt p; UpdatedAt := now; SagaID := SagaID p;
           ExternalRef := ExternalRef p; FailureReason := FailureReason p;
           RefundedAmount := (RefundedAmount p + amount)%Z;
           RefundReference := refundRef;
           ProcessedAt := ProcessedAt p; RefundedAt := Some now |}.

Definition CanRefund (p : PaymentAggregate) : bool :=
  bool_decide (Status p = PaymentStatusCompleted)
  && (RefundedAmount p <? Amount p)%Z.

Definition GetRemainingRefundAmount (p : PaymentAggregate) : Money :=
  (Amount p - RefundedAmount p)%Z.

Definition IsFullyRefunded (p : PaymentAggregate) : bool :=
  (Amount p <=? RefundedAmount p)%Z.

Definition FailPayment (now : Time) (reason : string) (p : PaymentAggregate)
  : PaymentAggregate :=
  {| ID := ID p; OrderID := OrderID p; CustomerID := CustomerID p;
     Amount := Amount p; PaymentMethod := PaymentMethod p;
     Status := PaymentStatusFailed; TransactionID := TransactionID p;
     CreatedAt := CreatedAt p; UpdatedAt := now; SagaID := SagaID p;
     ExternalRef := ExternalRef p; FailureReason := reason;
     RefundedAmount := RefundedAmount p;
     RefundReference := RefundReference p;
     ProcessedAt := ProcessedAt p; RefundedAt := RefundedAt p |}.

Record PaymentProcessRequest := {
  proc_SagaID : UUID;
  proc_OrderID : UUID;
  proc_CustomerID : UUID;
  proc_Amount : Money;
  proc_PaymentMethod : string
}.

Record PaymentRefundRequest := {
  ref_SagaID : UUID;
  ref_PaymentID : UUID;
  ref_TransactionID : string;
  ref_Amount : Money;
  ref_Reason : string
}.

End PaymentDomain.

(** ** Domain: the arithmetic of the aggregate

    [Amount] and [RefundedAmount] are [float64] fields.  This module
    is the aggregate once more, with these two fields and the refund
    amount as binary64 numbers: [+], [-], [<=?] and [<?] are the
    operations of IEEE 754 with rounding to nearest, ties to even,
    those of Go on [float64], and a comparison with a NaN is false. *)

Module PaymentFloat.

Import Floats.
Import PaymentDomain(PaymentStatus, PaymentStatusPending,
  PaymentStatusCompleted, PaymentStatusFailed, PaymentStatusRefunded).

Record PaymentAggregate := {
  ID : UUID;
  OrderID : UUID;
  CustomerID : UUID;
  Amount : float;
  PaymentMethod : string;
  Status : PaymentStatus;
  TransactionID : string;
  CreatedAt : Time;
  UpdatedAt : Time;
  SagaID : UUID;
  ExternalRef : string;
  FailureReason : string;
  RefundedAmount : float;
  RefundReference : string;
  ProcessedAt : option Time;
  RefundedAt : option Time
}.

Definition NewPaymentAggregate (id : UUID) (now : Time)
  (orderID customerID sagaID : UUID) (amount : float) (paymentMethod : string)
  : PaymentAggregate :=
  {| ID := id; OrderID := orderID; CustomerID := customerID;
     Amount := amount; PaymentMethod := paymentMethod;
     Status := PaymentStatusPending; TransactionID := "";
     CreatedAt := now; UpdatedAt := now; SagaID := sagaID;
     ExternalRef := ""; FailureReason := ""; RefundedAmount := 0%float;
     RefundReference := ""; ProcessedAt := None; RefundedAt := None |}.

Definition ProcessPayment (now : Time) (transactionID externalRef : string)
  (p : PaymentAggregate) : PaymentAggregate :=
  {| ID := ID p; OrderID := OrderID p; CustomerID := CustomerID p;
     Amount := Amount p; PaymentMethod := PaymentMethod p;
     Status := PaymentStatusCompleted; TransactionID := transactionID;
     CreatedAt := CreatedAt p; UpdatedAt := now; SagaID := SagaID p;
     ExternalRef := externalRef; FailureReason := FailureReason p;
     RefundedAmount := RefundedAmount p;
     RefundReference := RefundReference p;
     ProcessedAt := Some now; RefundedAt := RefundedAt p |}.

(** [amount > p.Amount] is [p.Amount < amount]. *)
Definition RefundPayment (now : Time) (refundRef : string) (amount : float)
  (p : PaymentAggregate) : error + PaymentAggregate :=
  if negb (bool_decide (Status p = PaymentStatusCompleted)) then
    inl (Errorf "only completed payments can be refunded, current status: %s" None)
  else if (amount <=? 0)%float || (Amount p <? amount)%float then
    inl (Errorf "invalid refund amount: %.2f, max: %.2f" None)
  else if (Amount p <? RefundedAmount p + amount)%float then
    inl (Errorf "total refund amount limit exceed: %.2f + %.2f > %.2f" None)
  else
    inr {| ID := ID p; OrderID := OrderID p; CustomerID := CustomerID p;
           Amount := Amount p; PaymentMethod := PaymentMethod p;
           Status := PaymentStatusRefunded; TransactionID := TransactionID p;
           CreatedAt := CreatedAt p; UpdatedAt := now; SagaID := SagaID p;
           ExternalRef := ExternalRef p; FailureReason := FailureReason p;
           RefundedAmount := (RefundedAmount p + amount)%float;
           RefundReference := refundRef;
           ProcessedAt := ProcessedAt p; RefundedAt := Some now |}.

Definition CanRefund (p : PaymentAggregate) : bool :=
  bool_decide (Status p = PaymentStatusCompleted)
  && (RefundedAmount p <? Amount p)%float.

Definition GetRemainingRefundAmount (p : PaymentAggregate) : float :=
  (Amount p - RefundedAmount p)%float.

(** [p.RefundedAmount >= p.Amount] is [p.Amount <= p.RefundedAmount]. *)
Definition IsFullyRefunded (p : PaymentAggregate) : bool :=
  (Amount p <=? RefundedAmount p)%float.

Definition FailPayment (now : Time) (reason : string) (p : PaymentAggregate)
  : PaymentAggregate :=
  {| ID := ID p; OrderID := OrderID p; CustomerID := CustomerID p;
     Amount := Amount p; PaymentMethod := PaymentMethod p;
     Status := PaymentStatusFailed; TransactionID := TransactionID p;
     CreatedAt := CreatedAt p; UpdatedAt := now; SagaID := SagaID p;
     ExternalRef := ExternalRef p; FailureReason := reason;
     RefundedAmount := RefundedAmount p;
     RefundReference := RefundReference p;
     ProcessedAt := ProcessedAt p; RefundedAt := RefundedAt p |}.

(** The operations of the aggregate that change a payment, for
    sequences of calls. *)
Inductive Operation :=
| OpProcessPayment (now : Time) (transactionID externalRef : string)
| OpRefundPayment (now : Time) (refundRef : string) (amount : float)
| OpFailPayment (now : Time) (reason : string).

(** A refused refund leaves the aggregate as it was. *)
Definition apply (op : Operation) (p : PaymentAggregate) : PaymentAggregate :=
  match op with
  | OpProcessPayment now t r => ProcessPayment now t r p
  | OpRefundPayment now r a =>
      match RefundPayment now r a p with
      | inl _ => p
      | inr p' => p'
      end
  | OpFailPayment now r => FailPayment now r p
  end.

Definition run (ops : list Operation) (p : PaymentAggregate) : PaymentAggregate :=
  fold_left (fun p op => apply op p) ops p.

(** The refund amount of an operation is a number. *)
Definition numeric (op : Operation) : Prop :=
  match op with
  | OpRefundPayment _ _ amount => is_nan amount = false
  | _ => True
  end.

(** The bounds on the refunded amount, as comparisons of [float64]. *)
Definition refund_invariant (p : PaymentAggregate) : Prop :=
  (0 <=? RefundedAmount p)%float = true /\
  (RefundedAmount p <=? Amount p)%float = true /\
  (Status p = PaymentStatusRefunded -> (0 <? RefundedAmount p)%float = true).

(** The payment of 0.03 that was charged, refunded by 0.01 and charged
    again. *)
Definition part_refunded : PaymentAggregate :=
  run [OpProcessPayment 2%N "TXN_1" "REF_1";
       OpRefundPayment 3%N "RREF_1" 0.01%float;
       OpProcessPayment 4%N "TXN_2" "REF_2"]
    (NewPaymentAggregate 900%N 1%N 7%N 3%N 100%N 0.03%float "credit_card").

(** The signs of a binary64 number in its specification. *)
Definition not_below_zero (x : spec_float) : Prop :=
  match x with
  | S754_zero _ | S754_infinity false | S754_finite false _ _ => True
  | _ => False
  end.

Definition above_zero (x : spec_float) : Prop :=
  match x with
  | S754_infinity false | S754_finite false _ _ => True
  | _ => False
  end.

End PaymentFloat.

(** ** Repository, gateway, service and handler *)

Module PaymentService.

Import PaymentDomain.

(** *** Repository: the payments table, in insertion order *)

Record World := {
  payments : list PaymentAggregate;
  published : list SagaEvent;
  next_uuid : UUID
}.

Definition set_payments (l : list PaymentAggregate) (w : World) : World :=
  {| payments := l; published := published w; next_uuid := next_uuid w |}.

Definition uuid_New (w : World) : UUID * World :=
  (next_uuid w,
   {| payments := payments w; published := published w;
      next_uuid := N.succ (next_uuid w) |}).

Definition PublishSagaEvent (e : SagaEvent) (w : World) : World :=
  {| payments := payments w; published := published w ++ [e];
     next_uuid := next_uuid w |}.

(** Text columns.  The encoding of the database is UTF8: a text value
    with a NUL byte, or with a byte sequence that is not legal UTF-8,
    is refused. *)
Definition byte_in (lo hi : N) (c : ascii) : bool :=
  ((lo <=? N_of_ascii c) && (N_of_ascii c <=? hi))%N.

Definition second_of_three (a b : ascii) : bool :=
  if byte_in 224 224 a then byte_in 160 191 b
  else if byte_in 237 237 a then byte_in 128 159 b
  else byte_in 128 191 b.

Definition second_of_four (a b : ascii) : bool :=
  if byte_in 240 240 a then byte_in 144 191 b
  else if byte_in 244 244 a then byte_in 128 143 b
  else byte_in 128 191 b.

(** The characters of a text value, [None] when the value is refused. *)
Fixpoint characters (s : string) : option (list string) :=
  match s with
  | EmptyString => Some []
  | String a s1 =>
      if byte_in 1 127 a then cons (String a "") <$> characters s1
      else
        match s1 with
        | EmptyString => None
        | String b s2 =>
            if byte_in 194 223 a then
              if byte_in 128 191 b
              then cons (String a (String b "")) <$> characters s2
              else None
            else
              match s2 with
              | EmptyString => None
              | String c s3 =>
                  if byte_in 224 239 a then
                    if second_of_three a b && byte_in 128 191 c
                    then cons (String a (String b (String c "")))
                           <$> characters s3
                    else None
                  else
                    match s3 with
                    | EmptyString => None
                    | String d s4 =>
                        if byte_in 240 244 a && second_of_four a b
                           && byte_in 128 191 c && byte_in 128 191 d
                        then cons (String a (String b (String c (String d ""))))
                               <$> characters s4
                        else None
                    end
              end
        end
  end.

(** What a TEXT column stores. *)
Definition text (s : string) : option string :=
  match characters s with
  | Some _ => Some s
  | None => None
  end.

(** What a VARCHAR(n) column stores: a value of more than [n]
    characters is refused, unless the characters in excess are all
    spaces, which are cut off. *)
Definition varchar (n : nat) (s : string) : option string :=
  match characters s with
  | None => None
  | Some cs =>
      if forallb (String.eqb " ") (drop n cs)
      then Some (String.concat "" (take n cs))
      else None
  end.

(** The aggregate with the values of transaction_id, external_ref,
    failure_reason and refund_reference as their columns store them. *)
Definition written (p : PaymentAggregate) : option PaymentAggregate :=
  match varchar 255 (TransactionID p), varchar 255 (ExternalRef p),
        text (FailureReason p), varchar 255 (RefundReference p) with
  | Some transactionID, Some externalRef, Some reason, Some refundRef =>
      Some {| ID := ID p; OrderID := OrderID p; CustomerID := CustomerID p;
              Amount := Amount p; PaymentMethod := PaymentMethod p;
              Status := Status p; TransactionID := transactionID;
              CreatedAt := CreatedAt p; UpdatedAt := UpdatedAt p;
              SagaID := SagaID p;
              ExternalRef := externalRef; FailureReason := reason;
              RefundedAmount := RefundedAmount p;
              RefundReference := refundRef;
              ProcessedAt := ProcessedAt p; RefundedAt := RefundedAt p |}
  | _, _, _, _ => None
  end.

(** The same with payment_method, the row that an INSERT stores. *)
Definition inserted (p : PaymentAggregate) : option PaymentAggregate :=
  match varchar 50 (PaymentMethod p), written p with
  | Some method, Some r =>
      Some {| ID := ID r; OrderID := OrderID r; CustomerID := CustomerID r;
              Amount := Amount r; PaymentMethod := method;
              Status := Status r; TransactionID := TransactionID r;
              CreatedAt := CreatedAt r; UpdatedAt := UpdatedAt r;
              SagaID := SagaID r;
              ExternalRef := ExternalRef r; FailureReason := FailureReason r;
              RefundedAmount := RefundedAmount r;
              RefundReference := RefundReference r;
              ProcessedAt := ProcessedAt r; RefundedAt := RefundedAt r |}
  | _, _ => None
  end.

(** The range of DECIMAL(10,2), CHECK (amount > 0),
    CHECK (refunded_amount >= 0) and chk_refunded_amount_limit. *)
Definition payment_checks (p : PaymentAggregate) : bool :=
  ((Amount p <? 10 ^ 10) && (0 <? Amount p) && (0 <=? RefundedAmount p)
   && (RefundedAmount p <=? Amount p))%Z.

(** INSERT INTO payments: primary key, the unique index on order_id,
    the checks, and the types of the text columns. *)
Definition CreatePayment (payment : PaymentAggregate) (w : World)
  : error + World :=
  let refused := Errorf "payment create error: %v"
                   (Some (Errorf "pq: insert violates constraint" None)) in
  if existsb (fun r => N.eqb (ID r) (ID payment)) (payments w)
     || existsb (fun r => N.eqb (OrderID r) (OrderID payment)) (payments w)
     || negb (payment_checks payment)
  then inl refused
  else
    match inserted payment with
    | None => inl refused
    | Some row => inr (set_payments (payments w ++ [row]) w)
    end.

(** The columns that UPDATE payments sets. *)
Definition updated_row (payment r : PaymentAggregate) : PaymentAggregate :=
  {| ID := ID r; OrderID := OrderID r; CustomerID := CustomerID r;
     Amount := Amount r; PaymentMethod := PaymentMethod r;
     Status := Status payment; TransactionID := TransactionID payment;
     CreatedAt := CreatedAt r; UpdatedAt := UpdatedAt payment;
     SagaID := SagaID r;
     ExternalRef := ExternalRef payment;
     FailureReason := FailureReason payment;
     RefundedAmount := RefundedAmount payment;
     RefundReference := RefundReference payment;
     ProcessedAt := ProcessedAt payment; RefundedAt := RefundedAt payment |}.

Definition UpdatePayment (payment : PaymentAggregate) (w : World)
  : error + World :=
  let refused := Errorf "payment update hatası: %v"
                   (Some (Errorf "pq: new row violates check constraint" None)) in
  match find (fun r => N.eqb (ID r) (ID payment)) (payments w) with
  | None => inl (Errorf "payment not found: %s" None)
  | Some r =>
      if payment_checks (updated_row payment r)
      then
        match written payment with
        | None => inl refused
        | Some values =>
            inr (set_payments
                   (map (fun r => if N.eqb (ID r) (ID payment)
                                  then updated_row values r else r)
                      (payments w)) w)
        end
      else inl refused
  end.

Definition GetPaymentByID (paymentID : UUID) (w : World)
  : error + PaymentAggregate :=
  match find (fun r => N.eqb (ID r) paymentID) (payments w) with
  | None => inl (Errorf "payment not found: %s" None)
  | Some r => inr r
  end.

(** ORDER BY created_at DESC, as a stable insertion sort. *)
Fixpoint insert_desc (p : PaymentAggregate) (l : list PaymentAggregate)
  : list PaymentAggregate :=
  match l with
  | [] => [p]
  | q :: rest =>
      if (CreatedAt q <? CreatedAt p)%N then p :: l
      else q :: insert_desc p rest
  end.

Definition GetPaymentsBySagaID (sagaID : UUID) (w : World)
  : list PaymentAggregate :=
  fold_left (fun acc p => insert_desc p acc)
    (filter (fun r => SagaID r = sagaID) (payments w)) [].

(** *** Gateway *)

Record PaymentRequest := {
  gw_OrderID : UUID;
  gw_CustomerID : UUID;
  gw_Amount : Money;
  gw_Currency : string;
  gw_PaymentMethod : string;
  gw_Description : string
}.

Record PaymentResponse := {
  Success : bool;
  resp_TransactionID : string;
  resp_ExternalRef : string;
  resp_FailureReason : string
}.

Record RefundRequest := {
  OriginalTransactionID : string;
  rq_ExternalRef : string;
  rq_Amount : Money;
  rq_Reason : string
}.

Record RefundResponse := {
  refund_Success : bool;
  refund_RefundReference : string;
  refund_FailureReason : string
}.

(** The [PaymentGateway] interface; a response returned without an
    error is not nil. *)
Record PaymentGateway := {
  gateway_ProcessPayment : PaymentRequest -> error + PaymentResponse;
  gateway_RefundPayment : RefundRequest -> error + RefundResponse
}.

(** *** Service *)

Definition event (sagaID orderID : UUID) (eventType : string)
  (payload : list (string * Value)) : SagaEvent :=
  {| Events.SagaID := sagaID; Events.OrderID := orderID;
     EventType := eventType;
     Service := "payment-service";
     Payload := Some (list_to_map payload) |}.

Definition status_string (s : PaymentStatus) : string :=
  match s with
  | PaymentStatusPending => "pending"
  | PaymentStatusCompleted => "completed"
  | PaymentStatusFailed => "failed"
  | PaymentStatusRefunded => "refunded"
  end.

(** The JSON of the embedded [types.Payment]. *)
Definition payment_value (p : PaymentAggregate) : Value :=
  VObject ([("id", VID (ID p));
            ("order_id", VID (OrderID p));
            ("customer_id", VID (CustomerID p));
            ("amount", VNumber (Amount p));
            ("payment_method", VString (PaymentMethod p));
            ("status", VString (status_string (Status p)))]
           ++ (if String.eqb (TransactionID p) "" then []
               else [("transaction_id", VString (TransactionID p))])
           ++ [("created_at", VTime (CreatedAt p));
               ("updated_at", VTime (UpdatedAt p))]).

Definition publishPaymentProcessedEvent (payment : PaymentAggregate) (w : World)
  : outcome * World :=
  (Returned None,
   PublishSagaEvent
     (event (SagaID payment) (OrderID payment) PaymentProcessedEvent
        [("payment", payment_value payment)]) w).

Definition publishPaymentFailedEvent (sagaID orderID : UUID) (reason : string)
  (amount : Money) (w : World) : outcome * World :=
  (Returned None,
   PublishSagaEvent
     (event sagaID orderID PaymentFailedEvent
        [("order_id", VID orderID);
         ("reason", VString reason);
         ("amount", VNumber amount)]) w).

Definition publishPaymentRefundedEvent (payment : PaymentAggregate)
  (refundAmount : Money) (w : World) : outcome * World :=
  (Returned None,
   PublishSagaEvent
     (event (SagaID payment) (OrderID payment) PaymentRefundedEvent
        [("payment_id", VID (ID payment));
         ("transaction_id", VString (TransactionID payment));
         ("refund_reference", VString (RefundReference payment));
         ("refunded_amount", VNumber refundAmount);
         ("total_refunded", VNumber (RefundedAmount payment))]) w).

Definition publishRefundFailedEvent (sagaID : UUID) (reason : string) (w : World)
  : outcome * World :=
  (Returned None,
   PublishSagaEvent
     (event sagaID uuid_Nil "payment.refund.failed"
        [("reason", VString reason)]) w).

(** The result of an [UpdatePayment] whose error is dropped or only
    logged. *)
Definition UpdatePayment_ignoring (payment : PaymentAggregate) (w : World) : World :=
  match UpdatePayment payment w with
  | inl _ => w
  | inr w1 => w1
  end.

Definition ProcessPayment (gateway : PaymentGateway) (now : Time)
  (request : PaymentProcessRequest) (w : World) : outcome * World :=
  let failed := publishPaymentFailedEvent (proc_SagaID request)
                  (proc_OrderID request) in
  if (proc_Amount request <=? 0)%Z then
    failed "Invalid payment amount" (proc_Amount request) w
  else
    let (id, w1) := uuid_New w in
    let payment := NewPaymentAggregate id now (proc_OrderID request)
                     (proc_CustomerID request) (proc_SagaID request)
                     (proc_Amount request) (proc_PaymentMethod request) in
    match CreatePayment payment w1 with
    | inl err => failed (Sprintf "Database error: %v" err) (proc_Amount request) w1
    | inr w2 =>
        let gatewayRequest :=
          {| gw_OrderID := proc_OrderID request;
             gw_CustomerID := proc_CustomerID request;
             gw_Amount := proc_Amount request;
             gw_Currency := "USD";
             gw_PaymentMethod := proc_PaymentMethod request;
             gw_Description := "Order payment for %s" |} in
        match gateway_ProcessPayment gateway gatewayRequest with
        | inl err =>
            let payment := FailPayment now (Sprintf "Gateway error: %v" err) payment in
            failed (Sprintf "Payment gateway error: %v" err) (proc_Amount request)
              (UpdatePayment_ignoring payment w2)
        | inr gatewayResponse =>
            if negb (Success gatewayResponse) then
              let payment := FailPayment now (resp_FailureReason gatewayResponse)
                               payment in
              failed (resp_FailureReason gatewayResponse) (proc_Amount request)
                (UpdatePayment_ignoring payment w2)
            else
              let payment := PaymentDomain.ProcessPayment now
                               (resp_TransactionID gatewayResponse)
                               (resp_ExternalRef gatewayResponse) payment in
              publishPaymentProcessedEvent payment
                (UpdatePayment_ignoring payment w2)
        end
    end.

(** The lookup at the head of [ProcessRefund]: the pointer [payment]
    ([None] is nil) and the outer [err].  In the second branch the
    [:=] declares a new [err], so the outer one stays nil. *)
Definition locate_payment (request : PaymentRefundRequest) (w : World)
  : option PaymentAggregate * option error :=
  if negb (N.eqb (ref_PaymentID request) uuid_Nil) then
    match GetPaymentByID (ref_PaymentID request) w with
    | inl err => (None, Some err)
    | inr p => (Some p, None)
    end
  else if negb (String.eqb (ref_TransactionID request) "") then
    match GetPaymentsBySagaID (ref_SagaID request) w with
    | p :: _ => (Some p, None)
    | [] => (None, None)
    end
  else (None, None).

Definition ProcessRefund (gateway : PaymentGateway) (now : Time)
  (request : PaymentRefundRequest) (w : World) : outcome * World :=
  let failed := publishRefundFailedEvent (ref_SagaID request) in
  match locate_payment request w with
  | (_, Some err) => failed (Sprintf "Payment bulunamadı: %v" err) w
  | (None, None) => (Panicked, w)
  | (Some payment, None) =>
      if negb (CanRefund payment) then
        failed "Payment refund edilemez, status: %s" w
      else
        let refundAmount := ref_Amount request in
        if (refundAmount <=? 0)%Z
           || (GetRemainingRefundAmount payment <? refundAmount)%Z
        then failed "Geçersiz refund amount: %.2f" w
        else
          let gatewayRequest :=
            {| OriginalTransactionID := TransactionID payment;
               rq_ExternalRef := ExternalRef payment;
               rq_Amount := refundAmount;
               rq_Reason := ref_Reason request |} in
          match gateway_RefundPayment gateway gatewayRequest with
          | inl err => failed (Sprintf "Gateway refund error: %v" err) w
          | inr gatewayResponse =>
              if negb (refund_Success gatewayResponse) then
                failed (refund_FailureReason gatewayResponse) w
              else
                match RefundPayment now (refund_RefundReference gatewayResponse)
                        refundAmount payment with
                | inl err => failed (Sprintf "Refund processing error: %v" err) w
                | inr payment =>
                    publishPaymentRefundedEvent payment refundAmount
                      (UpdatePayment_ignoring payment w)
                end
          end
  end.

(** *** Handler *)

(** [payload[k].(float64)]. *)
Definition as_number (v : Value) : option Z :=
  match v with
  | VNumber n => Some n
  | _ => None
  end.

(** [payload[k].(string)] followed by [uuid.Parse]: a string value
    that holds a UUID is a [VID]. *)
Definition as_uuid (v : Value) : option UUID :=
  match v with
  | VID u => Some u
  | _ => None
  end.

Definition mapToPaymentRefundRequest (sagaID : UUID)
  (payload : gmap string Value) : error + PaymentRefundRequest :=
  match as_number (index payload "amount") with
  | None => inl (Errorf "missing or invalid refund amount" None)
  | Some amount =>
      inr {| ref_SagaID := sagaID;
             ref_PaymentID := default uuid_Nil (as_uuid (index payload "payment_id"));
             ref_TransactionID :=
               default "" (as_string (index payload "transaction_id"));
             ref_Amount := amount;
             ref_Reason := default "" (as_string (index payload "reason")) |}
  end.

(** [payload[k].(string)] followed by [uuid.Parse], with the two
    errors of the process mapping. *)
Definition required_uuid (payload : gmap string Value) (k : string)
  (invalid missing : string) : error + UUID :=
  match index payload k with
  | VID u => inr u
  | VString _ => inl (Errorf invalid None)
  | _ => inl (Errorf missing None)
  end.

Definition mapToPaymentProcessRequest (sagaID : UUID)
  (payload : gmap string Value) : error + PaymentProcessRequest :=
  match required_uuid payload "order_id" "invalid order_id format: %s"
          "missing or invalid order_id" with
  | inl err => inl err
  | inr orderID =>
      match required_uuid payload "customer_id" "invalid customer_id format: %s"
              "missing or invalid customer_id" with
      | inl err => inl err
      | inr customerID =>
          match as_number (index payload "amount") with
          | None => inl (Errorf "missing or invalid amount" None)
          | Some amount =>
              inr {| proc_SagaID := sagaID;
                     proc_OrderID := orderID;
                     proc_CustomerID := customerID;
                     proc_Amount := amount;
                     proc_PaymentMethod :=
                       default "credit_card"
                         (as_string (index payload "payment_method")) |}
          end
      end
  end.

Definition handlePaymentProcessCommand (gateway : PaymentGateway) (now : Time)
  (event : SagaEvent) (w : World) : outcome * World :=
  match Payload event with
  | None => (Returned (Some (Errorf "Invalid payload format for payment.process" None)), w)
  | Some payloadMap =>
      match mapToPaymentProcessRequest (Events.SagaID event) payloadMap with
      | inl err =>
          (Returned (Some (Errorf (Sprintf "Payload mapping error: %v" err) None)), w)
      | inr request => ProcessPayment gateway now request w
      end
  end.

Definition handlePaymentRefundCommand (gateway : PaymentGateway) (now : Time)
  (event : SagaEvent) (w : World) : outcome * World :=
  match Payload event with
  | None => (Returned (Some (Errorf "Invalid payload format for payment.refund" None)), w)
  | Some payloadMap =>
      match mapToPaymentRefundRequest (Events.SagaID event) payloadMap with
      | inl err =>
          (Returned (Some (Errorf (Sprintf "Refund payload mapping error: %v" err) None)), w)
      | inr request => ProcessRefund gateway now request w
      end
  end.

Definition HandleSagaEvent (gateway : PaymentGateway) (now : Time)
  (event : SagaEvent) (w : World) : outcome * World :=
  if String.eqb (EventType event) "payment.process" then
    handlePaymentProcessCommand gateway now event w
  else if String.eqb (EventType event) "payment.refund" then
    handlePaymentRefundCommand gateway now event w
  else (Returned None, w).

End PaymentService.

(** * Concrete scenarios *)

Module Scenario.

Import Orchestrator Events.

(** Scenario S1 of the documentation: two laptops at 1299.99. *)
Definition order0 : Order :=
  {| order_ID := 7%N; order_CustomerID := 3%N;
     order_Items := [{| ProductID := 11%N; Quantity := 2; Price := 129999 |}];
     order_TotalAmount := 259998;
     order_Status := "processing";
     order_ShippingAddress :=
       Some {| Street := "1 Main Street"; City := "Istanbul"; State := "IST";
               ZipCode := "34000"; Country := "TR" |};
     order_CreatedAt := 0%N; order_UpdatedAt := 0%N |}.

Definition empty_world : World := {| sagas := ∅; published := [] |}.

(** A field of the saga as [GetSagaByID] returns it. *)
Definition loaded {A} (field : SagaInstance -> A) (sagaID : UUID) (w : World)
  : option A :=
  match GetSagaByID sagaID w with
  | inr saga => Some (field saga)
  | inl _ => None
  end.

(** The state in which every saga that [StartSaga] creates stays:
    order_created is completed and the status is not compensated. *)
Definition open_row (r : SagaRow) : Prop :=
  contains_step (row_completed_steps r) StepOrderCreated = true /\
  row_status r <> SagaStatusCompensated.

(** An event for saga 100 of order 7. *)
Definition reply (eventType service : string) (payload : list (string * Value))
  : SagaEvent :=
  {| SagaID := 100%N; OrderID := 7%N; EventType := eventType;
     Service := service; Payload := Some (list_to_map payload) |}.

(** The events of the participants, with the payloads that their
    services build. *)
Definition order_created : SagaEvent :=
  reply OrderCreatedEvent "order-service" [("order", order_value order0)].

Definition payment_processed : SagaEvent :=
  reply PaymentProcessedEvent "payment-service"
    [("payment", VObject [("id", VID 900%N); ("order_id", VID 7%N);
                          ("amount", VNumber 259998);
                          ("status", VString "completed");
                          ("transaction_id", VString "TXN_1")])].

Definition payment_failed : SagaEvent :=
  reply PaymentFailedEvent "payment-service"
    [("order_id", VID 7%N);
     ("reason", VString "Database error: payment create error: pq: insert violates constraint");
     ("amount", VNumber 259998)].

Definition payment_refunded : SagaEvent :=
  reply PaymentRefundedEvent "payment-service"
    [("payment_id", VID 900%N); ("transaction_id", VString "TXN_1");
     ("refund_reference", VString "RREF_1");
     ("refunded_amount", VNumber 259998); ("total_refunded", VNumber 259998)].

Definition inventory_reserved : SagaEvent :=
  reply InventoryReservedEvent "inventory-service"
    [("reservations", VList [VObject [("id", VID 500%N);
                                      ("product_id", VID 11%N);
                                      ("quantity", VNumber 2);
                                      ("status", VString "reserved")]])].

Definition inventory_failed : SagaEvent :=
  reply InventoryFailedEvent "inventory-service"
    [("order_id", VID 7%N); ("product_id", VID 11%N);
     ("reason", VString "Insufficient stock")].

Definition inventory_released : SagaEvent :=
  reply InventoryReleasedEvent "inventory-service"
    [("order_id", VID 7%N); ("reservation_ids", VList [VID 500%N])].

Definition shipping_created : SagaEvent :=
  reply ShippingCreatedEvent "shipping-service"
    [("shipment", VObject [("id", VID 700%N); ("order_id", VID 7%N);
                           ("status", VString "preparing");
                           ("tracking_id", VString "TRK_1")])].

Definition shipping_failed : SagaEvent :=
  reply ShippingFailedEvent "shipping-service"
    [("order_id", VID 7%N); ("reason", VString "Shipping service unavailable")].

Definition notification_sent : SagaEvent :=
  reply NotificationSentEvent "notification-service"
    [("notification", VObject [("order_id", VID 7%N);
                               ("status", VString "sent")])].

Definition notification_failed : SagaEvent :=
  reply NotificationFailedEvent "notification-service"
    [("order_id", VID 7%N);
     ("reason", VString "Notification service unavailable")].

(** The states of the orchestrator along the forward chain of
    [order0], each reached from the one before by the code. *)
Definition started : World :=
  snd (StartSaga 100%N 1%N order0 empty_world).

Definition charged : World :=
  snd (ProcessIncomingEvent 2%N payment_processed started).

Definition reserved : World :=
  snd (ProcessIncomingEvent 3%N inventory_reserved charged).

Definition shipped : World :=
  snd (ProcessIncomingEvent 4%N shipping_created reserved).

(** Scenario S3: the reservation fails after the charge. *)
Definition refunding : World :=
  snd (ProcessIncomingEvent 3%N inventory_failed charged).

(** A payment.failed that arrives after the reservation, as the
    payment service publishes for a second payment.process. *)
Definition releasing : World :=
  snd (ProcessIncomingEvent 4%N payment_failed reserved).

(** The rows of saga 100 in these states. *)
Definition context0 : gmap string Value :=
  list_to_map
    [("order", order_value order0);
     ("total_amount", VNumber 259998);
     ("items", items_value (order_Items order0));
     ("retry_counts", VObject [])].

Definition context_charged : gmap string Value :=
  <["transaction_id" := VNil]> (<["payment_id" := VNil]> context0).

Definition context_reserved : gmap string Value :=
  <["reservation_ids" := VNil]> context_charged.

Definition context_shipped : gmap string Value :=
  <["tracking_id" := VNil]> (<["shipment_id" := VNil]> context_reserved).

Definition row (status : SagaStatus) (current : SagaStep)
  (completed : list SagaStep) (reason : string) (context : gmap string Value)
  (updated : Time) : SagaRow :=
  {| row_order_id := 7%N; row_customer_id := 3%N;
     row_status := status; row_current_step := current;
     row_completed_steps := completed; row_failure_reason := reason;
     row_context := context;
     row_created_at := 1%N; row_updated_at := updated;
     row_completed_at := None |}.

Definition row_charged : SagaRow :=
  row SagaStatusInProgress StepPaymentProcessed
    [StepOrderCreated; StepPaymentProcessed] "" context_charged 2%N.

Definition row_reserved : SagaRow :=
  row SagaStatusInProgress StepInventoryReserved
    [StepOrderCreated; StepPaymentProcessed; StepInventoryReserved] ""
    context_reserved 3%N.

Definition row_shipped : SagaRow :=
  row SagaStatusInProgress StepShippingCreated
    [StepOrderCreated; StepPaymentProcessed; StepInventoryReserved;
     StepShippingCreated] "" context_shipped 4%N.

Definition row_refunding : SagaRow :=
  row SagaStatusCompensating StepPaymentProcessed
    [StepOrderCreated; StepPaymentProcessed] "Insufficient stock"
    context_charged 3%N.

End Scenario.

Module InventoryScenario.

Import Inventory.

Definition product (name : string) (price : Money) (stock reserved : Z)
  : ProductRow :=
  {| row_name := name; row_price := price;
     row_stock := stock; row_reserved_stock := reserved |}.

(** The sample products of the migration. *)
Definition stocked : World :=
  {| products := list_to_map
                   [(1%N, product "Laptop Pro 15" 129999 50 0);
                    (2%N, product "Wireless Mouse" 4999 100 0)];
     reservations := [];
     published := [];
     next_uuid := 500%N |}.

(** Two laptops, which are in stock, and a thousand mice, which are not. *)
Definition reserve_request : InventoryReserveRequest :=
  {| req_SagaID := 50%N; req_OrderID := 7%N;
     req_Items := [{| item_ProductID := 1%N; item_Quantity := 2 |};
                   {| item_ProductID := 2%N; item_Quantity := 1000 |}] |}.

Definition reservation (id saga : UUID) (quantity : Z) : ReservationAggregate :=
  NewReservationAggregate id 1%N 7%N 1%N saga quantity.

(** Eight laptops are held: three for saga 50 and five for saga 51. *)
Definition held : World :=
  {| products := {[1%N := product "Laptop Pro 15" 129999 50 8]};
     reservations := [reservation 501%N 50%N 3; reservation 502%N 51%N 5];
     published := [];
     next_uuid := 503%N |}.

Definition release_request : InventoryReleaseRequest :=
  {| rel_SagaID := 50%N; rel_OrderID := 7%N; rel_ReservationIDs := [501%N] |}.

(** The reserved stock of a product, as the table has it. *)
Definition reserved_stock (productID : UUID) (w : World) : option Z :=
  row_reserved_stock <$> products w !! productID.

(** The reservations of a saga that are still [reserved]. *)
Definition reserved_of (sagaID : UUID) (w : World) : list ReservationAggregate :=
  filter (fun r => res_Status r = InventoryStatusReserved)
    (GetReservationsBySagaID sagaID w).

(** The row [x] after the iterations of the release loop for the
    reservations [rs], the products with a row being [D]. *)
Definition released_row (D : gset N) (now : Time) (x r : ReservationAggregate)
  : ReservationAggregate :=
  if bool_decide (res_ProductID r ∈ D) && N.eqb (res_ID x) (res_ID r)
  then {| res_ID := res_ID x; res_OrderID := res_OrderID x;
          res_ProductID := res_ProductID x; res_Quantity := res_Quantity x;
          res_Status := InventoryStatusReleased;
          res_ReservedAt := res_ReservedAt x; res_ExpiresAt := res_ExpiresAt x;
          res_UpdatedAt := now; res_SagaID := res_SagaID x |}
  else x.

Definition released_rows (D : gset N) (now : Time)
  (rs : list ReservationAggregate) (x : ReservationAggregate)
  : ReservationAggregate :=
  fold_left (released_row D now) rs x.

(** Whether one of the iterations for [rs] updates the row [x]. *)
Definition hit (D : gset N) (rs : list ReservationAggregate)
  (x : ReservationAggregate) : bool :=
  existsb (fun r => bool_decide (res_ProductID r ∈ D)
                    && N.eqb (res_ID x) (res_ID r)) rs.

End InventoryScenario.

Module PaymentScenario.

Import PaymentDomain PaymentService.

(** A gateway that accepts every charge and every refund. *)
Definition approving : PaymentGateway :=
  {| gateway_ProcessPayment := fun _ =>
       inr {| Success := true; resp_TransactionID := "TXN_1";
              resp_ExternalRef := "REF_1"; resp_FailureReason := "" |};
     gateway_RefundPayment := fun _ =>
       inr {| refund_Success := true; refund_RefundReference := "RREF_1";
              refund_FailureReason := "" |} |}.

Definition no_payments : World :=
  {| payments := []; published := []; next_uuid := 900%N |}.

(** The payment of order 7, charged. *)
Definition charged : PaymentAggregate :=
  PaymentDomain.ProcessPayment 2%N "TXN_1" "REF_1"
    (NewPaymentAggregate 900%N 2%N 7%N 3%N 100%N 259998 "credit_card").

Definition paid : World :=
  {| payments := [charged]; published := []; next_uuid := 901%N |}.

Definition process_request : PaymentProcessRequest :=
  {| proc_SagaID := 100%N; proc_OrderID := 7%N; proc_CustomerID := 3%N;
     proc_Amount := 259998; proc_PaymentMethod := "credit_card" |}.

(** The last event of a list of published events. *)
Definition latest (l : list SagaEvent) : SagaEvent :=
  List.last l {| Events.SagaID := uuid_Nil; Events.OrderID := uuid_Nil;
                 EventType := ""; Service := ""; Payload := None |}.

(** Scenario S3 across the services: the order is created, charged,
    and the reservation fails.  [s3_refund] is the payment.refund
    command that the orchestrator then publishes, and [s3_payments]
    the state of the payment service when the command arrives. *)
Definition s3_started : Orchestrator.World := Scenario.started.

Definition s3_payments : World :=
  snd (HandleSagaEvent approving 2%N
         (latest (Orchestrator.published s3_started)) no_payments).

Definition s3_charged : Orchestrator.World :=
  snd (Orchestrator.ProcessIncomingEvent 3%N
         (latest (published s3_payments)) s3_started).

Definition s3_inventory_failed : SagaEvent :=
  latest (Inventory.published
            (snd (Inventory.publishInventoryFailedEvent 100%N 7%N 11%N
                    "Insufficient stock"
                    {| Inventory.products := ∅; Inventory.reservations := [];
                       Inventory.published := []; Inventory.next_uuid := 500%N |}))).

Definition s3_compensating : Orchestrator.World :=
  snd (Orchestrator.ProcessIncomingEvent 4%N s3_inventory_failed s3_charged).

Definition s3_refund : SagaEvent :=
  latest (Orchestrator.published s3_compensating).

End PaymentScenario.

(** * Further observations *)

Module Observations.

Import Orchestrator Events.

(** At most one saga per order: the UNIQUE constraint of the table. *)
Definition unique_orders (m : gmap N SagaRow) : Prop :=
  forall i j ri rj,
    m !! i = Some ri -> m !! j = Some rj ->
    row_order_id ri = row_order_id rj -> i = j.

(** The step that the success reply of a forward step leads to: the
    event type of the command that is published next. *)
Definition following_command (step : SagaStep) : string :=
  match step with
  | StepOrderCreated => "payment.process"
  | StepPaymentProcessed => "inventory.reserve"
  | StepInventoryReserved => "shipping.create"
  | StepShippingCreated => "notification.send"
  | _ => OrderCompletedEvent
  end.

(** Whether a success reply for [step] ends the forward chain. *)
Definition is_last (step : SagaStep) : bool :=
  match step with
  | StepOrderCreated | StepPaymentProcessed | StepInventoryReserved
  | StepShippingCreated => false
  | _ => true
  end.

(** The row that [HandleStepSuccess] writes over the row [r]. *)
Definition advanced_row (now : Time) (step : SagaStep)
  (eventData : gmap string Value) (r : SagaRow) : SagaRow :=
  {| row_order_id := row_order_id r;
     row_customer_id := row_customer_id r;
     row_status := if is_last step then SagaStatusCompleted
                   else SagaStatusInProgress;
     row_current_step := step;
     row_completed_steps :=
       if contains_step (row_completed_steps r) step
       then row_completed_steps r
       else (row_completed_steps r ++ [step])%list;
     row_failure_reason := row_failure_reason r;
     row_context :=
       match step with
       | StepPaymentProcessed =>
           <["transaction_id" := index eventData "transaction_id"]>
             (<["payment_id" := index eventData "payment_id"]> (row_context r))
       | StepInventoryReserved =>
           <["reservation_ids" := index eventData "reservation_ids"]>
             (row_context r)
       | StepShippingCreated =>
           <["tracking_id" := index eventData "tracking_id"]>
             (<["shipment_id" := index eventData "shipment_id"]> (row_context r))
       | _ => row_context r
       end;
     row_created_at := row_created_at r;
     row_updated_at := now;
     row_completed_at := if is_last step then Some now else row_completed_at r |}.

(** The forward step that a compensation step undoes. *)
Definition undoes (compensation : SagaStep) : SagaStep :=
  match compensation with
  | StepShippingCancelled => StepShippingCreated
  | StepInventoryReleased => StepInventoryReserved
  | StepPaymentRefunded => StepPaymentProcessed
  | _ => StepOrderCreated
  end.

(** The compensation steps that the aggregate hands out when each one
    is marked done on the same struct before the next is asked for. *)
Fixpoint compensation_plan (fuel : nat) (now : Time) (s : SagaInstance)
  : list SagaStep :=
  match fuel with
  | O => []
  | S fuel =>
      match GetCompensationStep s with
      | None => []
      | Some step =>
          step :: compensation_plan fuel now
                    (MarkCompensationCompleted now step s)
      end
  end.


(** What a handler may do to the table: nothing, or rewrite the row of
    one saga, keeping its order, its customer and its creation time. *)
Definition rewrites_row (sagaID : UUID) (w w' : World) : Prop :=
  sagas w' = sagas w \/
  exists r r',
    sagas w !! sagaID = Some r /\
    sagas w' = <[sagaID := r']> (sagas w) /\
    row_order_id r' = row_order_id r /\
    row_customer_id r' = row_customer_id r /\
    row_created_at r' = row_created_at r.

(** What a handler may publish: nothing, or one event of its own. *)
Definition publishes_at_most_one (w w' : World) : Prop :=
  published w' = published w \/
  exists e, published w' = (published w ++ [e])%list /\
            Service e = "saga-orchestrator".


(** The event types with a case in the switch of
    [ProcessIncomingEvent]. *)
Definition dispatched (eventType : string) : bool :=
  existsb (String.eqb eventType)
    [PaymentProcessedEvent; InventoryReservedEvent; ShippingCreatedEvent;
     NotificationSentEvent; PaymentFailedEvent; InventoryFailedEvent;
     ShippingCancelledEvent; InventoryReleasedEvent; PaymentRefundedEvent].

(** Those whose case asserts that the payload is a JSON object. *)
Definition asserts_payload (eventType : string) : bool :=
  existsb (String.eqb eventType)
    [PaymentProcessedEvent; InventoryReservedEvent; ShippingCreatedEvent;
     NotificationSentEvent; PaymentFailedEvent; InventoryFailedEvent].

End Observations.

(** * Views of the orchestrator's tables and replies *)

Module OrchestratorViews.

Import Orchestrator Events.


(** The compensation step that [GetCompensationStep] hands out for a
    saga as the repository loads it, that is, with no compensated
    step. *)
Definition pending_compensation (steps : list SagaStep) : option SagaStep :=
  GetCompensationStep
    {| ID := 0%N; Orchestrator.OrderID := 0%N; CustomerID := 0%N;
       Status := SagaStatusCompensating; CurrentStep := StepOrderCreated;
       CompletedSteps := steps; FailureReason := ""; CreatedAt := 0%N;
       UpdatedAt := 0%N; CompletedAt := None; CompensatedSteps := [];
       Context := ∅ |}.

(** The event type of the command of a compensation step, as
    [sendCompensationEvent] has it. *)
Definition compensation_command (step : SagaStep) : string :=
  match step with
  | StepShippingCancelled => "shipping.cancel"
  | StepInventoryReleased => "inventory.release"
  | StepPaymentRefunded => "payment.refund"
  | _ => "order.cancel"
  end.

(** The failure reason after [HandleStepFailure]: the reason of the
    payload when it is a string. *)
Definition recorded_reason (eventData : gmap string Value) (r : SagaRow) : string :=
  match as_string (index eventData "reason") with
  | Some reason => reason
  | None => row_failure_reason r
  end.

(** The row that [HandleStepFailure] writes over the row [r]. *)
Definition failed_row (now : Time) (eventData : gmap string Value) (r : SagaRow)
  : SagaRow :=
  {| row_order_id := row_order_id r;
     row_customer_id := row_customer_id r;
     row_status := match pending_compensation (row_completed_steps r) with
                   | Some _ => SagaStatusCompensating
                   | None => SagaStatusCompensated
                   end;
     row_current_step := row_current_step r;
     row_completed_steps := row_completed_steps r;
     row_failure_reason := recorded_reason eventData r;
     row_context := row_context r;
     row_created_at := row_created_at r;
     row_updated_at := now;
     row_completed_at := match pending_compensation (row_completed_steps r) with
                         | Some _ => row_completed_at r
                         | None => Some now
                         end |}.

(** The compensation steps in the order in which
    [GetCompensationStep] tests them. *)
Import Observations.

Definition compensation_order : list SagaStep :=
  [StepShippingCancelled; StepInventoryReleased; StepPaymentRefunded;
   StepOrderCancelled].

(** The compensation steps that are still to be run for [s]: its
    forward step is completed and it is not itself compensated. *)
Definition outstanding_compensations (s : SagaInstance) : list SagaStep :=
  List.filter
    (fun c => IsStepCompleted s (undoes c) && negb (IsCompensationCompleted s c))
    compensation_order.

(** The order of ORDER BY created_at ASC on the rows. *)
Definition created_before (a b : N * SagaRow) : Prop :=
  (row_created_at (snd a) <= row_created_at (snd b))%N.

End OrchestratorViews.

(** * The inventory handler (inventory-service/internal/handlers) *)

Module InventoryHandler.

Import Inventory.

(** [m[k]] on the Go map that a JSON object decodes to: the value of
    the last field of that name, [nil] when there is none. *)
Definition field (fields : list (string * Value)) (k : string) : Value :=
  fold_left (fun acc kv => if String.eqb (fst kv) k then snd kv else acc)
    fields VNil.

(** The [float64] that a JSON number with the integer value [n]
    decodes to: [n] itself up to 53 bits, and beyond that the nearest
    number with a mantissa of 53 bits, a tie going to the even
    mantissa. *)
Definition float64_of (n : Z) : Z :=
  let e := (Z.log2 (Z.abs n) - 52)%Z in
  if (e <=? 0)%Z then n
  else
    let q := (Z.abs n / 2 ^ e)%Z in
    let r := (Z.abs n mod 2 ^ e)%Z in
    let half := (2 ^ (e - 1))%Z in
    let up := (half <? r)%Z || ((r =? half)%Z && Z.odd q) in
    (Z.sgn n * ((if up then q + 1 else q) * 2 ^ e))%Z.

(** [int(quantity)] on the [float64] of a whole number.  Out of the
    range of [int] the result depends on the machine; the model gives
    that of amd64, the smallest [int]. *)
Definition int_of_number (n : Z) : Z :=
  let quantity := float64_of n in
  if ((- 2 ^ 63 <=? quantity) && (quantity <? 2 ^ 63))%Z
  then quantity else (- 2 ^ 63)%Z.

(** One element of the items of the payload; an element that is not
    an object is skipped. *)
Definition mapItem (itemData : Value) : option ReservationItem :=
  match itemData with
  | VObject itemMap =>
      Some {| item_ProductID :=
                default uuid_Nil
                  (PaymentService.as_uuid (field itemMap "product_id"));
              item_Quantity :=
                match PaymentService.as_number (field itemMap "quantity") with
                | Some quantity => int_of_number quantity
                | None => 0%Z
                end |}
  | _ => None
  end.

Definition mapToInventoryReserveRequest (sagaID : UUID)
  (payload : gmap string Value) : error + InventoryReserveRequest :=
  match PaymentService.required_uuid payload "order_id"
          "invalid order_id format: %s" "missing or invalid order_id" with
  | inl err => inl err
  | inr orderID =>
      inr {| req_SagaID := sagaID;
             req_OrderID := orderID;
             req_Items := match index payload "items" with
                          | VList itemsData => omap mapItem itemsData
                          | _ => []
                          end |}
  end.

Definition mapToInventoryReleaseRequest (sagaID : UUID)
  (payload : gmap string Value) : error + InventoryReleaseRequest :=
  inr {| rel_SagaID := sagaID;
         rel_OrderID :=
           default uuid_Nil (PaymentService.as_uuid (index payload "order_id"));
         rel_ReservationIDs :=
           match index payload "reservation_ids" with
           | VList reservationIDs => omap PaymentService.as_uuid reservationIDs
           | _ => []
           end |}.

Definition handleInventoryReserveCommand (now : Time) (event : SagaEvent)
  (w : World) : outcome * World :=
  match Payload event with
  | None =>
      (Returned (Some (Errorf "Invalid payload format for inventory.reserve" None)), w)
  | Some payloadMap =>
      match mapToInventoryReserveRequest (Events.SagaID event) payloadMap with
      | inl err =>
          (Returned (Some (Errorf (Sprintf "Payload mapping error: %v" err) None)), w)
      | inr request => ReserveInventory now request w
      end
  end.

Definition handleInventoryReleaseCommand (now : Time) (event : SagaEvent)
  (w : World) : outcome * World :=
  match Payload event with
  | None =>
      (Returned (Some (Errorf "Invalid payload format for inventory.release" None)), w)
  | Some payloadMap =>
      match mapToInventoryReleaseRequest (Events.SagaID event) payloadMap with
      | inl err =>
          (Returned (Some (Errorf (Sprintf "Release payload mapping error: %v" err)
                             None)), w)
      | inr request => ReleaseInventory now request w
      end
  end.

Definition HandleSagaEvent (now : Time) (event : SagaEvent) (w : World)
  : outcome * World :=
  if String.eqb (EventType event) "inventory.reserve" then
    handleInventoryReserveCommand now event w
  else if String.eqb (EventType event) "inventory.release" then
    handleInventoryReleaseCommand now event w
  else (Returned None, w).

End InventoryHandler.

(** * Views of the inventory tables *)

Module InventoryViews.

Import Inventory.

(** The columns of a product that a reservation has no business with. *)
Definition goods (r : ProductRow) : string * Money * Z :=
  (row_name r, row_price r, row_stock r).

(** The item that a reservation was made for. *)
Definition item_of (r : ReservationAggregate) : ReservationItem :=
  {| item_ProductID := res_ProductID r; item_Quantity := res_Quantity r |}.

(** Every product row satisfies the CHECK constraints of the table. *)
Definition well_stocked (m : gmap N ProductRow) : Prop :=
  forall id r, m !! id = Some r ->
    product_checks (row_stock r) (row_reserved_stock r) = true.

Definition with_reserved (v : Z) (r : ProductRow) : ProductRow :=
  {| row_name := row_name r; row_price := row_price r;
     row_stock := row_stock r; row_reserved_stock := v |}.

(** The total quantity that [items] ask of a product. *)
Definition demand (productID : UUID) (items : list ReservationItem) : Z :=
  fold_right
    (fun item total =>
       if N.eqb (item_ProductID item) productID
       then (item_Quantity item + total)%Z else total)
    0%Z items.

(** The products [m] with the reserved stock raised by the demand of
    [items]. *)
Definition raised (items : list ReservationItem) (m : gmap N ProductRow)
  : gmap N ProductRow :=
  map_imap
    (fun id r =>
       Some (with_reserved (row_reserved_stock r + demand id items)%Z r)) m.

(** The reservation that the loop of [ReserveInventory] makes for
    [item] in the state [w]. *)
Definition reserved_item (now : Time) (request : InventoryReserveRequest)
  (item : ReservationItem) (w : World) : ReservationAggregate :=
  NewReservationAggregate (next_uuid w) now (req_OrderID request)
    (item_ProductID item) (req_SagaID request) (item_Quantity item).

(** The state after an iteration of the loop that went through, the
    row of the product having been [r]. *)
Definition after_item (now : Time) (request : InventoryReserveRequest)
  (item : ReservationItem) (r : ProductRow) (w : World) : World :=
  {| products :=
       <[item_ProductID item :=
           with_reserved
             (wrap64 (row_reserved_stock r + item_Quantity item)) r]>
         (products w);
     reservations := reservations w ++ [reserved_item now request item w];
     published := published w;
     next_uuid := N.succ (next_uuid w) |}.

(** The tests that an iteration goes through: the stock check of the
    aggregate, the CHECK constraints of the product, and the
    constraints of the reservation. *)
Definition accepts (item : ReservationItem) (r : ProductRow) (w : World) : bool :=
  (item_Quantity item <=? wrap64 (row_stock r - row_reserved_stock r))%Z
  && product_checks (row_stock r)
       (wrap64 (row_reserved_stock r + item_Quantity item))
  && negb (existsb (fun x => N.eqb (res_ID x) (next_uuid w)) (reservations w))
  && int4 (item_Quantity item)
  && (0 <? item_Quantity item)%Z.

(** The fields that the loop gives every reservation of a request. *)
Definition made_for (now : Time) (request : InventoryReserveRequest)
  (x : ReservationAggregate) : Prop :=
  res_SagaID x = req_SagaID request /\
  res_OrderID x = req_OrderID request /\
  res_Status x = InventoryStatusReserved /\
  res_ReservedAt x = now /\
  (0 < res_Quantity x)%Z.

End InventoryViews.

(** * Views of the payments table *)

Module PaymentViews.

Import PaymentDomain PaymentService.

(** The columns of a payment that no UPDATE of the repository sets. *)
Definition identity (p : PaymentAggregate)
  : UUID * UUID * UUID * Money * UUID * Time :=
  (ID p, OrderID p, CustomerID p, Amount p, SagaID p, CreatedAt p).

(** The gateway approves the charge of a request. *)
Definition approved (gateway : PaymentGateway) (request : PaymentProcessRequest)
  : option PaymentResponse :=
  match gateway_ProcessPayment gateway
          {| gw_OrderID := proc_OrderID request;
             gw_CustomerID := proc_CustomerID request;
             gw_Amount := proc_Amount request;
             gw_Currency := "USD";
             gw_PaymentMethod := proc_PaymentMethod request;
             gw_Description := "Order payment for %s" |} with
  | inr response => if Success response then Some response else None
  | inl _ => None
  end.

(** The payment that [ProcessPayment] inserts for a request. *)
Definition pending_payment (now : Time) (request : PaymentProcessRequest)
  (w : World) : PaymentAggregate :=
  NewPaymentAggregate (next_uuid w) now (proc_OrderID request)
    (proc_CustomerID request) (proc_SagaID request) (proc_Amount request)
    (proc_PaymentMethod request).

(** The order of ORDER BY created_at DESC on the payments. *)
Definition newer (a b : PaymentAggregate) : Prop :=
  (CreatedAt b <= CreatedAt a)%N.




End PaymentViews.

(** * Messaging (shared-domain/messaging) *)

Module Messaging.

(** ** Publisher *)

(** The publisher, as its caller sees it: the events that reached the
    exchange, the seconds slept between attempts, and the number of
    calls of [PublishSagaEvent] so far.  [broker k] is the error that
    the call number [k] returns, [None] when it succeeds: no
    connection, a failed serialization and a failed publish are all
    errors of the call. *)
Record Channel := {
  sent : list SagaEvent;
  slept : list Z;
  calls : nat
}.

Definition PublishSagaEvent (broker : nat -> option error) (event : SagaEvent)
  (c : Channel) : option error * Channel :=
  match broker (calls c) with
  | Some err =>
      (Some err, {| sent := sent c; slept := slept c; calls := S (calls c) |})
  | None =>
      (None,
       {| sent := sent c ++ [event]; slept := slept c; calls := S (calls c) |})
  end.

(** [time.Sleep(time.Second * time.Duration(seconds))]. *)
Definition Sleep (seconds : Z) (c : Channel) : Channel :=
  {| sent := sent c; slept := slept c ++ [seconds]; calls := calls c |}.

(** The loop of [PublishWithRetry] from the index [i] on, with at
    most [remaining] iterations left. *)
Fixpoint retry_loop (broker : nat -> option error) (event : SagaEvent)
  (maxRetries : Z) (remaining : nat) (i : Z) (lastErr : option error)
  (c : Channel) : option error * Channel :=
  match remaining with
  | O => (Some (Errorf "event publish başarısız (%d deneme): %v" lastErr), c)
  | S remaining =>
      match PublishSagaEvent broker event c with
      | (Some err, c1) =>
          let c2 := if (i <? maxRetries - 1)%Z then Sleep (i + 1) c1 else c1 in
          retry_loop broker event maxRetries remaining (i + 1) (Some err) c2
      | (None, c1) => (None, c1)
      end
  end.

Definition PublishWithRetry (broker : nat -> option error) (event : SagaEvent)
  (maxRetries : Z) (c : Channel) : option error * Channel :=
  retry_loop broker event maxRetries (Z.to_nat maxRetries) 0 None c.

(** ** Consumer *)

(** The values of an [amqp.Table] that [shouldRetry] tells apart. *)
#[warnings="-register-all"]
Inductive HeaderValue :=
| HInt64 (n : Z)
| HList (l : list HeaderValue)
| HTable (t : list (string * HeaderValue))
| HOther.

(** [t[k]] with its [ok]. *)
Fixpoint header (t : list (string * HeaderValue)) (k : string)
  : option HeaderValue :=
  match t with
  | [] => None
  | (k', v) :: rest => if String.eqb k' k then Some v else header rest k
  end.

(** An [amqp.Delivery]; [Body] is [None] when the bytes do not
    unmarshal to an event. *)
Record Delivery := {
  Exchange : string;
  RoutingKey : string;
  ContentType : string;
  DeliveryMode : Z;
  MessageId : string;
  Headers : list (string * HeaderValue);
  Body : option SagaEvent
}.

(** What the consumer asks of the broker. *)
Inductive Action :=
| Ack
| Nack
| SleepSeconds (seconds : Z)
| Publish (msg : Delivery).

Definition shouldRetry (msg : Delivery) : bool :=
  match header (Headers msg) "x-death" with
  | Some (HList (HTable death :: _)) =>
      match header death "count" with
      | Some (HInt64 retryCount) => negb (3 <=? retryCount)%Z
      | _ => true
      end
  | _ => true
  end.

(** The [amqp.Publishing] of [republishWithRetry], as it is
    delivered. *)
Definition republished (msg : Delivery) : Delivery :=
  {| Exchange := Exchange msg;
     RoutingKey := RoutingKey msg;
     ContentType := ContentType msg;
     DeliveryMode := DeliveryMode msg;
     MessageId := "";
     Headers := Headers msg;
     Body := Body msg |}.

(** [publishes] tells whether the publish of the channel succeeds. *)
Definition republishWithRetry (publishes : bool) (msg : Delivery) : list Action :=
  if publishes then [SleepSeconds 2; Publish (republished msg); Ack]
  else [SleepSeconds 2; Nack].

(** [handleMessage]: the actions on the broker, in order, and the
    state of the service after the handler; [None] when the handler
    panics. *)
Definition handleMessage {S : Type} (publishes : bool) (msg : Delivery)
  (handler : SagaEvent -> S -> outcome * S) (s : S)
  : option (list Action * S) :=
  match Body msg with
  | None => Some ([Nack], s)
  | Some event =>
      match handler event s with
      | (Returned (Some err), s') =>
          if shouldRetry msg then Some (republishWithRetry publishes msg, s')
          else Some ([Nack], s')
      | (Returned None, s') => Some ([Ack], s')
      | (Panicked, _) => None
      end
  end.

End Messaging.

(** * Properties of the orchestrator *)

Module OrchestratorProofs.

Import Orchestrator Events Scenario.

(** ** Saga start *)

(** [StartSaga] inserts the saga as [started] with the first step
    done and the context seeded from the order. *)
Lemma StartSaga_creates sagaID now order w :
  sagas w !! sagaID = None ->
  order_has_saga (order_ID order) (sagas w) = false ->
  exists w1,
    CreateSaga (newSaga sagaID now order) w = inr w1 /\
    StartSaga sagaID now order w
    = processNextStep now (newSaga sagaID now order) w1 /\
    (row_status <$> sagas w1 !! sagaID) = Some SagaStatusStarted /\
    (row_current_step <$> sagas w1 !! sagaID) = Some StepOrderCreated /\
    (row_completed_steps <$> sagas w1 !! sagaID) = Some [StepOrderCreated] /\
    (row_context <$> sagas w1 !! sagaID)
    = Some (list_to_map
              [("order", order_value order);
               ("total_amount", VNumber (order_TotalAmount order));
               ("items", items_value (order_Items order));
               ("retry_counts", VObject [])]).
Proof.
  intros Hfree Horder.
  unfold StartSaga, CreateSaga. cbn [ID Orchestrator.OrderID newSaga].
  rewrite Hfree, Horder.
  rewrite bool_decide_eq_false_2 by (intros [? ?]; discriminate).
  cbn [orb]. eexists. split; [reflexivity|].
  split; [reflexivity|].
  cbn [sagas set_sagas]. rewrite lookup_insert_eq. cbn.
  repeat split.
Qed.

(** Once started, the saga is moved to [in_progress] and the
    payment.process command is published. *)
Lemma StartSaga_emits sagaID now order w :
  sagas w !! sagaID = None ->
  order_has_saga (order_ID order) (sagas w) = false ->
  let w' := snd (StartSaga sagaID now order w) in
  fst (StartSaga sagaID now order w) = Returned None /\
  (row_status <$> sagas w' !! sagaID) = Some SagaStatusInProgress /\
  (row_completed_steps <$> sagas w' !! sagaID) = Some [StepOrderCreated] /\
  exists cmd, published w' = (published w ++ [cmd])%list /\
              EventType cmd = "payment.process".
Proof.
  intros Hfree Horder.
  unfold StartSaga, CreateSaga. cbn [ID Orchestrator.OrderID newSaga].
  rewrite Hfree, Horder.
  rewrite bool_decide_eq_false_2 by (intros [? ?]; discriminate).
  cbn [orb]. unfold processNextStep. cbn [GetNextStep CurrentStep].
  unfold UpdateSaga. cbn. rewrite lookup_insert_eq. cbn.
  rewrite lookup_insert_eq. cbn.
  repeat split. eexists. split; reflexivity.
Qed.

(** C1.  An inbound event of type order.created falls to the default
    branch of the event switch: the call returns nil, no saga is
    created and no payment.process command is published. *)
Theorem order_created_is_not_dispatched now sagaID orderID service payload w :
  ProcessIncomingEvent now
    {| SagaID := sagaID; OrderID := orderID; EventType := OrderCreatedEvent;
       Service := service; Payload := payload |} w
  = (Returned None, w).
Proof. reflexivity. Qed.

(** The rows of the scenarios are the rows that the code writes. *)
Example scenario_rows :
  sagas charged = {[100%N := row_charged]} /\
  sagas reserved = {[100%N := row_reserved]} /\
  sagas shipped = {[100%N := row_shipped]} /\
  sagas refunding = {[100%N := row_refunding]}.
Proof. vm_compute. repeat split. Qed.

(** The same on the order of scenario S1, with an empty table. *)
Example order_created_S1 :
  ProcessIncomingEvent 1%N order_created empty_world
  = (Returned None, empty_world).
Proof. reflexivity. Qed.

(** ** Forward failures *)

(** What [HandleStepFailure] does for a saga that exists and still has
    a step to compensate: the reason of the payload and the status
    [compensating] are persisted, and one compensation command is
    published. *)
Lemma HandleStepFailure_compensates now sagaID failedStep eventData w r reason :
  sagas w !! sagaID = Some r ->
  eventData !! "reason" = Some (VString reason) ->
  contains_step (row_completed_steps r) StepOrderCreated = true ->
  let w' := snd (HandleStepFailure now sagaID failedStep eventData w) in
  fst (HandleStepFailure now sagaID failedStep eventData w) = Returned None /\
  (row_status <$> sagas w' !! sagaID) = Some SagaStatusCompensating /\
  (row_failure_reason <$> sagas w' !! sagaID) = Some reason /\
  exists cmd, published w' = (published w ++ [cmd])%list /\
              Payload cmd <> None /\
              (EventType cmd = "shipping.cancel" \/
               EventType cmd = "inventory.release" \/
               EventType cmd = "payment.refund" \/
               EventType cmd = "order.cancel").
Proof.
  intros Hrow Hreason Hfirst.
  unfold HandleStepFailure, GetSagaByID. rewrite Hrow.
  unfold index. rewrite Hreason. cbn [default from_option id as_string].
  unfold startCompensation, GetCompensationStep, IsStepCompleted,
    IsCompensationCompleted.
  cbn [CompletedSteps CompensatedSteps set_UpdatedAt set_Status
       set_FailureReason contains_step negb].
  rewrite Hfirst, !andb_true_r.
  destruct (contains_step _ StepShippingCreated);
    [|destruct (contains_step _ StepInventoryReserved);
      [|destruct (contains_step _ StepPaymentProcessed)]];
    unfold UpdateSaga; cbn; rewrite Hrow; cbn; rewrite lookup_insert_eq; cbn;
    (repeat split; eexists; split; [reflexivity|]; split; [discriminate|]);
    auto.
Qed.

(** C2.  An inbound event of type shipping.failed falls to the default
    branch of the event switch: the call returns nil, the saga keeps
    its status and failure reason, and no compensation command is
    published. *)
Theorem shipping_failed_is_not_dispatched now sagaID orderID service payload w :
  ProcessIncomingEvent now
    {| SagaID := sagaID; OrderID := orderID; EventType := ShippingFailedEvent;
       Service := service; Payload := payload |} w
  = (Returned None, w).
Proof. reflexivity. Qed.

(** Scenario S4.  On the saga that waits for the reply to
    shipping.create, shipping.failed leaves the saga in progress and
    publishes nothing, where a failure reply that is dispatched starts
    the compensation with inventory.release. *)
Example shipping_failed_S4 :
  let w' := snd (ProcessIncomingEvent 5%N shipping_failed reserved) in
  w' = reserved /\
  loaded Status 100%N w' = Some SagaStatusInProgress /\
  loaded FailureReason 100%N w' = Some "" /\
  map EventType (published w')
  = ["payment.process"; "inventory.reserve"; "shipping.create"].
Proof. vm_compute. repeat split. Qed.

Example inventory_failed_S4 :
  let w' := snd (ProcessIncomingEvent 5%N inventory_failed reserved) in
  loaded Status 100%N w' = Some SagaStatusCompensating /\
  loaded FailureReason 100%N w' = Some "Insufficient stock" /\
  map EventType (published w')
  = ["payment.process"; "inventory.reserve"; "shipping.create";
     "inventory.release"].
Proof. vm_compute. repeat split. Qed.

(** ** Compensation *)

(** A saga read from the table has no compensated step. *)
Lemma GetSagaByID_no_compensated_step sagaID w saga :
  GetSagaByID sagaID w = inr saga -> CompensatedSteps saga = [].
Proof.
  unfold GetSagaByID. destruct (sagas w !! sagaID); [|discriminate].
  intros [= <-]. reflexivity.
Qed.

(** C3.  After a compensation success has been handled, the saga read
    back from the table does not report that compensation step as
    done: the step is marked on the struct in memory only. *)
Theorem compensation_step_is_not_persisted now sagaID step w :
  match GetSagaByID sagaID (snd (HandleCompensationSuccess now sagaID step w)) with
  | inr saga => IsCompensationCompleted saga step = false
  | inl _ => True
  end.
Proof.
  destruct (GetSagaByID sagaID _) as [|saga] eqn:Hload; [exact I|].
  unfold IsCompensationCompleted.
  rewrite (GetSagaByID_no_compensated_step _ _ _ Hload). reflexivity.
Qed.

(** Scenario S3.  After payment.refunded the saga is read back
    without the step payment_refunded; it has not reached
    [compensated], and the last command is order.cancel, to which no
    reply is dispatched. *)
Example payment_refunded_S3 :
  let w' := snd (ProcessIncomingEvent 6%N payment_refunded refunding) in
  loaded CompensatedSteps 100%N w' = Some [] /\
  loaded Status 100%N w' = Some SagaStatusCompensating /\
  map EventType (published w')
  = ["payment.process"; "inventory.reserve"; "payment.refund"; "order.cancel"].
Proof. vm_compute. repeat split. Qed.

(** With two steps to compensate the chain goes round: after
    inventory.released the command payment.refund is published, and
    after payment.refunded the command inventory.release again. *)
Example inventory_release_repeats :
  let w1 := snd (ProcessIncomingEvent 6%N inventory_released releasing) in
  let w2 := snd (ProcessIncomingEvent 7%N payment_refunded w1) in
  map EventType (published releasing)
  = ["payment.process"; "inventory.reserve"; "shipping.create";
     "inventory.release"] /\
  map EventType (published w2)
  = ["payment.process"; "inventory.reserve"; "shipping.create";
     "inventory.release"; "payment.refund"; "inventory.release"] /\
  loaded CompensatedSteps 100%N w2 = Some [] /\
  loaded Status 100%N w2 = Some SagaStatusCompensating.
Proof. vm_compute. repeat split. Qed.

(** ** Forward successes *)

Lemma MarkStepCompleted_ID now step saga :
  ID (MarkStepCompleted now step saga) = ID saga.
Proof. unfold MarkStepCompleted. destruct (negb _); reflexivity. Qed.

Lemma MarkStepCompleted_CurrentStep now step saga :
  CurrentStep (MarkStepCompleted now step saga) = step.
Proof. unfold MarkStepCompleted. destruct (negb _); reflexivity. Qed.

(** The step is appended only when it is absent. *)
Lemma MarkStepCompleted_recorded now step saga :
  IsStepCompleted saga step = true ->
  CompletedSteps (MarkStepCompleted now step saga) = CompletedSteps saga.
Proof. unfold MarkStepCompleted. intros ->. reflexivity. Qed.

(** Whatever the saga had reached, a success reply for [step] makes
    [step] the persisted current step. *)
Lemma HandleStepSuccess_sets_current_step now sagaID step eventData w r :
  sagas w !! sagaID = Some r ->
  (row_current_step <$>
     sagas (snd (HandleStepSuccess now sagaID step eventData w)) !! sagaID)
  = Some step.
Proof.
  intros Hrow. unfold HandleStepSuccess, GetSagaByID. rewrite Hrow.
  set (saga := MarkStepCompleted _ _ _).
  assert (HID : ID saga = sagaID) by apply MarkStepCompleted_ID.
  assert (Hcur : CurrentStep saga = step) by apply MarkStepCompleted_CurrentStep.
  clearbody saga. destruct saga as [i ? ? ? c ? ? ? ? ? ? ctx].
  cbn in HID, Hcur. subst i c.
  unfold processNextStep, completeSaga, UpdateSaga, GetNextStep.
  destruct step; cbn; rewrite Hrow; cbn; rewrite lookup_insert_eq; reflexivity.
Qed.

(** C4.  A payment.processed reply for a saga that exists is handled
    in the same way whether or not the step is already recorded: the
    persisted current step becomes payment_processed, the status
    becomes in_progress, and the command inventory.reserve is
    published. *)
Theorem replayed_success_resets_current_step
  now sagaID orderID service eventData w r :
  sagas w !! sagaID = Some r ->
  let event := {| SagaID := sagaID; OrderID := orderID;
                  EventType := PaymentProcessedEvent;
                  Service := service; Payload := Some eventData |} in
  let w' := snd (ProcessIncomingEvent now event w) in
  (row_current_step <$> sagas w' !! sagaID) = Some StepPaymentProcessed /\
  (row_status <$> sagas w' !! sagaID) = Some SagaStatusInProgress /\
  exists cmd, published w' = (published w ++ [cmd])%list /\
              EventType cmd = "inventory.reserve".
Proof.
  intros Hrow event w'. subst event w'.
  change (ProcessIncomingEvent now _ w)
    with (HandleStepSuccess now sagaID StepPaymentProcessed eventData w).
  split; [eapply HandleStepSuccess_sets_current_step; eassumption|].
  unfold HandleStepSuccess, GetSagaByID. rewrite Hrow.
  set (saga := MarkStepCompleted _ _ _).
  assert (HID : ID saga = sagaID) by apply MarkStepCompleted_ID.
  assert (Hcur : CurrentStep saga = StepPaymentProcessed)
    by apply MarkStepCompleted_CurrentStep.
  clearbody saga. destruct saga as [i ? ? ? c ? ? ? ? ? ? ctx].
  cbn in HID, Hcur. subst i c.
  unfold processNextStep, UpdateSaga. cbn. rewrite Hrow. cbn.
  rewrite lookup_insert_eq. cbn.
  split; [reflexivity|]. eexists. split; reflexivity.
Qed.

Lemma replayed_success_witness :
  sagas shipped !! 100%N = Some row_shipped /\
  let w' := snd (ProcessIncomingEvent 8%N payment_processed shipped) in
  (row_current_step <$> sagas w' !! 100%N) = Some StepPaymentProcessed /\
  (row_status <$> sagas w' !! 100%N) = Some SagaStatusInProgress /\
  exists cmd, published w' = (published shipped ++ [cmd])%list /\
              EventType cmd = "inventory.reserve".
Proof.
  split; [vm_compute; reflexivity|].
  apply (replayed_success_resets_current_step 8%N 100%N 7%N "payment-service"
           _ shipped row_shipped).
  vm_compute; reflexivity.
Defined.

(** Scenario S6: the saga has passed shipping_created; the replayed
    payment.processed does not add a second payment_processed to the
    completed steps, and it takes the current step back from
    shipping_created to payment_processed. *)
Example replayed_success_S6 :
  let w' := snd (ProcessIncomingEvent 8%N payment_processed shipped) in
  loaded CurrentStep 100%N shipped = Some StepShippingCreated /\
  loaded CurrentStep 100%N w' = Some StepPaymentProcessed /\
  loaded CompletedSteps 100%N w' = loaded CompletedSteps 100%N shipped /\
  map EventType (published shipped)
  = ["payment.process"; "inventory.reserve"; "shipping.create";
     "notification.send"] /\
  map EventType (published w')
  = ["payment.process"; "inventory.reserve"; "shipping.create";
     "notification.send"; "inventory.reserve"].
Proof. vm_compute. repeat split. Qed.

(** ** The status compensated *)

Lemma contains_step_app l step other :
  contains_step l step = true -> contains_step (l ++ [other]) step = true.
Proof.
  induction l as [|c l IH]; [discriminate|]. cbn [contains_step app].
  destruct (bool_decide (c = step)); [reflexivity|exact IH].
Qed.

(** While order_created is completed and order_cancelled is not
    compensated, a compensation step remains. *)
Lemma GetCompensationStep_remains saga :
  IsStepCompleted saga StepOrderCreated = true ->
  IsCompensationCompleted saga StepOrderCancelled = false ->
  exists step, GetCompensationStep saga = Some step.
Proof.
  intros Hfirst Hlast. unfold GetCompensationStep. rewrite Hfirst, Hlast.
  cbn [andb negb].
  repeat match goal with
         | |- context [if ?b && negb ?c then _ else _] => destruct (b && negb c)
         end; eauto.
Qed.

Lemma startCompensation_open now saga w r :
  sagas w !! ID saga = Some r ->
  IsStepCompleted saga StepOrderCreated = true ->
  IsCompensationCompleted saga StepOrderCancelled = false ->
  Status saga <> SagaStatusCompensated ->
  exists r', sagas (snd (startCompensation now saga w)) !! ID saga = Some r'
             /\ open_row r'.
Proof.
  intros Hrow Hfirst Hlast Hstatus. unfold startCompensation.
  destruct (GetCompensationStep_remains saga Hfirst Hlast) as [step ->].
  unfold UpdateSaga. rewrite Hrow.
  assert (Hsent : forall w1,
            sagas (snd (sendCompensationEvent saga step w1)) = sagas w1).
  { intros w1. unfold sendCompensationEvent. destruct step; reflexivity. }
  rewrite Hsent. cbn [sagas set_sagas]. rewrite lookup_insert_eq.
  eexists. split; [reflexivity|]. split; assumption.
Qed.

Lemma HandleCompensationSuccess_open now sagaID step w r :
  sagas w !! sagaID = Some r -> open_row r -> step <> StepOrderCancelled ->
  exists r', sagas (snd (HandleCompensationSuccess now sagaID step w)) !! sagaID
             = Some r' /\ open_row r'.
Proof.
  intros Hrow [Hfirst Hstatus] Hstep.
  unfold HandleCompensationSuccess, GetSagaByID. rewrite Hrow.
  match goal with
  | |- context [startCompensation now ?saga w] =>
      pose proof (startCompensation_open now saga w r) as Hopen
  end.
  apply Hopen; cbn; try assumption.
  rewrite bool_decide_eq_false_2 by exact Hstep. reflexivity.
Qed.

Lemma HandleStepFailure_open now sagaID failedStep eventData w r :
  sagas w !! sagaID = Some r -> open_row r ->
  exists r', sagas (snd (HandleStepFailure now sagaID failedStep eventData w))
               !! sagaID = Some r' /\ open_row r'.
Proof.
  intros Hrow [Hfirst _].
  unfold HandleStepFailure, GetSagaByID. rewrite Hrow.
  destruct (as_string _);
    (match goal with
     | |- context [startCompensation now ?saga w] =>
         pose proof (startCompensation_open now saga w r) as Hopen
     end;
     apply Hopen; [exact Hrow|exact Hfirst|reflexivity|discriminate]).
Qed.

Lemma HandleStepSuccess_open now sagaID step eventData w r :
  sagas w !! sagaID = Some r -> open_row r ->
  exists r', sagas (snd (HandleStepSuccess now sagaID step eventData w))
               !! sagaID = Some r' /\ open_row r'.
Proof.
  intros Hrow [Hfirst _].
  unfold HandleStepSuccess, GetSagaByID. rewrite Hrow.
  set (saga := set_Context _ _).
  assert (HID : ID saga = sagaID).
  { subst saga. cbn [ID set_Context]. apply MarkStepCompleted_ID. }
  assert (Hsteps : contains_step (CompletedSteps saga) StepOrderCreated = true).
  { subst saga. unfold MarkStepCompleted, IsStepCompleted.
    cbn [CompletedSteps].
    destruct (negb _); cbn; [apply contains_step_app|]; exact Hfirst. }
  clearbody saga. destruct saga as [i ? ? ? c steps ? ? ? ? ? ctx].
  cbn in HID, Hsteps. subst i.
  unfold processNextStep, completeSaga, UpdateSaga, GetNextStep.
  destruct c; cbn; rewrite Hrow; cbn; rewrite lookup_insert_eq;
    (eexists; split; [reflexivity|]; split; [exact Hsteps|discriminate]).
Qed.

(** No inbound event takes a saga whose completed steps hold
    order_created to the status compensated: the compensation of
    order_created is never recorded, and the replies of the other
    compensations are forgotten at the next load. *)
Lemma compensated_is_not_reached now event w r :
  sagas w !! SagaID event = Some r -> open_row r ->
  exists r', sagas (snd (ProcessIncomingEvent now event w)) !! SagaID event
             = Some r' /\ open_row r'.
Proof.
  intros Hrow Hopen. unfold ProcessIncomingEvent, with_payload.
  repeat match goal with
         | |- context [if String.eqb ?a ?b then _ else _] =>
             destruct (String.eqb a b)
         end;
    try (destruct (Payload event); [|cbn; eauto]);
    eauto using HandleStepSuccess_open, HandleStepFailure_open;
    try (eapply HandleCompensationSuccess_open;
         [eassumption|assumption|discriminate]).
Qed.

(** ** Notification failure *)

(** C8.  An inbound event of type notification.failed has no case in
    the event switch and falls to its default branch: the call returns
    nil with the saga table and the published events as they were, so
    the failure is not recorded in the context of the saga, the saga
    does not reach the status completed and no order.completed is
    published. *)
Theorem notification_failed_is_ignored now sagaID orderID service payload w :
  ProcessIncomingEvent now
    {| SagaID := sagaID; OrderID := orderID;
       EventType := NotificationFailedEvent;
       Service := service; Payload := payload |} w
  = (Returned None, w).
Proof. reflexivity. Qed.

(** Scenario S5: after notification.failed the saga that waited for
    the notification reply is still in progress, its context holds no
    trace of the failure, nothing has been published, and so the saga
    is not [completed] with order.completed emitted. *)
Lemma notification_failed_does_not_complete :
  let w' := snd (ProcessIncomingEvent 9%N notification_failed shipped) in
  loaded Status 100%N w' = Some SagaStatusInProgress /\
  loaded Context 100%N w' = Some context_shipped /\
  published w' = published shipped /\
  ~ (loaded Status 100%N w' = Some SagaStatusCompleted /\
     exists e, In e (published w') /\ EventType e = OrderCompletedEvent).
Proof.
  split; [vm_compute; reflexivity|].
  split; [vm_compute; reflexivity|].
  split; [reflexivity|].
  intros [Hstatus _]. vm_compute in Hstatus. discriminate Hstatus.
Qed.

(** The reply notification.sent does complete that saga. *)
Example notification_sent_S1 :
  let w' := snd (ProcessIncomingEvent 9%N notification_sent shipped) in
  loaded Status 100%N w' = Some SagaStatusCompleted /\
  loaded CurrentStep 100%N w' = Some StepNotificationSent /\
  map EventType (published w')
  = ["payment.process"; "inventory.reserve"; "shipping.create";
     "notification.send"; "order.completed"].
Proof. vm_compute. repeat split. Qed.

End OrchestratorProofs.

(** * Properties of the inventory participant *)

Module InventoryProofs.

Import Inventory InventoryScenario.

(** C5.  On a request whose second item cannot be reserved, the
    handler publishes inventory.failed for that product and returns:
    the reservation made for the first item stays, with the product's
    reserved_stock raised and a row in status reserved. *)
Theorem failed_reserve_keeps_earlier_reservations :
  let w' := snd (ReserveInventory 1%N reserve_request stocked) in
  fst (ReserveInventory 1%N reserve_request stocked) = Returned None /\
  published w'
  = [{| Events.SagaID := 50%N; OrderID := 7%N;
        EventType := InventoryFailedEvent; Service := "inventory-service";
        Payload := Some (list_to_map [("order_id", VID 7%N);
                                      ("product_id", VID 2%N);
                                      ("reason", VString "Insufficient stock")]) |}] /\
  reserved_stock 1%N stocked = Some 0%Z /\
  reserved_stock 1%N w' = Some 2%Z /\
  reserved_of 50%N stocked = [] /\
  reserved_of 50%N w' = [NewReservationAggregate 500%N 1%N 7%N 1%N 50%N 2].
Proof. vm_compute. repeat split. Qed.

(** When the first item fails nothing has been written. *)
Lemma failed_first_item_changes_nothing now request item rest w :
  req_Items request = item :: rest ->
  products w !! item_ProductID item = None ->
  products (snd (ReserveInventory now request w)) = products w /\
  reservations (snd (ReserveInventory now request w)) = reservations w.
Proof.
  intros Hitems Hmissing. unfold ReserveInventory. rewrite Hitems.
  cbn [reserve_items]. unfold GetProductByID. rewrite Hmissing.
  split; reflexivity.
Qed.

(** ** Release *)

(** The guard of [Release] compares the reserved stock with the
    quantity; the status of the reservation plays no part. *)
Lemma Release_guard i quantity :
  ReservedStock (Release i quantity)
  = if (quantity <=? ReservedStock i)%Z
    then wrap64 (ReservedStock i - quantity)
    else ReservedStock i.
Proof. unfold Release. destruct (_ <=? _)%Z; reflexivity. Qed.

(** C6.  [ReleaseInventory] releases every reservation of the saga,
    whatever its status.  With eight laptops held, three for saga 50
    and five for saga 51, the first release of saga 50 leaves five and
    no reservation of the saga in status reserved; the second release
    of saga 50 takes three more, so that two remain for the five that
    saga 51 still holds. *)
Theorem second_release_decrements_again :
  let w1 := snd (ReleaseInventory 2%N release_request held) in
  let w2 := snd (ReleaseInventory 3%N release_request w1) in
  reserved_stock 1%N held = Some 8%Z /\
  reserved_of 50%N w1 = [] /\
  reserved_stock 1%N w1 = Some 5%Z /\
  reserved_stock 1%N w2 = Some 2%Z /\
  reserved_stock 1%N w2 <> reserved_stock 1%N w1 /\
  map res_Quantity (reserved_of 51%N w2) = [5%Z].
Proof. vm_compute. repeat split. discriminate. Qed.

(** *** The release loop, row by row *)

Lemma Release_ID i quantity : ID (Release i quantity) = ID i.
Proof. unfold Release. destruct (_ <=? _)%Z; reflexivity. Qed.

(** An iteration adds no product and removes none. *)
Lemma release_one_products now r w :
  dom (products (release_one now r w)) = dom (products w).
Proof.
  unfold release_one, GetProductByID.
  destruct (products w !! res_ProductID r) as [p|] eqn:Hp; [|reflexivity].
  unfold UpdateProduct. rewrite Release_ID. cbn [ID]. rewrite Hp.
  destruct (product_checks _ _); cbn; [|reflexivity].
  apply dom_insert_lookup_L. rewrite Hp. eauto.
Qed.

Lemma UpdateProduct_reservations product w :
  reservations match UpdateProduct product w with
               | inl _ => w
               | inr w1 => w1
               end
  = reservations w.
Proof.
  unfold UpdateProduct. destruct (products w !! _); [|reflexivity].
  destruct (product_checks _ _); reflexivity.
Qed.

(** An iteration rewrites the rows that carry the id of its
    reservation, provided the product of the reservation has a row. *)
Lemma release_one_reservations now r w :
  reservations (release_one now r w)
  = map (fun x => released_row (dom (products w)) now x r) (reservations w).
Proof.
  unfold release_one, GetProductByID, released_row.
  destruct (products w !! res_ProductID r) as [p|] eqn:Hp.
  - rewrite bool_decide_eq_true_2 by (apply elem_of_dom; rewrite Hp; eauto).
    cbn [andb].
    unfold UpdateReservation. cbn [reservations set_reservations].
    rewrite UpdateProduct_reservations. reflexivity.
  - rewrite bool_decide_eq_false_2 by (apply not_elem_of_dom; exact Hp).
    cbn [andb]. symmetry. apply map_id.
Qed.

Lemma release_loop now rs : forall w,
  let w' := fold_left (fun w r => release_one now r w) rs w in
  dom (products w') = dom (products w) /\
  reservations w'
  = map (released_rows (dom (products w)) now rs) (reservations w).
Proof.
  induction rs as [|r rs IH]; intros w; cbn [fold_left].
  - split; [reflexivity|]. symmetry. apply map_id.
  - destruct (IH (release_one now r w)) as [Hdom Hrows].
    cbn zeta in Hdom, Hrows.
    rewrite release_one_products in Hdom, Hrows.
    rewrite release_one_reservations, map_map in Hrows.
    split; [exact Hdom|exact Hrows].
Qed.

Lemma released_row_keeps D now x r :
  res_ID (released_row D now x r) = res_ID x /\
  res_ProductID (released_row D now x r) = res_ProductID x /\
  res_SagaID (released_row D now x r) = res_SagaID x.
Proof. unfold released_row. destruct (_ && _); repeat split. Qed.

Lemma released_rows_keep D now rs : forall x,
  res_ID (released_rows D now rs x) = res_ID x /\
  res_ProductID (released_rows D now rs x) = res_ProductID x /\
  res_SagaID (released_rows D now rs x) = res_SagaID x.
Proof.
  induction rs as [|r rs IH]; intros x; [repeat split|].
  unfold released_rows in *. cbn [fold_left].
  destruct (IH (released_row D now x r)) as (-> & -> & ->).
  apply released_row_keeps.
Qed.

Lemma hit_same_id D rs x y : res_ID x = res_ID y -> hit D rs x = hit D rs y.
Proof. unfold hit. intros ->. reflexivity. Qed.

Lemma hit_map D g rs x :
  (forall r, res_ID (g r) = res_ID r /\ res_ProductID (g r) = res_ProductID r) ->
  hit D (map g rs) x = hit D rs x.
Proof.
  intros Hg. unfold hit. induction rs as [|r rs IH]; [reflexivity|].
  cbn [map existsb]. rewrite IH. destruct (Hg r) as [-> ->]. reflexivity.
Qed.

(** The status of a row after the loop: released when an iteration
    updated the row, and the status it had otherwise. *)
Lemma released_rows_status D now rs : forall x,
  res_Status (released_rows D now rs x)
  = if hit D rs x then InventoryStatusReleased else res_Status x.
Proof.
  induction rs as [|r rs IH]; intros x; [reflexivity|].
  unfold released_rows in *. cbn [fold_left]. rewrite IH.
  rewrite (hit_same_id D rs _ x) by apply released_row_keeps.
  unfold hit at 2. cbn [existsb]. fold (hit D rs x).
  unfold released_row.
  destruct (bool_decide _ && N.eqb _ _), (hit D rs x); reflexivity.
Qed.

Lemma filter_saga_map sagaID (g : ReservationAggregate -> ReservationAggregate) l :
  (forall x, res_SagaID (g x) = res_SagaID x) ->
  filter (fun r => res_SagaID r = sagaID) (map g l)
  = map g (filter (fun r => res_SagaID r = sagaID) l).
Proof.
  intros Hg. induction l as [|x l IH]; [reflexivity|].
  cbn [map]. rewrite !filter_cons, IH, Hg.
  destruct (decide (res_SagaID x = sagaID)); reflexivity.
Qed.

(** The tables after [ReleaseInventory]. *)
Lemma ReleaseInventory_tables now request w :
  let w' := snd (ReleaseInventory now request w) in
  let rs := GetReservationsBySagaID (rel_SagaID request) w in
  dom (products w') = dom (products w) /\
  reservations w' = map (released_rows (dom (products w)) now rs) (reservations w).
Proof.
  unfold ReleaseInventory, release_found, publishInventoryReleasedEvent.
  cbn [snd products reservations PublishSagaEvent]. apply release_loop.
Qed.

(** What a second release does keep: every reservation has the status
    that it had after the first release. *)
Lemma second_release_keeps_statuses now1 now2 request w :
  let w1 := snd (ReleaseInventory now1 request w) in
  let w2 := snd (ReleaseInventory now2 request w1) in
  map res_Status (reservations w2) = map res_Status (reservations w1).
Proof.
  intros w1 w2.
  destruct (ReleaseInventory_tables now1 request w) as [Hdom1 Hrows1].
  destruct (ReleaseInventory_tables now2 request w1) as [_ Hrows2].
  cbn zeta in Hdom1, Hrows1, Hrows2. fold w1 in Hdom1, Hrows1, Hrows2.
  fold w2 in Hrows2. rewrite Hrows2, Hdom1.
  set (D := dom (products w)) in *.
  set (rs := GetReservationsBySagaID (rel_SagaID request) w) in *.
  unfold GetReservationsBySagaID. rewrite Hrows1.
  rewrite filter_saga_map by (intros x; apply released_rows_keep).
  change (filter (fun r => res_SagaID r = rel_SagaID request) (reservations w))
    with rs.
  rewrite !map_map. apply map_ext. intros x.
  rewrite released_rows_status.
  rewrite hit_map by (intros r; split; apply released_rows_keep).
  rewrite (hit_same_id D rs _ x) by apply released_rows_keep.
  rewrite released_rows_status. destruct (hit D rs x); reflexivity.
Qed.

End InventoryProofs.

(** * Properties of the payment participant *)

Module PaymentProofs.

Import PaymentDomain PaymentService PaymentScenario.

(** ** The guards of [RefundPayment] on the amounts of the table *)


(** The full refund of scenario S3 on the aggregate. *)
Example refund_S3 :
  exists p,
    RefundPayment 5%N "RREF_1" 259998 charged = inr p /\
    Status p = PaymentStatusRefunded /\ RefundedAmount p = 259998%Z /\
    RefundPayment 6%N "RREF_2" 1 p
    = inl (Errorf "only completed payments can be refunded, current status: %s"
             None).
Proof. eexists. repeat split. Qed.

(** ** Duplicate payment.process *)

Lemma order_is_paid orderID (l : list PaymentAggregate) :
  (exists r, In r l /\ OrderID r = orderID) ->
  existsb (fun r => N.eqb (OrderID r) orderID) l = true.
Proof.
  intros (r & Hin & Horder). apply existsb_exists. exists r.
  split; [exact Hin|]. apply N.eqb_eq, Horder.
Qed.

(** C7, as the code has it.  A payment.process command for an order
    that already has a payment row creates no second row and leaves
    the existing row as it was; the handler does not reload that row:
    it publishes payment.failed, with the database error of the insert
    as the reason (or the amount error, when the amount is not
    positive), whatever the persisted status. *)
Theorem duplicate_process_is_reported_as_failure gateway now request w :
  (exists r, In r (payments w) /\ OrderID r = proc_OrderID request) ->
  let w' := snd (ProcessPayment gateway now request w) in
  fst (ProcessPayment gateway now request w) = Returned None /\
  payments w' = payments w /\
  published w'
  = (published w ++
     [event (proc_SagaID request) (proc_OrderID request) PaymentFailedEvent
        [("order_id", VID (proc_OrderID request));
         ("reason",
          VString (if (proc_Amount request <=? 0)%Z
                   then "Invalid payment amount"
                   else "Database error: payment create error: pq: insert violates constraint"));
         ("amount", VNumber (proc_Amount request))]])%list.
Proof.
  intros Hpaid. apply order_is_paid in Hpaid.
  unfold ProcessPayment.
  destruct (proc_Amount request <=? 0)%Z; [repeat split|].
  unfold uuid_New, CreatePayment.
  cbn [payments OrderID NewPaymentAggregate].
  rewrite Hpaid, orb_true_r. cbn [orb]. repeat split.
Qed.

Lemma duplicate_process_witness :
  (exists r, In r (payments paid) /\ OrderID r = proc_OrderID process_request) /\
  let w' := snd (ProcessPayment approving 5%N process_request paid) in
  fst (ProcessPayment approving 5%N process_request paid) = Returned None /\
  payments w' = payments paid /\
  published w'
  = (published paid ++
     [event 100%N 7%N PaymentFailedEvent
        [("order_id", VID 7%N);
         ("reason",
          VString "Database error: payment create error: pq: insert violates constraint");
         ("amount", VNumber 259998)]])%list.
Proof.
  assert (Hpaid : exists r, In r (payments paid)
                            /\ OrderID r = proc_OrderID process_request).
  { exists charged. split; [left; reflexivity|reflexivity]. }
  split; [exact Hpaid|].
  exact (duplicate_process_is_reported_as_failure approving 5%N
           process_request paid Hpaid).
Defined.

(** C7 fails for the charged payment of order 7: the duplicate command
    is answered with payment.failed, and payment.processed, the event
    that matches the persisted status completed, is not published. *)
Lemma duplicate_process_not_reemitted :
  let w' := snd (ProcessPayment approving 5%N process_request paid) in
  map Status (payments w') = [PaymentStatusCompleted] /\
  map EventType (published w') = [PaymentFailedEvent] /\
  ~ (exists e, In e (published w') /\ EventType e = PaymentProcessedEvent).
Proof.
  vm_compute. repeat split.
  intros (e & [<-|[]] & Htype). discriminate Htype.
Qed.

(** ** Refund without a payment *)

(** C10.  On a refund request with the nil payment id and the empty
    transaction id, [ProcessRefund] looks up no payment and sets no
    error, and the call of [CanRefund] on the nil aggregate panics:
    no payment.refund.failed is published and no error is returned. *)
Theorem ProcessRefund_panics_without_ids gateway now sagaID amount reason w :
  ProcessRefund gateway now
    {| ref_SagaID := sagaID; ref_PaymentID := uuid_Nil;
       ref_TransactionID := ""; ref_Amount := amount; ref_Reason := reason |} w
  = (Panicked, w).
Proof. reflexivity. Qed.

(** The second branch of the lookup has the same end when the saga has
    no payment. *)
Lemma ProcessRefund_panics_without_payment gateway now request w :
  ref_PaymentID request = uuid_Nil ->
  GetPaymentsBySagaID (ref_SagaID request) w = [] ->
  ProcessRefund gateway now request w = (Panicked, w).
Proof.
  intros Hid Hnone. unfold ProcessRefund, locate_payment.
  rewrite Hid, Hnone. cbn [N.eqb uuid_Nil negb].
  destruct (negb (String.eqb _ _)); reflexivity.
Qed.

(** When the payment id is set and has no row, the handler publishes
    payment.refund.failed. *)
Example ProcessRefund_unknown_payment :
  let request := {| ref_SagaID := 100%N; ref_PaymentID := 42%N;
                    ref_TransactionID := ""; ref_Amount := 259998;
                    ref_Reason := "Insufficient stock" |} in
  fst (ProcessRefund approving 5%N request paid) = Returned None /\
  map EventType (published (snd (ProcessRefund approving 5%N request paid)))
  = ["payment.refund.failed"].
Proof. repeat split. Qed.

(** The compensation of the payment participant looks at the status:
    a second payment.refund for a refunded payment is refused by
    [CanRefund] and changes no row. *)
Example second_refund_is_refused :
  let request := {| ref_SagaID := 100%N; ref_PaymentID := 900%N;
                    ref_TransactionID := "TXN_1"; ref_Amount := 259998;
                    ref_Reason := "Insufficient stock" |} in
  let w1 := snd (ProcessRefund approving 5%N request paid) in
  let w2 := snd (ProcessRefund approving 6%N request w1) in
  map Status (payments w1) = [PaymentStatusRefunded] /\
  map RefundedAmount (payments w1) = [259998%Z] /\
  payments w2 = payments w1 /\
  map EventType (published w2) = ["payment.refunded"; "payment.refund.failed"].
Proof. vm_compute. repeat split. Qed.

(** Scenario S3 across the services.  The orchestrator reads
    payment_id and transaction_id at the top of the payload of
    payment.processed, where the payment service does not put them, so
    the payment.refund command carries null for both, and the payment
    handler panics on it. *)
Example refund_command_S3 :
  EventType s3_refund = "payment.refund" /\
  (Payload s3_refund ≫= (.!! "payment_id")) = Some VNil /\
  (Payload s3_refund ≫= (.!! "transaction_id")) = Some VNil /\
  map Status (payments s3_payments) = [PaymentStatusCompleted] /\
  HandleSagaEvent approving 5%N s3_refund s3_payments = (Panicked, s3_payments).
Proof. vm_compute. repeat split. Qed.

End PaymentProofs.

(** * The refund bounds of the aggregate in float64 *)

Module PaymentFloatProofs.

Import Floats.
Import PaymentDomain(PaymentStatus, PaymentStatusPending,
  PaymentStatusCompleted, PaymentStatusFailed, PaymentStatusRefunded).
Import PaymentFloat.

(** ** Comparisons and sums of binary64 numbers *)

Lemma SFleb_zero x : SFleb (S754_zero false) x = true <-> not_below_zero x.
Proof. destruct x as [s|s| |s m e]; try destruct s; cbn; intuition discriminate. Qed.

Lemma SFltb_zero x : SFltb (S754_zero false) x = true <-> above_zero x.
Proof. destruct x as [s|s| |s m e]; try destruct s; cbn; intuition discriminate. Qed.

Lemma SFleb_zero_false x :
  x <> S754_nan -> SFleb x (S754_zero false) = false -> above_zero x.
Proof.
  destruct x as [s|s| |s m e]; try destruct s; cbn; intros; congruence || exact I.
Qed.

Lemma SFcompare_swap x y :
  SFcompare y x = CompOpp <$> SFcompare x y.
Proof.
  destruct x as [s|s| |s m e], y as [s'|s'| |s' m' e'];
    try destruct s; try destruct s'; try reflexivity; cbn [SFcompare].
  all: cbn [fmap option_fmap option_map]; f_equal.
  all: change (Pos.compare_cont Eq ?a ?b) with (Pos.compare a b).
  all: rewrite (Z.compare_antisym e e'), (Pos.compare_antisym m m').
  all: destruct (e ?= e')%Z; cbn [CompOpp]; try reflexivity.
  all: destruct (m ?= m')%positive; reflexivity.
Qed.

Lemma SFltb_false x y :
  x <> S754_nan -> y <> S754_nan -> SFltb x y = false -> SFleb y x = true.
Proof.
  intros Hx Hy. unfold SFltb, SFleb. rewrite (SFcompare_swap x y).
  destruct (SFcompare x y) as [[]|] eqn:Hc; cbn; try congruence.
  exfalso. destruct x as [s|s| |s m e], y as [s'|s'| |s' m' e'];
    try congruence; cbn in Hc; discriminate Hc.
Qed.

Lemma SFleb_not_nan x y :
  SFleb x y = true -> x <> S754_nan /\ y <> S754_nan.
Proof.
  destruct x as [s|s| |s m e], y as [s'|s'| |s' m' e']; cbn;
    intros H; split; congruence.
Qed.

Lemma above_zero_not_nan x : above_zero x -> x <> S754_nan.
Proof. destruct x; cbn; congruence || tauto. Qed.

Lemma above_zero_not_below_zero x : above_zero x -> not_below_zero x.
Proof. destruct x as [s|s| |s m e]; try destruct s; cbn; tauto. Qed.

(** Shifting a mantissa to the right by fewer bits than it has. *)
Lemma iter_shr_1 p : forall mrs m,
  shr_m mrs = Zpos m ->
  (Zpos p < Zpos (digits2_pos m))%Z ->
  exists m', shr_m (iter_pos shr_1 p mrs) = Zpos m' /\
             Zpos (digits2_pos m') = (Zpos (digits2_pos m) - Zpos p)%Z.
Proof.
  assert (Hone : forall mrs m,
            shr_m mrs = Zpos m -> (1 < Zpos (digits2_pos m))%Z ->
            exists m', shr_m (shr_1 mrs) = Zpos m' /\
                       Zpos (digits2_pos m') = (Zpos (digits2_pos m) - 1)%Z).
  { intros [m0 r s] m Hm Hd. cbn in Hm. subst m0.
    destruct m as [q|q|]; cbn [shr_1 shr_m digits2_pos] in *;
      [exists q|exists q|lia]; split; try reflexivity; lia. }
  induction p as [p IH|p IH|]; intros mrs m Hm Hd; cbn [iter_pos].
  - destruct (Hone mrs m Hm) as (m1 & Hm1 & Hd1); [lia|].
    destruct (IH _ m1 Hm1) as (m2 & Hm2 & Hd2); [lia|].
    destruct (IH _ m2 Hm2) as (m3 & Hm3 & Hd3); [lia|].
    exists m3. split; [exact Hm3|lia].
  - destruct (IH _ m Hm) as (m2 & Hm2 & Hd2); [lia|].
    destruct (IH _ m2 Hm2) as (m3 & Hm3 & Hd3); [lia|].
    exists m3. split; [exact Hm3|lia].
  - apply Hone; assumption.
Qed.

Lemma shr_fexp_positive m e l :
  (emin <= e)%Z ->
  exists m', shr_m (fst (shr_fexp prec emax (Zpos m) e l)) = Zpos m' /\
             (emin <= snd (shr_fexp prec emax (Zpos m) e l))%Z.
Proof.
  intros He. unfold shr_fexp, shr, fexp. cbn [Zdigits2].
  set (n := (Z.max (Zpos (digits2_pos m) + e - prec) emin - e)%Z).
  assert (Hn : (n < Zpos (digits2_pos m))%Z).
  { subst n. pose proof (Pos2Z.is_pos (digits2_pos m)).
    unfold SpecFloat.emin, prec, emax in *. lia. }
  assert (Hrecord : shr_m (shr_record_of_loc (Zpos m) l) = Zpos m)
    by (destruct l as [|[]]; reflexivity).
  destruct n as [|p|p] eqn:Hp; cbn [fst snd].
  - exists m. split; [exact Hrecord|exact He].
  - destruct (iter_shr_1 p _ m Hrecord Hn) as (m' & Hm' & _).
    exists m'. split; [exact Hm'|lia].
  - exists m. split; [exact Hrecord|exact He].
Qed.

Lemma binary_round_aux_positive m e l :
  (emin <= e)%Z -> above_zero (binary_round_aux prec emax false (Zpos m) e l).
Proof.
  intros He. unfold binary_round_aux.
  destruct (shr_fexp_positive m e l He) as (m1 & Hm1 & He1).
  destruct (shr_fexp prec emax (Zpos m) e l) as [mrs1 e1]. cbn [fst snd] in *.
  rewrite Hm1.
  assert (Hround : exists m2,
            round_nearest_even (Zpos m1) (loc_of_shr_record mrs1) = Zpos m2).
  { unfold round_nearest_even.
    destruct (loc_of_shr_record mrs1) as [|[]]; try destruct (Z.even _);
      cbn; eexists; reflexivity. }
  destruct Hround as (m2 & ->).
  destruct (shr_fexp_positive m2 e1 loc_Exact He1) as (m3 & Hm3 & _).
  destruct (shr_fexp prec emax (Zpos m2) e1 loc_Exact) as [mrs3 e3].
  cbn [fst] in Hm3. rewrite Hm3.
  destruct (e3 <=? emax - prec)%Z; exact I.
Qed.

Lemma binary_round_positive m e :
  (emin <= e)%Z -> above_zero (binary_round prec emax false m e).
Proof.
  intros He. unfold binary_round, shl_align.
  set (e' := fexp prec emax (Zpos (digits2_pos m) + e)).
  assert (He' : (emin <= e')%Z) by (subst e'; unfold fexp; lia).
  destruct (e' - e)%Z; apply binary_round_aux_positive; assumption.
Qed.

Lemma valid_exponent s m e :
  valid_binary (S754_finite s m e) = true -> (emin <= e)%Z.
Proof.
  cbn. unfold bounded, canonical_mantissa, fexp.
  intros H. apply andb_true_iff in H as [H _]. apply Z.eqb_eq in H. lia.
Qed.

Lemma SFadd_above_zero x y :
  valid_binary x = true -> valid_binary y = true ->
  not_below_zero x -> above_zero y -> above_zero (SF64add x y).
Proof.
  intros Hvx Hvy Hx Hy.
  destruct x as [s|s| |s m e], y as [s'|s'| |s' m' e'];
    try destruct s; try destruct s'; cbn in Hx, Hy; try contradiction;
    try exact I.
  apply valid_exponent in Hvx, Hvy.
  unfold SF64add, SFadd, cond_Zopp, binary_normalize. cbn [Z.add].
  apply binary_round_positive. lia.
Qed.

(** The same on the numbers of the kernel. *)

Lemma zero_spec : Prim2SF 0%float = S754_zero false.
Proof. reflexivity. Qed.

Lemma is_nan_spec f : is_nan f = false <-> Prim2SF f <> S754_nan.
Proof.
  unfold is_nan. rewrite eqb_spec. unfold SFeqb.
  destruct (Prim2SF f) as [s|s| |s m e]; try destruct s; cbn.
  all: rewrite ?Z.compare_refl, ?Pos.compare_cont_refl; cbn.
  all: split; congruence.
Qed.

Lemma leb_not_nan a b :
  (a <=? b)%float = true -> is_nan a = false /\ is_nan b = false.
Proof.
  rewrite leb_spec, !is_nan_spec. apply SFleb_not_nan.
Qed.

Lemma not_leb_zero a :
  is_nan a = false -> (a <=? 0)%float = false -> (0 <? a)%float = true.
Proof.
  rewrite is_nan_spec, leb_spec, ltb_spec, zero_spec, SFltb_zero.
  apply SFleb_zero_false.
Qed.

Lemma not_ltb a b :
  is_nan a = false -> is_nan b = false ->
  (a <? b)%float = false -> (b <=? a)%float = true.
Proof. rewrite !is_nan_spec, ltb_spec, leb_spec. apply SFltb_false. Qed.

Lemma add_positive r a :
  (0 <=? r)%float = true -> (0 <? a)%float = true ->
  (0 <? r + a)%float = true.
Proof.
  rewrite leb_spec, !ltb_spec, add_spec, zero_spec, SFleb_zero, !SFltb_zero.
  apply SFadd_above_zero; apply Prim2SF_valid.
Qed.

Lemma ltb_leb a b : (a <? b)%float = true -> (a <=? b)%float = true.
Proof.
  rewrite ltb_spec, leb_spec. unfold SFltb, SFleb.
  destruct (SFcompare _ _) as [[]|]; congruence.
Qed.

Lemma ltb_not_nan a b :
  (a <? b)%float = true -> is_nan a = false /\ is_nan b = false.
Proof. intros H. apply leb_not_nan, ltb_leb, H. Qed.

(** ** The guards of [RefundPayment] *)

(** A new payment with an amount that is at least zero is within the
    bounds. *)
Lemma NewPaymentAggregate_bounds id now orderID customerID sagaID amount method :
  (0 <=? amount)%float = true ->
  refund_invariant
    (NewPaymentAggregate id now orderID customerID sagaID amount method).
Proof.
  intros Hamount. split; [reflexivity|]. split; [exact Hamount|discriminate].
Qed.

(** When [RefundPayment] accepts, and what it returns. *)
Lemma RefundPayment_guards now refundRef amount p p' :
  RefundPayment now refundRef amount p = inr p' ->
  Status p = PaymentStatusCompleted /\
  (amount <=? 0)%float = false /\
  (Amount p <? amount)%float = false /\
  (Amount p <? RefundedAmount p + amount)%float = false /\
  Status p' = PaymentStatusRefunded /\
  Amount p' = Amount p /\
  RefundedAmount p' = (RefundedAmount p + amount)%float.
Proof.
  unfold RefundPayment.
  destruct (bool_decide (Status p = PaymentStatusCompleted)) eqn:Hstatus;
    [|discriminate].
  apply bool_decide_eq_true_1 in Hstatus. cbn [negb].
  destruct (amount <=? 0)%float eqn:Hpos; [discriminate|].
  destruct (Amount p <? amount)%float eqn:Hmax; [discriminate|]. cbn [orb].
  destruct (Amount p <? RefundedAmount p + amount)%float eqn:Hsum;
    [discriminate|].
  intros [= <-]. cbn. repeat split; assumption.
Qed.

(** What the guards mean for a refund amount that is a number. *)
Lemma RefundPayment_numeric now refundRef amount p p' :
  refund_invariant p ->
  is_nan amount = false ->
  RefundPayment now refundRef amount p = inr p' ->
  (0 <? amount)%float = true /\
  (amount <=? Amount p)%float = true /\
  (RefundedAmount p + amount <=? Amount p)%float = true /\
  refund_invariant p'.
Proof.
  intros (Hlow & Hhigh & _) Hnumber Haccepted.
  apply RefundPayment_guards in Haccepted
    as (_ & Hpos & Hmax & Hsum & _ & HA & HR).
  apply leb_not_nan in Hhigh as [_ HnumA].
  pose proof (not_leb_zero _ Hnumber Hpos) as Hamount.
  pose proof (add_positive _ _ Hlow Hamount) as Hnew.
  pose proof (ltb_not_nan _ _ Hnew) as [_ Hnumsum].
  pose proof (not_ltb _ _ HnumA Hnumsum Hsum) as Hbound.
  split; [exact Hamount|]. split; [apply not_ltb; assumption|].
  split; [exact Hbound|].
  unfold refund_invariant. rewrite HA, HR.
  split; [apply ltb_leb, Hnew|]. split; [exact Hbound|]. intros _. exact Hnew.
Qed.

Lemma apply_keeps_bounds op p :
  numeric op -> refund_invariant p -> refund_invariant (apply op p).
Proof.
  intros Hop Hinv. destruct op as [now t r|now r a|now r]; cbn [apply].
  - destruct Hinv as (Hlow & Hhigh & _).
    split; [exact Hlow|]. split; [exact Hhigh|]. discriminate.
  - destruct (RefundPayment now r a p) as [err|p'] eqn:Hrefund; [exact Hinv|].
    apply (RefundPayment_numeric now r a p p' Hinv Hop Hrefund).
  - destruct Hinv as (Hlow & Hhigh & _).
    split; [exact Hlow|]. split; [exact Hhigh|]. discriminate.
Qed.

Lemma run_keeps_bounds ops : forall p,
  Forall numeric ops -> refund_invariant p -> refund_invariant (run ops p).
Proof.
  unfold run. induction ops as [|op ops IH]; intros p Hops Hinv; [exact Hinv|].
  apply Forall_cons in Hops as [Hop Hops].
  cbn [fold_left]. apply IH; [exact Hops|]. apply apply_keeps_bounds; assumption.
Qed.

(** C9, as the code has it.  The amounts of the aggregate are
    [float64].  A refund is accepted only from the status completed
    and only when none of the comparisons [amount <= 0],
    [amount > Amount] and [RefundedAmount + amount > Amount] holds,
    the sum being the rounded sum; for an amount that is a number this
    says that the amount is positive, at most the amount of the
    payment, and that the refunded amount with it stays within the
    amount of the payment.  Every sequence of operations whose refund
    amounts are numbers preserves the refund bounds: the refunded
    amount stays between zero and the amount, and it is positive when
    the status is refunded. *)
Theorem refund_bounds_preserved p0 ops :
  refund_invariant p0 ->
  Forall numeric ops ->
  let p := run ops p0 in
  refund_invariant p /\
  forall now refundRef refund p',
    RefundPayment now refundRef refund p = inr p' ->
    Status p = PaymentStatusCompleted /\
    (refund <=? 0)%float = false /\
    (Amount p <? refund)%float = false /\
    (Amount p <? RefundedAmount p + refund)%float = false /\
    (is_nan refund = false ->
     (0 <? refund)%float = true /\
     (refund <=? Amount p)%float = true /\
     (RefundedAmount p + refund <=? Amount p)%float = true /\
     refund_invariant p').
Proof.
  intros Hinit Hops p.
  assert (Hinv : refund_invariant p) by (apply run_keeps_bounds; assumption).
  split; [exact Hinv|].
  intros now refundRef refund p' Haccepted.
  pose proof (RefundPayment_guards _ _ _ _ _ Haccepted)
    as (Hstatus & Hpos & Hmax & Hsum & _).
  split; [exact Hstatus|]. split; [exact Hpos|]. split; [exact Hmax|].
  split; [exact Hsum|]. intros Hnumber.
  apply (RefundPayment_numeric now refundRef refund p p' Hinv Hnumber Haccepted).
Qed.

Lemma refund_bounds_witness :
  let p0 := NewPaymentAggregate 900%N 2%N 7%N 3%N 100%N 2599.98%float
              "credit_card" in
  let ops := [OpProcessPayment 2%N "TXN_1" "REF_1";
              OpRefundPayment 3%N "RREF_1" 1000%float] in
  refund_invariant p0 /\
  Forall numeric ops /\
  refund_invariant (run ops p0) /\
  Status (run ops p0) = PaymentStatusRefunded /\
  RefundedAmount (run ops p0) = 1000%float.
Proof.
  intros p0 ops.
  assert (Hinit : refund_invariant p0)
    by (split; [reflexivity|]; split; [reflexivity|]; discriminate).
  assert (Hops : Forall numeric ops)
    by (repeat constructor).
  split; [exact Hinit|]. split; [exact Hops|].
  split; [exact (proj1 (refund_bounds_preserved p0 ops Hinit Hops))|].
  split; reflexivity.
Defined.

(** C9 fails in [float64].  On the payment of 0.03 with 0.01
    refunded, a refund of 0.02 is accepted, since 0.01 + 0.02 is not
    above 0.03, although the remaining refundable amount 0.03 - 0.01
    is below 0.02.  And a refund whose amount is NaN passes every
    guard of a completed payment, after which the refunded amount is
    neither at least zero nor at most the amount, in the status
    refunded. *)
Lemma refund_exceeds_the_remaining_amount :
  (Status part_refunded = PaymentStatusCompleted /\
   Amount part_refunded = 0.03%float /\
   RefundedAmount part_refunded = 0.01%float) /\
  (exists p', RefundPayment 5%N "RREF_2" 0.02%float part_refunded = inr p' /\
              Status p' = PaymentStatusRefunded) /\
  (GetRemainingRefundAmount part_refunded <? 0.02)%float = true /\
  ~ ((0 <? 0.02)%float = true /\
     (0.02 <=? GetRemainingRefundAmount part_refunded)%float = true) /\
  let q := run [OpProcessPayment 2%N "TXN_1" "REF_1";
                OpRefundPayment 3%N "RREF_1" nan]
             (NewPaymentAggregate 900%N 1%N 7%N 3%N 100%N 0.03%float
                "credit_card") in
  Status q = PaymentStatusRefunded /\
  (0 <=? RefundedAmount q)%float = false /\
  (RefundedAmount q <=? Amount q)%float = false /\
  (0 <? RefundedAmount q)%float = false /\
  ~ refund_invariant q.
Proof.
  split; [repeat split|]. split; [eexists; split; reflexivity|].
  split; [reflexivity|]. split; [intros [_ H]; discriminate H|].
  intros q. split; [reflexivity|]. split; [reflexivity|].
  split; [reflexivity|]. split; [reflexivity|].
  intros [H _]. discriminate H.
Qed.

(** [RefundPayment] does not ask [CanRefund].  A completed payment
    of 100 with 100 refunded cannot be refunded and has nothing left
    to refund, yet a refund of 1e-20 is accepted: the sum rounds to
    100, which is not above the amount. *)
Example refund_of_a_fully_refunded_payment :
  let p := run [OpProcessPayment 2%N "TXN_1" "REF_1";
                OpRefundPayment 3%N "RREF_1" 100%float;
                OpProcessPayment 4%N "TXN_2" "REF_2"]
             (NewPaymentAggregate 900%N 1%N 7%N 3%N 100%N 100%float
                "credit_card") in
  CanRefund p = false /\
  IsFullyRefunded p = true /\
  GetRemainingRefundAmount p = 0%float /\
  exists p', RefundPayment 5%N "RREF_2" 1e-20%float p = inr p' /\
             RefundedAmount p' = 100%float.
Proof. repeat split. eexists. split; reflexivity. Qed.

End PaymentFloatProofs.

(** * Further properties of the orchestrator *)

Module OrchestratorExtra.

Import Orchestrator Events Observations OrchestratorViews.

(** ** Forward chain *)

Lemma sendStepEvent_following saga step w :
  is_last step = false ->
  exists cmd,
    sendStepEvent saga
      match step with
      | StepOrderCreated => StepPaymentProcessed
      | StepPaymentProcessed => StepInventoryReserved
      | StepInventoryReserved => StepShippingCreated
      | _ => StepNotificationSent
      end w
    = (Returned None, PublishSagaEvent cmd w) /\
    SagaID cmd = ID saga /\
    Events.OrderID cmd = Orchestrator.OrderID saga /\
    EventType cmd = following_command step /\
    Service cmd = "saga-orchestrator".
Proof.
  intros Hlast. destruct step; try discriminate Hlast;
    (eexists; split; [reflexivity|repeat split]).
Qed.



Lemma UpdateSaga_existing saga w r :
  sagas w !! ID saga = Some r ->
  UpdateSaga saga w
  = inr (set_sagas
           (<[ID saga :=
               {| row_order_id := row_order_id r;
                  row_customer_id := row_customer_id r;
                  row_status := Status saga;
                  row_current_step := CurrentStep saga;
                  row_completed_steps := CompletedSteps saga;
                  row_failure_reason := FailureReason saga;
                  row_context := Context saga;
                  row_created_at := row_created_at r;
                  row_updated_at := UpdatedAt saga;
                  row_completed_at := CompletedAt saga |}]> (sagas w)) w).
Proof. intros Hrow. unfold UpdateSaga. rewrite Hrow. reflexivity. Qed.

Lemma MarkStepCompleted_keeps_ID now step saga :
  ID (MarkStepCompleted now step saga) = ID saga.
Proof. unfold MarkStepCompleted. destruct (negb _); reflexivity. Qed.

Lemma HandleStepSuccess_existing now sagaID step eventData w r :
  sagas w !! sagaID = Some r ->
  exists cmd,
    HandleStepSuccess now sagaID step eventData w
    = (Returned None,
       {| sagas := <[sagaID := advanced_row now step eventData r]> (sagas w);
          published := (published w ++ [cmd])%list |}) /\
    SagaID cmd = sagaID /\
    Events.OrderID cmd = row_order_id r /\
    EventType cmd = following_command step /\
    Service cmd = "saga-orchestrator".
Proof.
  intros Hrow. unfold HandleStepSuccess, GetSagaByID. rewrite Hrow.
  unfold processNextStep, completeSaga.
  repeat match goal with
         | |- context [UpdateSaga ?s w] =>
             rewrite (UpdateSaga_existing s w r)
               by (cbn [ID set_Context set_UpdatedAt set_Status set_CompletedAt];
                   rewrite MarkStepCompleted_keeps_ID; exact Hrow)
         end.
  unfold MarkStepCompleted, IsStepCompleted, advanced_row.
  destruct (contains_step _ _); destruct step;
    (eexists; split; [reflexivity|repeat split]).
Qed.







(** ** Footprint of an event *)

Lemma UpdateSaga_footprint saga w w1 :
  UpdateSaga saga w = inr w1 ->
  published w1 = published w /\
  exists r r',
    sagas w !! ID saga = Some r /\
    sagas w1 = <[ID saga := r']> (sagas w) /\
    row_order_id r' = row_order_id r /\
    row_customer_id r' = row_customer_id r /\
    row_created_at r' = row_created_at r.
Proof.
  unfold UpdateSaga. destruct (sagas w !! ID saga) as [r|] eqn:Hrow;
    [|discriminate].
  intros [= <-]. split; [reflexivity|].
  eexists _, _. split; [reflexivity|]. split; [reflexivity|]. repeat split.
Qed.

Lemma sendStepEvent_footprint saga step w :
  let w' := snd (sendStepEvent saga step w) in
  sagas w' = sagas w /\ publishes_at_most_one w w'.
Proof.
  destruct step; (split; [reflexivity|]);
    solve [left; reflexivity
          |right; eexists; split; [reflexivity|reflexivity]].
Qed.

Lemma sendCompensationEvent_footprint saga step w :
  let w' := snd (sendCompensationEvent saga step w) in
  sagas w' = sagas w /\ publishes_at_most_one w w'.
Proof.
  destruct step; (split; [reflexivity|]);
    solve [left; reflexivity
          |right; eexists; split; [reflexivity|reflexivity]].
Qed.

Lemma footprint_after_update saga w w1 w' :
  UpdateSaga saga w = inr w1 ->
  sagas w' = sagas w1 -> publishes_at_most_one w1 w' ->
  rewrites_row (ID saga) w w' /\ publishes_at_most_one w w'.
Proof.
  intros Hupdate Hsagas Hpublished.
  apply UpdateSaga_footprint in Hupdate as (Hsame & r & r' & Hrow & Hnew & Hkeep).
  split.
  - right. exists r, r'. rewrite Hsagas. auto.
  - unfold publishes_at_most_one in *. rewrite <- Hsame. exact Hpublished.
Qed.

Lemma unchanged_footprint sagaID w :
  rewrites_row sagaID w w /\ publishes_at_most_one w w.
Proof. split; left; reflexivity. Qed.

Lemma completeSaga_footprint now saga w :
  let w' := snd (completeSaga now saga w) in
  rewrites_row (ID saga) w w' /\ publishes_at_most_one w w'.
Proof.
  unfold completeSaga.
  match goal with |- context [UpdateSaga ?s w] =>
    destruct (UpdateSaga s w) as [err|w1] eqn:Hupdate
  end; [apply unchanged_footprint|].
  eapply (footprint_after_update _ _ _ _ Hupdate); [reflexivity|].
  right. eexists. split; reflexivity.
Qed.

Lemma compensationCompleted_footprint now saga w :
  let w' := snd (compensationCompleted now saga w) in
  rewrites_row (ID saga) w w' /\ publishes_at_most_one w w'.
Proof.
  unfold compensationCompleted.
  match goal with |- context [UpdateSaga ?s w] =>
    destruct (UpdateSaga s w) as [err|w1] eqn:Hupdate
  end; [apply unchanged_footprint|].
  eapply (footprint_after_update _ _ _ _ Hupdate); [reflexivity|].
  right. eexists. split; reflexivity.
Qed.

Lemma processNextStep_footprint now saga w :
  let w' := snd (processNextStep now saga w) in
  rewrites_row (ID saga) w w' /\ publishes_at_most_one w w'.
Proof.
  unfold processNextStep.
  destruct (GetNextStep saga) as [next|]; [|apply completeSaga_footprint].
  match goal with |- context [UpdateSaga ?s w] =>
    destruct (UpdateSaga s w) as [err|w1] eqn:Hupdate
  end; [apply unchanged_footprint|].
  eapply (footprint_after_update _ _ _ _ Hupdate);
    apply sendStepEvent_footprint.
Qed.

Lemma startCompensation_footprint now saga w :
  let w' := snd (startCompensation now saga w) in
  rewrites_row (ID saga) w w' /\ publishes_at_most_one w w'.
Proof.
  unfold startCompensation.
  destruct (GetCompensationStep saga) as [step|];
    [|apply compensationCompleted_footprint].
  destruct (UpdateSaga saga w) as [err|w1] eqn:Hupdate;
    [apply unchanged_footprint|].
  eapply (footprint_after_update _ _ _ _ Hupdate);
    apply sendCompensationEvent_footprint.
Qed.

Lemma HandleStepSuccess_footprint now sagaID step eventData w :
  let w' := snd (HandleStepSuccess now sagaID step eventData w) in
  rewrites_row sagaID w w' /\ publishes_at_most_one w w'.
Proof.
  unfold HandleStepSuccess, GetSagaByID.
  destruct (sagas w !! sagaID) as [r|]; [|apply unchanged_footprint].
  match goal with |- context [processNextStep now ?s w] =>
    pose proof (processNextStep_footprint now s w) as Hfoot;
    replace (ID s) with sagaID in Hfoot
      by (symmetry; apply MarkStepCompleted_keeps_ID)
  end.
  exact Hfoot.
Qed.

Lemma HandleStepFailure_footprint now sagaID step eventData w :
  let w' := snd (HandleStepFailure now sagaID step eventData w) in
  rewrites_row sagaID w w' /\ publishes_at_most_one w w'.
Proof.
  unfold HandleStepFailure, GetSagaByID.
  destruct (sagas w !! sagaID) as [r|]; [|apply unchanged_footprint].
  destruct (as_string _);
    match goal with |- context [startCompensation now ?s w] =>
      exact (startCompensation_footprint now s w)
    end.
Qed.

Lemma HandleCompensationSuccess_footprint now sagaID step w :
  let w' := snd (HandleCompensationSuccess now sagaID step w) in
  rewrites_row sagaID w w' /\ publishes_at_most_one w w'.
Proof.
  unfold HandleCompensationSuccess, GetSagaByID.
  destruct (sagas w !! sagaID) as [r|]; [|apply unchanged_footprint].
  match goal with |- context [startCompensation now ?s w] =>
    exact (startCompensation_footprint now s w)
  end.
Qed.

Lemma ProcessIncomingEvent_footprint now event w :
  let w' := snd (ProcessIncomingEvent now event w) in
  rewrites_row (SagaID event) w w' /\ publishes_at_most_one w w'.
Proof.
  unfold ProcessIncomingEvent, with_payload.
  repeat match goal with
         | |- context [if String.eqb ?a ?b then _ else _] =>
             destruct (String.eqb a b)
         end;
    try (destruct (Payload event); [|apply unchanged_footprint]);
    auto using HandleStepSuccess_footprint, HandleStepFailure_footprint,
      HandleCompensationSuccess_footprint, unchanged_footprint.
Qed.

(** X3.  Whatever the event, the orchestrator touches at most the row of
    the saga that the event names: the rows of all other sagas stay as
    they are, no row is added or removed, the order, the customer and
    the creation time of the rewritten row are kept, and at most one
    event is published. *)
Theorem event_touches_one_saga now event w :
  let w' := snd (ProcessIncomingEvent now event w) in
  (forall other, other <> SagaID event -> sagas w' !! other = sagas w !! other) /\
  dom (sagas w') = dom (sagas w) /\
  (forall r', sagas w' !! SagaID event = Some r' ->
     exists r, sagas w !! SagaID event = Some r /\
               row_order_id r' = row_order_id r /\
               row_customer_id r' = row_customer_id r /\
               row_created_at r' = row_created_at r) /\
  exists l, published w' = (published w ++ l)%list /\ length l <= 1.
Proof.
  destruct (ProcessIncomingEvent_footprint now event w) as [Hrows Hpublished].
  cbn zeta in *. set (w' := snd _) in *. clearbody w'.
  split; [|split; [|split]].
  - intros other Hother.
    destruct Hrows as [->|(r & r' & _ & -> & _)]; [reflexivity|].
    apply lookup_insert_ne. congruence.
  - destruct Hrows as [->|(r & r' & Hrow & -> & _)]; [reflexivity|].
    apply dom_insert_lookup_L. rewrite Hrow. eauto.
  - intros r1 Hr1.
    destruct Hrows as [Hsame|(r & r' & Hrow & Hnew & Hkeep)].
    + rewrite Hsame in Hr1. exists r1. auto.
    + rewrite Hnew, lookup_insert_eq in Hr1. injection Hr1 as <-.
      exists r. auto.
  - destruct Hpublished as [->|(e & -> & _)].
    + exists []. rewrite app_nil_r. split; [reflexivity|cbn; lia].
    + exists [e]. split; [reflexivity|cbn; lia].
Qed.

(** ** One saga per order *)

Lemma order_has_saga_spec orderID (m : gmap N SagaRow) :
  order_has_saga orderID m = true
  <-> exists i r, m !! i = Some r /\ row_order_id r = orderID.
Proof.
  unfold order_has_saga. rewrite existsb_exists. split.
  - intros ([i r] & Hin & Heq). exists i, r.
    apply list_elem_of_In, elem_of_map_to_list in Hin.
    split; [exact Hin|]. apply N.eqb_eq, Heq.
  - intros (i & r & Hrow & Heq). exists (i, r). split.
    + apply list_elem_of_In, elem_of_map_to_list, Hrow.
    + apply N.eqb_eq, Heq.
Qed.

Lemma unique_orders_rewrite (m : gmap N SagaRow) i r r' :
  unique_orders m -> m !! i = Some r -> row_order_id r' = row_order_id r ->
  unique_orders (<[i := r']> m).
Proof.
  intros Huniq Hrow Hsame a b ra rb Ha Hb Heq.
  destruct (decide (a = i)) as [->|Hai], (decide (b = i)) as [->|Hbi];
    [reflexivity| | |].
  - rewrite lookup_insert_eq in Ha. rewrite lookup_insert_ne in Hb by congruence.
    injection Ha as <-. eapply Huniq; [exact Hrow|exact Hb|congruence].
  - rewrite lookup_insert_eq in Hb. rewrite lookup_insert_ne in Ha by congruence.
    injection Hb as <-. eapply Huniq; [exact Ha|exact Hrow|congruence].
  - rewrite lookup_insert_ne in Ha, Hb by congruence.
    eapply Huniq; eassumption.
Qed.

Lemma unique_orders_footprint sagaID w w' :
  rewrites_row sagaID w w' -> unique_orders (sagas w) -> unique_orders (sagas w').
Proof.
  intros [->|(r & r' & Hrow & -> & Hsame & _)] Huniq; [exact Huniq|].
  eapply unique_orders_rewrite; eassumption.
Qed.

Lemma unique_orders_insert (m : gmap N SagaRow) i r :
  unique_orders m -> m !! i = None ->
  order_has_saga (row_order_id r) m = false ->
  unique_orders (<[i := r]> m).
Proof.
  intros Huniq Hfree Hnone a b ra rb Ha Hb Heq.
  assert (Hother : forall j rj, m !! j = Some rj ->
                                row_order_id rj <> row_order_id r).
  { intros j rj Hj Hsame.
    assert (order_has_saga (row_order_id r) m = true) as Htrue
      by (apply order_has_saga_spec; eauto).
    congruence. }
  destruct (decide (a = i)) as [->|Hai], (decide (b = i)) as [->|Hbi];
    [reflexivity| | |].
  - rewrite lookup_insert_eq in Ha. rewrite lookup_insert_ne in Hb by congruence.
    injection Ha as <-. exfalso. eapply Hother; [exact Hb|congruence].
  - rewrite lookup_insert_eq in Hb. rewrite lookup_insert_ne in Ha by congruence.
    injection Hb as <-. exfalso. eapply Hother; [exact Ha|congruence].
  - rewrite lookup_insert_ne in Ha, Hb by congruence.
    eapply Huniq; eassumption.
Qed.

(** X4.  At most one saga per order.  [StartSaga] for an order that has a
    saga returns the error of the insert, writes nothing and publishes
    nothing; and a table in which no two sagas share an order stays so
    under [StartSaga] and under every inbound event. *)
Theorem one_saga_per_order sagaID now order event w :
  unique_orders (sagas w) ->
  (order_has_saga (order_ID order) (sagas w) = true ->
   exists err, StartSaga sagaID now order w = (Returned (Some err), w)) /\
  unique_orders (sagas (snd (StartSaga sagaID now order w))) /\
  unique_orders (sagas (snd (ProcessIncomingEvent now event w))).
Proof.
  intros Huniq. split; [|split].
  - intros Htaken. unfold StartSaga, CreateSaga.
    cbn [ID Orchestrator.OrderID newSaga]. rewrite Htaken, orb_true_r.
    eexists. reflexivity.
  - unfold StartSaga.
    destruct (CreateSaga _ w) as [err|w1] eqn:Hcreate; [exact Huniq|].
    eapply unique_orders_footprint; [apply processNextStep_footprint|].
    unfold CreateSaga in Hcreate. cbn [ID Orchestrator.OrderID newSaga] in Hcreate.
    destruct (bool_decide (is_Some (sagas w !! sagaID))) eqn:Hid;
      [discriminate|].
    destruct (order_has_saga (order_ID order) (sagas w)) eqn:Horder;
      [discriminate|].
    cbn [orb] in Hcreate. injection Hcreate as <-. cbn [sagas set_sagas].
    apply unique_orders_insert; [exact Huniq| |exact Horder].
    apply bool_decide_eq_false_1 in Hid. apply eq_None_not_Some, Hid.
  - eapply unique_orders_footprint;
      [apply ProcessIncomingEvent_footprint|exact Huniq].
Qed.

Lemma one_saga_witness :
  unique_orders (sagas Scenario.shipped) /\
  (order_has_saga (order_ID Scenario.order0) (sagas Scenario.shipped) = true ->
   exists err, StartSaga 101%N 9%N Scenario.order0 Scenario.shipped
               = (Returned (Some err), Scenario.shipped)) /\
  unique_orders (sagas (snd (StartSaga 101%N 9%N Scenario.order0
                               Scenario.shipped))) /\
  unique_orders (sagas (snd (ProcessIncomingEvent 9%N
                               Scenario.notification_sent Scenario.shipped))).
Proof.
  assert (Huniq : unique_orders (sagas Scenario.shipped)).
  { replace (sagas Scenario.shipped)
      with ({[100%N := Scenario.row_shipped]} : gmap N SagaRow)
      by (vm_compute; reflexivity).
    intros i j ri rj Hi Hj _.
    apply lookup_singleton_Some in Hi as [<- _].
    apply lookup_singleton_Some in Hj as [<- _]. reflexivity. }
  split; [exact Huniq|].
  exact (one_saga_per_order 101%N 9%N Scenario.order0
           Scenario.notification_sent Scenario.shipped Huniq).
Defined.

(** ** Events that are turned away *)

Lemma unknown_saga_is_an_error now event w :
  dispatched (EventType event) = true ->
  sagas w !! SagaID event = None ->
  is_Some (Payload event) ->
  exists err, ProcessIncomingEvent now event w = (Returned (Some err), w).
Proof.
  intros Hdispatched Hrow [eventData Hpayload].
  unfold dispatched in Hdispatched. cbn [existsb] in Hdispatched.
  unfold ProcessIncomingEvent, with_payload, HandleStepSuccess,
    HandleStepFailure, HandleCompensationSuccess, GetSagaByID.
  rewrite Hrow, Hpayload.
  repeat match goal with
         | |- context [if String.eqb (EventType event) ?b then _ else _] =>
             destruct (String.eqb (EventType event) b)
         end;
    cbn [orb] in Hdispatched; try discriminate Hdispatched;
    eexists; reflexivity.
Qed.

(** X5.  An event of a dispatched type that names no saga of the table, or
    whose payload is not an object where the switch asserts one, is
    turned away: the call returns an error or panics, and neither the
    table nor the published events change. *)
Theorem rejected_event_changes_nothing now event w :
  dispatched (EventType event) = true ->
  sagas w !! SagaID event = None \/
  (Payload event = None /\ asserts_payload (EventType event) = true) ->
  snd (ProcessIncomingEvent now event w) = w /\
  fst (ProcessIncomingEvent now event w) <> Returned None.
Proof.
  intros Hdispatched Hwhy.
  unfold dispatched, asserts_payload in *. cbn [existsb] in *.
  unfold ProcessIncomingEvent, with_payload, HandleStepSuccess,
    HandleStepFailure, HandleCompensationSuccess, GetSagaByID.
  repeat match goal with
         | |- context [if String.eqb (EventType event) ?b then _ else _] =>
             destruct (String.eqb (EventType event) b)
         end;
    cbn [orb] in *; try discriminate Hdispatched;
    destruct Hwhy as [Hrow|[Hpayload Hasserted]];
    try discriminate Hasserted;
    try rewrite Hrow; try rewrite Hpayload; try destruct (Payload event);
    (split; [reflexivity|discriminate]).
Qed.

Lemma rejected_event_witness :
  dispatched (EventType Scenario.payment_refunded) = true /\
  sagas Scenario.empty_world !! SagaID Scenario.payment_refunded = None /\
  snd (ProcessIncomingEvent 9%N Scenario.payment_refunded Scenario.empty_world)
  = Scenario.empty_world /\
  fst (ProcessIncomingEvent 9%N Scenario.payment_refunded Scenario.empty_world)
  <> Returned None.
Proof.
  split; [reflexivity|]. split; [reflexivity|].
  apply (rejected_event_changes_nothing 9%N Scenario.payment_refunded
           Scenario.empty_world); [reflexivity|left; reflexivity].
Defined.

(** ** Failure replies *)

Lemma HandleStepFailure_existing now sagaID failedStep eventData w r :
  sagas w !! sagaID = Some r ->
  exists cmd,
    HandleStepFailure now sagaID failedStep eventData w
    = (Returned None,
       {| sagas := <[sagaID := failed_row now eventData r]> (sagas w);
          published := (published w ++ [cmd])%list |}) /\
    SagaID cmd = sagaID /\
    Events.OrderID cmd = row_order_id r /\
    EventType cmd = match pending_compensation (row_completed_steps r) with
                    | Some step => compensation_command step
                    | None => OrderCancelledEvent
                    end /\
    Service cmd = "saga-orchestrator" /\
    (exists fields, Payload cmd = Some (list_to_map fields) /\
                    In ("reason", VString (recorded_reason eventData r)) fields).
Proof.
  intros Hrow. unfold HandleStepFailure, GetSagaByID. rewrite Hrow.
  unfold startCompensation, compensationCompleted, failed_row,
    pending_compensation, recorded_reason, GetCompensationStep,
    IsStepCompleted, IsCompensationCompleted.
  destruct (as_string (index eventData "reason")) as [reason|];
    cbn [CompletedSteps CompensatedSteps set_UpdatedAt set_Status
         set_FailureReason contains_step negb andb];
    rewrite ?andb_true_r;
    (destruct (contains_step _ StepShippingCreated);
     [|destruct (contains_step _ StepInventoryReserved);
       [|destruct (contains_step _ StepPaymentProcessed);
         [|destruct (contains_step _ StepOrderCreated)]]]);
    match goal with
    | |- context [UpdateSaga ?s w] =>
        rewrite (UpdateSaga_existing s w r) by exact Hrow
    end;
    (eexists; split; [reflexivity|]; repeat (split; [reflexivity|]);
     eexists; split; [reflexivity|cbn [In]; auto]).
Qed.



(** ** Completed steps *)

Lemma contains_step_In l step : contains_step l step = true <-> In step l.
Proof.
  induction l as [|c l IH]; cbn [contains_step In]; [split; [discriminate|tauto]|].
  destruct (bool_decide (c = step)) eqn:Hc.
  - apply bool_decide_eq_true_1 in Hc. tauto.
  - apply bool_decide_eq_false_1 in Hc. rewrite IH. tauto.
Qed.

Lemma startCompensation_steps now saga w r :
  sagas w !! ID saga = Some r ->
  exists r', sagas (snd (startCompensation now saga w))
             = <[ID saga := r']> (sagas w) /\
             row_completed_steps r' = CompletedSteps saga.
Proof.
  intros Hrow. unfold startCompensation, compensationCompleted.
  destruct (GetCompensationStep saga) as [step|].
  - rewrite (UpdateSaga_existing saga w r) by exact Hrow.
    match goal with
    | |- context [sendCompensationEvent saga step ?w1] =>
        destruct (sendCompensationEvent_footprint saga step w1) as [Hsent _];
        cbn zeta in Hsent; rewrite Hsent
    end.
    eexists. split; reflexivity.
  - match goal with
    | |- context [UpdateSaga ?s w] =>
        rewrite (UpdateSaga_existing s w r) by exact Hrow
    end.
    eexists. split; reflexivity.
Qed.

Lemma HandleCompensationSuccess_steps now sagaID step w r :
  sagas w !! sagaID = Some r ->
  exists r', sagas (snd (HandleCompensationSuccess now sagaID step w))
             = <[sagaID := r']> (sagas w) /\
             row_completed_steps r' = row_completed_steps r.
Proof.
  intros Hrow. unfold HandleCompensationSuccess, GetSagaByID. rewrite Hrow.
  match goal with
  | |- context [startCompensation now ?s w] =>
      destruct (startCompensation_steps now s w r) as (r' & Hnew & Hsteps)
  end.
  - unfold MarkCompensationCompleted. destruct (negb _); exact Hrow.
  - exists r'. split.
    + rewrite Hnew. f_equal.
    + rewrite Hsteps. unfold MarkCompensationCompleted.
      destruct (negb _); reflexivity.
Qed.

Lemma steps_kept l : exists added : list SagaStep,
  l = (l ++ added)%list /\ length added <= 1 /\ (NoDup l -> NoDup l).
Proof. exists []. rewrite app_nil_r. cbn. auto. Qed.

(** X7.  The completed steps of a saga only grow: whatever the event, the
    steps recorded before it stay where they are, at most one step is
    appended behind them, and a list without a repeated step stays
    without one. *)
Theorem completed_steps_only_grow now event w r :
  sagas w !! SagaID event = Some r ->
  exists r' added,
    sagas (snd (ProcessIncomingEvent now event w)) !! SagaID event = Some r' /\
    row_completed_steps r' = (row_completed_steps r ++ added)%list /\
    length added <= 1 /\
    (NoDup (row_completed_steps r) -> NoDup (row_completed_steps r')).
Proof.
  intros Hrow.
  assert (Hsuccess : forall step eventData, exists r' added,
            sagas (snd (HandleStepSuccess now (SagaID event) step eventData w))
              !! SagaID event = Some r' /\
            row_completed_steps r' = (row_completed_steps r ++ added)%list /\
            length added <= 1 /\
            (NoDup (row_completed_steps r) -> NoDup (row_completed_steps r'))).
  { intros step eventData.
    destruct (HandleStepSuccess_existing now (SagaID event) step eventData w r
                Hrow) as (cmd & -> & _).
    cbn [snd sagas]. rewrite lookup_insert_eq.
    exists (advanced_row now step eventData r). unfold advanced_row.
    cbn [row_completed_steps].
    destruct (contains_step (row_completed_steps r) step) eqn:Hin.
    - destruct (steps_kept (row_completed_steps r)) as (added & ? & ? & ?).
      exists added. auto.
    - exists [step]. split; [reflexivity|]. split; [reflexivity|].
      split; [cbn; lia|]. intros Hnodup.
      apply NoDup_app. split; [exact Hnodup|]. split.
      + intros x Hx Hx'. apply list_elem_of_In in Hx.
        apply list_elem_of_singleton in Hx'. subst x.
        apply contains_step_In in Hx. congruence.
      + apply NoDup_singleton. }
  assert (Hfailure : forall step eventData, exists r' added,
            sagas (snd (HandleStepFailure now (SagaID event) step eventData w))
              !! SagaID event = Some r' /\
            row_completed_steps r' = (row_completed_steps r ++ added)%list /\
            length added <= 1 /\
            (NoDup (row_completed_steps r) -> NoDup (row_completed_steps r'))).
  { intros step eventData.
    destruct (HandleStepFailure_existing now (SagaID event) step eventData w r
                Hrow) as (cmd & -> & _).
    cbn [snd sagas]. rewrite lookup_insert_eq.
    exists (failed_row now eventData r). cbn [failed_row row_completed_steps].
    destruct (steps_kept (row_completed_steps r)) as (added & ? & ? & ?).
    exists added. auto. }
  assert (Hcompensation : forall step, exists r' added,
            sagas (snd (HandleCompensationSuccess now (SagaID event) step w))
              !! SagaID event = Some r' /\
            row_completed_steps r' = (row_completed_steps r ++ added)%list /\
            length added <= 1 /\
            (NoDup (row_completed_steps r) -> NoDup (row_completed_steps r'))).
  { intros step.
    destruct (HandleCompensationSuccess_steps now (SagaID event) step w r Hrow)
      as (r' & -> & Hsteps).
    rewrite lookup_insert_eq. exists r'. rewrite Hsteps.
    destruct (steps_kept (row_completed_steps r)) as (added & ? & ? & ?).
    exists added. auto. }
  assert (Hnothing : exists r' added,
            sagas w !! SagaID event = Some r' /\
            row_completed_steps r' = (row_completed_steps r ++ added)%list /\
            length added <= 1 /\
            (NoDup (row_completed_steps r) -> NoDup (row_completed_steps r'))).
  { exists r. destruct (steps_kept (row_completed_steps r)) as (added & ? & ? & ?).
    exists added. auto. }
  unfold ProcessIncomingEvent, with_payload.
  repeat match goal with
         | |- context [if String.eqb ?a ?b then _ else _] =>
             destruct (String.eqb a b)
         end;
    try (destruct (Payload event); [|exact Hnothing]);
    auto.
Qed.

Lemma completed_steps_witness :
  sagas Scenario.shipped !! SagaID Scenario.payment_processed
  = Some Scenario.row_shipped /\
  exists r' added,
    sagas (snd (ProcessIncomingEvent 9%N Scenario.payment_processed
                  Scenario.shipped)) !! SagaID Scenario.payment_processed
    = Some r' /\
    row_completed_steps r'
    = (row_completed_steps Scenario.row_shipped ++ added)%list /\
    length added <= 1 /\
    (NoDup (row_completed_steps Scenario.row_shipped) ->
     NoDup (row_completed_steps r')).
Proof.
  assert (Hrow : sagas Scenario.shipped !! SagaID Scenario.payment_processed
                 = Some Scenario.row_shipped) by (vm_compute; reflexivity).
  split; [exact Hrow|].
  exact (completed_steps_only_grow 9%N Scenario.payment_processed
           Scenario.shipped Scenario.row_shipped Hrow).
Defined.

(** ** The compensation order of the aggregate *)

Lemma contains_step_snoc l c x :
  contains_step (l ++ [c]) x = contains_step l x || bool_decide (c = x).
Proof.
  induction l as [|d l IH]; cbn [contains_step app].
  - destruct (bool_decide (c = x)); reflexivity.
  - destruct (bool_decide (d = x)); [reflexivity|exact IH].
Qed.

Lemma GetCompensationStep_head s :
  GetCompensationStep s = head (outstanding_compensations s).
Proof.
  unfold GetCompensationStep, outstanding_compensations, compensation_order.
  cbn [List.filter undoes].
  repeat match goal with
         | |- context [if ?b && negb ?c then _ else _] => destruct (b && negb c)
         end; reflexivity.
Qed.

Lemma GetCompensationStep_fresh s step :
  GetCompensationStep s = Some step ->
  contains_step (CompensatedSteps s) step = false.
Proof.
  unfold GetCompensationStep, IsCompensationCompleted.
  repeat match goal with
         | |- context [if ?b && negb (contains_step ?l ?c) then _ else _] =>
             destruct b; cbn [andb];
             [destruct (contains_step l c) eqn:?; cbn [negb]|]
         end;
    congruence.
Qed.

Lemma MarkCompensationCompleted_steps now s step :
  contains_step (CompensatedSteps s) step = false ->
  CompletedSteps (MarkCompensationCompleted now step s) = CompletedSteps s /\
  CompensatedSteps (MarkCompensationCompleted now step s)
  = (CompensatedSteps s ++ [step])%list.
Proof.
  intros Hfresh. unfold MarkCompensationCompleted, IsCompensationCompleted.
  rewrite Hfresh. split; reflexivity.
Qed.

Lemma MarkCompensationCompleted_tail now s step :
  GetCompensationStep s = Some step ->
  outstanding_compensations (MarkCompensationCompleted now step s)
  = tail (outstanding_compensations s).
Proof.
  intros Hstep.
  destruct (MarkCompensationCompleted_steps now s step
              (GetCompensationStep_fresh s step Hstep)) as [Hdone Hundone].
  unfold outstanding_compensations, IsStepCompleted, IsCompensationCompleted.
  rewrite Hdone, Hundone. clear Hdone Hundone.
  unfold GetCompensationStep, IsStepCompleted, IsCompensationCompleted in Hstep.
  unfold compensation_order. cbn [List.filter undoes].
  rewrite !contains_step_snoc.
  repeat match type of Hstep with
         | context [if ?b && negb ?c then _ else _] =>
             destruct b; cbn [andb] in Hstep |- *;
             [destruct c; cbn [negb orb] in Hstep |- *|];
             try (injection Hstep as <-;
                  rewrite ?bool_decide_eq_true_2 by reflexivity;
                  rewrite ?bool_decide_eq_false_2 by discriminate;
                  rewrite ?orb_false_r, ?orb_true_r; cbn [negb tail];
                  reflexivity)
         end;
    discriminate Hstep.
Qed.


Lemma compensation_plan_outstanding now fuel : forall s,
  length (outstanding_compensations s) <= fuel ->
  compensation_plan fuel now s = outstanding_compensations s.
Proof.
  induction fuel as [|fuel IH]; intros s Hlen.
  - destruct (outstanding_compensations s); [reflexivity|cbn in Hlen; lia].
  - cbn [compensation_plan].
    pose proof (MarkCompensationCompleted_tail now s) as Htail.
    rewrite GetCompensationStep_head in *.
    destruct (outstanding_compensations s) as [|step rest]; [reflexivity|].
    cbn [head] in *. f_equal.
    rewrite IH; rewrite (Htail step eq_refl); [reflexivity|].
    cbn [tail]. cbn [length] in Hlen. lia.
Qed.

(** X8.  Run on one struct, the aggregate hands out the compensations in
    reverse order of the forward chain, shipping, inventory, payment,
    order: exactly those whose forward step is completed and that are
    not yet compensated, each once, after which none remains. *)
Theorem compensation_runs_in_reverse now fuel s :
  4 <= fuel ->
  compensation_plan fuel now s
  = List.filter
      (fun c => IsStepCompleted s (undoes c)
                && negb (IsCompensationCompleted s c))
      [StepShippingCancelled; StepInventoryReleased; StepPaymentRefunded;
       StepOrderCancelled] /\
  GetCompensationStep
    (fold_left (fun s c => MarkCompensationCompleted now c s)
       (compensation_plan fuel now s) s) = None.
Proof.
  intros Hfuel.
  assert (Hlen : forall s', length (outstanding_compensations s') <= fuel).
  { intros s'. unfold outstanding_compensations.
    etransitivity; [apply filter_length_le|]. exact Hfuel. }
  split; [apply compensation_plan_outstanding, Hlen|].
  rewrite compensation_plan_outstanding by apply Hlen.
  clear Hfuel Hlen fuel.
  remember (length (outstanding_compensations s)) as n eqn:Hn.
  revert s Hn. induction n as [|n IH]; intros s Hn.
  - rewrite GetCompensationStep_head.
    destruct (outstanding_compensations s) eqn:Hout; [|discriminate Hn].
    cbn [fold_left]. rewrite Hout. reflexivity.
  - pose proof (MarkCompensationCompleted_tail now s) as Htail.
    rewrite GetCompensationStep_head in Htail.
    destruct (outstanding_compensations s) as [|step rest] eqn:Hout;
      [discriminate Hn|].
    cbn [fold_left]. specialize (Htail step eq_refl). cbn [tail] in Htail.
    rewrite <- Htail. apply IH. rewrite Htail. cbn [length] in Hn. lia.
Qed.

Lemma compensation_runs_witness :
  4 <= 4 /\
  compensation_plan 4 9%N
    (scan 100%N Scenario.row_reserved)
  = [StepInventoryReleased; StepPaymentRefunded; StepOrderCancelled].
Proof.
  split; [lia|].
  rewrite (proj1 (compensation_runs_in_reverse 9%N 4
                    (scan 100%N Scenario.row_reserved) (le_n 4))).
  reflexivity.
Defined.


(** ** The repository *)

(** X9.  What is stored is what is read back.  After a successful insert
    the saga is loaded as it was given, apart from the completion
    time and the compensated steps, which are not stored; after a
    successful update it is loaded with the order, the customer and
    the creation time of the row as it was, whatever the struct
    holds, and again without the compensated steps. *)
Theorem stored_saga_is_read_back saga w w1 :
  CreateSaga saga w = inr w1 \/ UpdateSaga saga w = inr w1 ->
  exists orderID customerID createdAt completedAt,
    GetSagaByID (ID saga) w1
    = inr {| ID := ID saga;
             Orchestrator.OrderID := orderID;
             CustomerID := customerID;
             Status := Status saga;
             CurrentStep := CurrentStep saga;
             CompletedSteps := CompletedSteps saga;
             FailureReason := FailureReason saga;
             CreatedAt := createdAt;
             UpdatedAt := UpdatedAt saga;
             CompletedAt := completedAt;
             CompensatedSteps := [];
             Context := Context saga |} /\
    (CreateSaga saga w = inr w1 ->
       sagas w !! ID saga = None /\
       orderID = Orchestrator.OrderID saga /\
       customerID = CustomerID saga /\
       createdAt = CreatedAt saga /\ completedAt = None) /\
    (UpdateSaga saga w = inr w1 ->
       exists r, sagas w !! ID saga = Some r /\
                 orderID = row_order_id r /\
                 customerID = row_customer_id r /\
                 createdAt = row_created_at r /\
                 completedAt = CompletedAt saga) /\
    published w1 = published w /\
    forall other, other <> ID saga -> sagas w1 !! other = sagas w !! other.
Proof.
  intros [Hcreate|Hupdate].
  - pose proof Hcreate as Hrun. unfold CreateSaga in Hrun.
    destruct (bool_decide (is_Some (sagas w !! ID saga))) eqn:Hid;
      [discriminate Hrun|].
    destruct (order_has_saga _ _); [discriminate Hrun|].
    cbn [orb] in Hrun. injection Hrun as <-.
    apply bool_decide_eq_false_1, eq_None_not_Some in Hid.
    eexists _, _, _, _. split; [|split; [|split; [|split]]].
    + unfold GetSagaByID. cbn [sagas set_sagas]. rewrite lookup_insert_eq.
      reflexivity.
    + intros _. cbn [row_order_id row_customer_id row_created_at
                     row_completed_at]. auto.
    + intros Hupdate. unfold UpdateSaga in Hupdate. rewrite Hid in Hupdate.
      discriminate Hupdate.
    + reflexivity.
    + intros other Hother. cbn [sagas set_sagas].
      apply lookup_insert_ne. congruence.
  - pose proof Hupdate as Hrun. unfold UpdateSaga in Hrun.
    destruct (sagas w !! ID saga) as [r|] eqn:Hrow; [|discriminate Hrun].
    injection Hrun as <-.
    eexists _, _, _, _. split; [|split; [|split; [|split]]].
    + unfold GetSagaByID. cbn [sagas set_sagas]. rewrite lookup_insert_eq.
      reflexivity.
    + intros Hcreate. unfold CreateSaga in Hcreate. rewrite Hrow in Hcreate.
      rewrite bool_decide_eq_true_2 in Hcreate by eauto.
      discriminate Hcreate.
    + intros _. exists r.
      cbn [row_order_id row_customer_id row_created_at row_completed_at].
      auto.
    + reflexivity.
    + intros other Hother. cbn [sagas set_sagas].
      apply lookup_insert_ne. congruence.
Qed.

Lemma stored_saga_witness :
  UpdateSaga (set_Status SagaStatusFailed (scan 100%N Scenario.row_shipped))
    Scenario.shipped
  = inr (set_sagas
           (<[100%N := Scenario.row SagaStatusFailed StepShippingCreated
                         [StepOrderCreated; StepPaymentProcessed;
                          StepInventoryReserved; StepShippingCreated] ""
                         Scenario.context_shipped 4%N]>
              (sagas Scenario.shipped)) Scenario.shipped) /\
  exists saga,
    GetSagaByID 100%N
      (set_sagas
         (<[100%N := Scenario.row SagaStatusFailed StepShippingCreated
                       [StepOrderCreated; StepPaymentProcessed;
                        StepInventoryReserved; StepShippingCreated] ""
                       Scenario.context_shipped 4%N]>
            (sagas Scenario.shipped)) Scenario.shipped) = inr saga /\
    Status saga = SagaStatusFailed.
Proof.
  assert (Hupdate :
    UpdateSaga (set_Status SagaStatusFailed (scan 100%N Scenario.row_shipped))
      Scenario.shipped
    = inr (set_sagas
             (<[100%N := Scenario.row SagaStatusFailed StepShippingCreated
                           [StepOrderCreated; StepPaymentProcessed;
                            StepInventoryReserved; StepShippingCreated] ""
                           Scenario.context_shipped 4%N]>
                (sagas Scenario.shipped)) Scenario.shipped)).
  { rewrite (UpdateSaga_existing _ Scenario.shipped Scenario.row_shipped)
      by (vm_compute; reflexivity).
    reflexivity. }
  split; [exact Hupdate|].
  destruct (stored_saga_is_read_back _ _ _ (or_intror Hupdate))
    as (o & c & t & d & Hget & _).
  eexists. split; [exact Hget|reflexivity].
Defined.

Lemma find_order_spec orderID (m : gmap N SagaRow) kr :
  find (fun kr => N.eqb (row_order_id (snd kr)) orderID) (map_to_list m) = Some kr ->
  m !! fst kr = Some (snd kr) /\ row_order_id (snd kr) = orderID.
Proof.
  intros Hfind. apply find_some in Hfind as [Hin Heq].
  split; [|apply N.eqb_eq, Heq].
  apply elem_of_map_to_list. destruct kr. apply list_elem_of_In, Hin.
Qed.

(** X10.  The lookup of a saga by its order.  It fails exactly when the
    order has no saga; and in a table in which no two sagas share an
    order, it returns a saga exactly when the lookup by the id of
    that saga returns the same saga and the saga is of this order. *)
Theorem GetSagaByOrderID_agrees orderID w :
  unique_orders (sagas w) ->
  (order_has_saga orderID (sagas w) = false
   <-> GetSagaByOrderID orderID w = inl (Errorf "saga not found order: %s" None)) /\
  forall saga,
    GetSagaByOrderID orderID w = inr saga
    <-> GetSagaByID (ID saga) w = inr saga /\ Orchestrator.OrderID saga = orderID.
Proof.
  intros Huniq. unfold GetSagaByOrderID. split.
  - destruct (find _ _) as [kr|] eqn:Hfind.
    + apply find_order_spec in Hfind as [Hrow Horder].
      split; [|discriminate]. intros Hnone.
      assert (order_has_saga orderID (sagas w) = true) as Hsome
        by (apply order_has_saga_spec; eauto).
      congruence.
    + split; [reflexivity|]. intros _.
      destruct (order_has_saga orderID (sagas w)) eqn:Hsome; [|reflexivity].
      apply order_has_saga_spec in Hsome as (i & r & Hrow & Horder).
      assert (Hin : In (i, r) (map_to_list (sagas w)))
        by apply list_elem_of_In, elem_of_map_to_list, Hrow.
      apply (find_none _ _ Hfind) in Hin. cbn [snd] in Hin.
      apply N.eqb_neq in Hin. contradiction.
  - intros saga. unfold GetSagaByID. split.
    + destruct (find _ _) as [kr|] eqn:Hfind; [|discriminate].
      apply find_order_spec in Hfind as [Hrow Horder].
      intros [= <-]. cbn [ID scan Orchestrator.OrderID]. rewrite Hrow.
      split; [reflexivity|exact Horder].
    + intros [Hget Horder].
      destruct (sagas w !! ID saga) as [r|] eqn:Hrow; [|discriminate Hget].
      injection Hget as Hsaga.
      assert (Hr : row_order_id r = orderID).
      { rewrite <- Horder, <- Hsaga. reflexivity. }
      destruct (find _ _) as [kr|] eqn:Hfind.
      * apply find_order_spec in Hfind as [Hrow' Horder'].
        assert (fst kr = ID saga) as Hid
          by (eapply Huniq; [exact Hrow'|exact Hrow|congruence]).
        rewrite Hid in Hrow'. rewrite Hrow in Hrow'. injection Hrow' as <-.
        rewrite Hid. f_equal. exact Hsaga.
      * assert (Hin : In (ID saga, r) (map_to_list (sagas w)))
          by apply list_elem_of_In, elem_of_map_to_list, Hrow.
        apply (find_none _ _ Hfind) in Hin. cbn [snd] in Hin.
        apply N.eqb_neq in Hin. contradiction.
Qed.

Lemma GetSagaByOrderID_witness :
  unique_orders (sagas Scenario.shipped) /\
  exists saga, GetSagaByOrderID 7%N Scenario.shipped = inr saga /\
               GetSagaByID 100%N Scenario.shipped = inr saga.
Proof.
  assert (Huniq : unique_orders (sagas Scenario.shipped)).
  { replace (sagas Scenario.shipped)
      with ({[100%N := Scenario.row_shipped]} : gmap N SagaRow)
      by (vm_compute; reflexivity).
    intros i j ri rj Hi Hj _.
    apply lookup_singleton_Some in Hi as [<- _].
    apply lookup_singleton_Some in Hj as [<- _]. reflexivity. }
  split; [exact Huniq|].
  exists (scan 100%N Scenario.row_shipped).
  assert (Hget : GetSagaByID 100%N Scenario.shipped
                 = inr (scan 100%N Scenario.row_shipped))
    by (vm_compute; reflexivity).
  split; [|exact Hget].
  apply (proj2 (GetSagaByOrderID_agrees 7%N Scenario.shipped Huniq)).
  split; [exact Hget|reflexivity].
Defined.

(** ** Sagas to recover *)

Lemma insert_by_created_perm x l : Permutation (insert_by_created x l) (x :: l).
Proof.
  induction l as [|y l IH]; cbn [insert_by_created]; [reflexivity|].
  destruct (_ <? _)%N; [reflexivity|].
  rewrite IH. apply perm_swap.
Qed.

Lemma order_by_created_perm l : Permutation (order_by_created l) l.
Proof.
  unfold order_by_created.
  enough (forall acc, Permutation (fold_left (fun acc x => insert_by_created x acc) l acc)
                        (l ++ acc)) as Hgen
    by (rewrite Hgen, app_nil_r; reflexivity).
  induction l as [|x l IH]; intros acc; cbn [fold_left]; [reflexivity|].
  rewrite IH, insert_by_created_perm. cbn [app].
  symmetry. apply Permutation_middle.
Qed.

Lemma insert_by_created_sorted x l :
  StronglySorted created_before l ->
  StronglySorted created_before (insert_by_created x l).
Proof.
  induction 1 as [|y l Hsorted IH Hall]; cbn [insert_by_created].
  - repeat constructor.
  - destruct (_ <? _)%N eqn:Hlt.
    + apply N.ltb_lt in Hlt. constructor; [constructor; assumption|].
      constructor; [unfold created_before; lia|].
      eapply Forall_impl; [exact Hall|].
      unfold created_before. intros z Hz. lia.
    + apply N.ltb_ge in Hlt. constructor; [exact IH|].
      rewrite insert_by_created_perm.
      constructor; [exact Hlt|exact Hall].
Qed.

Lemma order_by_created_sorted l : StronglySorted created_before (order_by_created l).
Proof.
  unfold order_by_created.
  enough (forall acc, StronglySorted created_before acc ->
            StronglySorted created_before
              (fold_left (fun acc x => insert_by_created x acc) l acc)) as Hgen
    by (apply Hgen; constructor).
  induction l as [|x l IH]; intros acc Hacc; cbn [fold_left]; [exact Hacc|].
  apply IH, insert_by_created_sorted, Hacc.
Qed.

Lemma filter_keeps_keys (p : N * SagaRow -> bool) l :
  NoDup (map fst l) -> NoDup (map fst (List.filter p l)).
Proof.
  induction l as [|x l IH]; cbn [List.filter map]; [auto|].
  intros Hnodup. apply NoDup_cons in Hnodup as [Hfresh Hrest].
  destruct (p x); [|auto]. cbn [map]. apply NoDup_cons. split; [|auto].
  intros Hin. apply Hfresh.
  apply list_elem_of_In, in_map_iff in Hin as (y & Hy & Hin).
  apply filter_In in Hin as [Hin _].
  apply list_elem_of_In, in_map_iff. eauto.
Qed.

(** X11.  The sagas that recovery picks up are exactly the sagas of the
    table whose status is started, in_progress or compensating, each
    once, as the lookup by id returns them, oldest first. *)
Theorem GetInProgressSagas_lists_open_sagas w :
  (forall saga,
     In saga (GetInProgressSagas w)
     <-> GetSagaByID (ID saga) w = inr saga
         /\ awaits_recovery (Status saga) = true) /\
  NoDup (map ID (GetInProgressSagas w)) /\
  StronglySorted (fun a b => (CreatedAt a <= CreatedAt b)%N)
    (GetInProgressSagas w).
Proof.
  unfold GetInProgressSagas.
  set (open := List.filter _ _).
  assert (Hopen : forall kr, In kr (order_by_created open)
                    <-> sagas w !! fst kr = Some (snd kr)
                        /\ awaits_recovery (row_status (snd kr)) = true).
  { intros kr. rewrite <- !list_elem_of_In, order_by_created_perm.
    subst open. rewrite list_elem_of_In, filter_In, <- list_elem_of_In.
    destruct kr as [i r]. rewrite elem_of_map_to_list. reflexivity. }
  split; [|split].
  - intros saga. rewrite in_map_iff. unfold GetSagaByID. split.
    + intros (kr & <- & Hin). apply Hopen in Hin as [Hrow Hstatus].
      cbn [ID scan Status]. rewrite Hrow. auto.
    + intros [Hget Hstatus].
      destruct (sagas w !! ID saga) as [r|] eqn:Hrow; [|discriminate Hget].
      injection Hget as Hsaga. exists (ID saga, r). split; [exact Hsaga|].
      apply Hopen. split; [exact Hrow|]. rewrite <- Hsaga in Hstatus.
      exact Hstatus.
  - rewrite map_map. cbn [ID scan].
    change (NoDup (map fst (order_by_created open))).
    rewrite order_by_created_perm. subst open.
    apply filter_keeps_keys, NoDup_fst_map_to_list.
  - pose proof (order_by_created_sorted open) as Hsorted. clear Hopen.
    induction Hsorted as [|kr l Hsorted IH Hall]; cbn [map]; constructor.
    + exact IH.
    + apply Forall_map. eapply Forall_impl; [exact Hall|].
      intros kr' Hle. exact Hle.
Qed.

End OrchestratorExtra.

(** * Further properties of the inventory participant *)

Module InventoryExtra.

Import Inventory InventoryViews.

(** ** The aggregate *)

Lemma wrap64_small z : (- 2 ^ 63 <= z < 2 ^ 63)%Z -> wrap64 z = z.
Proof. intros Hz. unfold wrap64. rewrite Z.mod_small; lia. Qed.

Lemma product_checks_spec stock reserved :
  product_checks stock reserved = true
  <-> (0 <= reserved <= stock /\ stock < 2 ^ 31)%Z.
Proof.
  unfold product_checks, int4.
  rewrite !andb_true_iff, !Z.leb_le, !Z.ltb_lt. lia.
Qed.

(** X12.  On a product within the constraints of its table, [Reserve]
    accepts a quantity exactly when it is at most the stock that is
    not reserved; it then raises the reserved stock by the quantity
    and nothing else, and [Release] of the same quantity gives the
    product back as it was. *)
Theorem Reserve_then_Release_restores i quantity :
  product_checks (Stock i) (ReservedStock i) = true ->
  (- 2 ^ 63 <= quantity < 2 ^ 63)%Z ->
  if (quantity <=? Stock i - ReservedStock i)%Z
  then exists i', Reserve i quantity = inr i' /\
                  ReservedStock i' = (ReservedStock i + quantity)%Z /\
                  Stock i' = Stock i /\
                  Release i' quantity = i
  else Reserve i quantity
       = inl (Errorf "insufficient stock: available=%d, requested=%d" None).
Proof.
  intros Hchecks Hq. apply product_checks_spec in Hchecks.
  unfold Reserve, CanReserve.
  rewrite (wrap64_small (Stock i - ReservedStock i)) by lia.
  destruct (quantity <=? Stock i - ReservedStock i)%Z eqn:Hfits;
    cbn [negb]; [|reflexivity].
  apply Z.leb_le in Hfits.
  rewrite (wrap64_small (ReservedStock i + quantity)) by lia.
  eexists. split; [reflexivity|]. split; [reflexivity|]. split; [reflexivity|].
  unfold Release. cbn [ReservedStock set_ReservedStock].
  replace (quantity <=? ReservedStock i + quantity)%Z with true
    by (symmetry; apply Z.leb_le; lia).
  replace (ReservedStock i + quantity - quantity)%Z with (ReservedStock i)
    by lia.
  rewrite wrap64_small by lia. destruct i; reflexivity.
Qed.

Lemma Reserve_then_Release_witness :
  product_checks 50 8 = true /\
  (- 2 ^ 63 <= 3 < 2 ^ 63)%Z /\
  exists i', Reserve {| ID := 1%N; Name := "Laptop Pro 15"; Price := 129999;
                        Stock := 50; ReservedStock := 8; SagaID := 0%N |} 3
             = inr i' /\
             ReservedStock i' = 11%Z.
Proof.
  split; [reflexivity|]. split; [lia|].
  pose proof (Reserve_then_Release_restores
                {| ID := 1%N; Name := "Laptop Pro 15"; Price := 129999;
                   Stock := 50; ReservedStock := 8; SagaID := 0%N |} 3
                eq_refl ltac:(lia)) as Hrun.
  cbn [Stock ReservedStock] in Hrun.
  change (3 <=? 50 - 8)%Z with true in Hrun.
  destruct Hrun as (i' & Hreserve & Hreserved & _).
  exists i'. split; [exact Hreserve|exact Hreserved].
Defined.

(** ** The reservation loop *)

Lemma goods_insert (m : gmap N ProductRow) id r r' :
  m !! id = Some r -> goods r' = goods r ->
  goods <$> <[id := r']> m = goods <$> m.
Proof.
  intros Hrow Hgoods. rewrite fmap_insert, Hgoods.
  apply insert_id. rewrite lookup_fmap, Hrow. reflexivity.
Qed.

Lemma well_stocked_insert (m : gmap N ProductRow) id r :
  well_stocked m ->
  product_checks (row_stock r) (row_reserved_stock r) = true ->
  well_stocked (<[id := r]> m).
Proof.
  intros Hm Hr id' r' Hrow. destruct (decide (id' = id)) as [->|Hne].
  - rewrite lookup_insert_eq in Hrow. injection Hrow as <-. exact Hr.
  - rewrite lookup_insert_ne in Hrow by congruence. eapply Hm, Hrow.
Qed.

(** One iteration of the loop either goes through, and the loop goes
    on from [after_item], or ends the call with inventory.failed,
    having at most rewritten the reserved stock of the product. *)
Lemma reserve_items_step now request item rest acc w :
  (exists r,
     products w !! item_ProductID item = Some r /\
     accepts item r w = true /\
     reserve_items now request (item :: rest) acc w
     = reserve_items now request rest
         (acc ++ [reserved_item now request item w])
         (after_item now request item r w)) \/
  (exists reason w1,
     reserve_items now request (item :: rest) acc w
     = publishInventoryFailedEvent (req_SagaID request) (req_OrderID request)
         (item_ProductID item) reason w1 /\
     published w1 = published w /\
     reservations w1 = reservations w /\
     goods <$> products w1 = goods <$> products w /\
     (well_stocked (products w) -> well_stocked (products w1))).
Proof.
  cbn [reserve_items]. unfold GetProductByID, accepts.
  destruct (products w !! item_ProductID item) as [r|] eqn:Hrow;
    [|right; eexists _, w; split; [reflexivity|auto]].
  unfold Reserve, CanReserve.
  cbn [Stock ReservedStock].
  destruct (item_Quantity item <=? _)%Z eqn:Hfits; cbn [negb andb];
    [|right; eexists _, w; split; [reflexivity|auto]].
  unfold UpdateProduct. cbn [ID set_ReservedStock Stock ReservedStock].
  rewrite Hrow.
  destruct (product_checks _ _) eqn:Hchecks; cbn [andb];
    [|right; eexists _, w; split; [reflexivity|auto]].
  unfold uuid_New, CreateReservation.
  cbn [reservations products set_products NewReservationAggregate res_ID
       res_ProductID res_Quantity].
  rewrite lookup_insert_eq.
  rewrite bool_decide_eq_true_2 by eauto. cbn [negb orb].
  rewrite orb_false_r.
  destruct (existsb _ _) eqn:Hid; cbn [orb negb andb].
  { right. eexists _, _. split; [reflexivity|].
    cbn [published reservations products].
    split; [reflexivity|]. split; [reflexivity|]. split.
    - apply (goods_insert _ _ r); [exact Hrow|reflexivity].
    - intros Hw. apply well_stocked_insert; [exact Hw|exact Hchecks]. }
  destruct (int4 (item_Quantity item)) eqn:Hint; cbn [orb negb andb].
  2:{ right. eexists _, _. split; [reflexivity|].
      cbn [published reservations products].
      split; [reflexivity|]. split; [reflexivity|]. split.
      - apply (goods_insert _ _ r); [exact Hrow|reflexivity].
      - intros Hw. apply well_stocked_insert; [exact Hw|exact Hchecks]. }
  destruct (0 <? item_Quantity item)%Z eqn:Hpos; cbn [orb negb andb].
  2:{ right. eexists _, _. split; [reflexivity|].
      cbn [published reservations products].
      split; [reflexivity|]. split; [reflexivity|]. split.
      - apply (goods_insert _ _ r); [exact Hrow|reflexivity].
      - intros Hw. apply well_stocked_insert; [exact Hw|exact Hchecks]. }
  left. exists r. split; [reflexivity|].
  split; [rewrite Hfits, Hchecks; reflexivity|]. reflexivity.
Qed.

Lemma raised_lookup items (m : gmap N ProductRow) id :
  raised items m !! id
  = (fun r => with_reserved (row_reserved_stock r + demand id items)%Z r)
      <$> m !! id.
Proof.
  unfold raised. rewrite map_lookup_imap.
  destruct (m !! id); reflexivity.
Qed.

Lemma raised_nil (m : gmap N ProductRow) : raised [] m = m.
Proof.
  apply map_eq. intros id. rewrite raised_lookup.
  destruct (m !! id) as [r|]; [|reflexivity].
  cbn [fmap option_fmap option_map demand fold_right].
  rewrite Z.add_0_r. destruct r; reflexivity.
Qed.

Lemma demand_cons id item items :
  demand id (item :: items)
  = if N.eqb (item_ProductID item) id
    then (item_Quantity item + demand id items)%Z else demand id items.
Proof. reflexivity. Qed.

Lemma demand_nonneg id items :
  Forall (fun item => (0 < item_Quantity item)%Z) items ->
  (0 <= demand id items)%Z.
Proof.
  induction 1 as [|item items Hpos _ IH]; [reflexivity|].
  rewrite demand_cons. destruct (N.eqb _ _); lia.
Qed.

(** The products after an iteration that went through, with the rest
    of the items raised, are the products with all the items raised. *)
Lemma raised_step (m : gmap N ProductRow) item rest r :
  well_stocked m ->
  m !! item_ProductID item = Some r ->
  (item_Quantity item <= wrap64 (row_stock r - row_reserved_stock r))%Z ->
  (0 < item_Quantity item)%Z ->
  raised rest
    (<[item_ProductID item :=
        with_reserved (wrap64 (row_reserved_stock r + item_Quantity item)) r]> m)
  = raised (item :: rest) m.
Proof.
  intros Hm Hrow Hfits Hpos.
  pose proof (Hm _ _ Hrow) as Hchecks. apply product_checks_spec in Hchecks.
  rewrite wrap64_small in Hfits by lia.
  rewrite wrap64_small by lia.
  apply map_eq. intros id. rewrite !raised_lookup, demand_cons.
  destruct (decide (id = item_ProductID item)) as [->|Hne].
  - rewrite lookup_insert_eq, Hrow, N.eqb_refl.
    cbn [fmap option_fmap option_map with_reserved row_reserved_stock
         row_name row_price row_stock].
    unfold with_reserved. cbn [row_name row_price row_stock row_reserved_stock].
    do 2 f_equal. lia.
  - rewrite lookup_insert_ne by congruence.
    replace (N.eqb (item_ProductID item) id) with false
      by (symmetry; apply N.eqb_neq; congruence).
    reflexivity.
Qed.

Lemma accepts_spec item r w :
  accepts item r w = true ->
  product_checks (row_stock r)
    (wrap64 (row_reserved_stock r + item_Quantity item)) = true /\
  (item_Quantity item <= wrap64 (row_stock r - row_reserved_stock r))%Z /\
  (0 < item_Quantity item)%Z.
Proof.
  unfold accepts. rewrite !andb_true_iff, Z.leb_le, Z.ltb_lt. tauto.
Qed.

Lemma reserve_items_effect now request items : forall acc w,
  exists e added,
    fst (reserve_items now request items acc w) = Returned None /\
    published (snd (reserve_items now request items acc w))
    = (published w ++ [e])%list /\
    reservations (snd (reserve_items now request items acc w))
    = (reservations w ++ added)%list /\
    Forall (made_for now request) added /\
    goods <$> products (snd (reserve_items now request items acc w))
    = goods <$> products w /\
    (well_stocked (products w) ->
     well_stocked (products (snd (reserve_items now request items acc w)))) /\
    ((exists productID reason,
        e = event (req_SagaID request) (req_OrderID request)
              InventoryFailedEvent
              [("order_id", VID (req_OrderID request));
               ("product_id", VID productID);
               ("reason", VString reason)] /\
        length added < length items) \/
     (e = event (req_SagaID request) (req_OrderID request)
            InventoryReservedEvent
            [("reservations",
              appended (map reservation_value (acc ++ added)%list))] /\
      map item_of added = items /\
      Forall (fun item => (0 < item_Quantity item)%Z /\
                          is_Some (products w !! item_ProductID item)) items /\
      (well_stocked (products w) ->
       products (snd (reserve_items now request items acc w))
       = raised items (products w)))).
Proof.
  induction items as [|item rest IH]; intros acc w.
  - exists (event (req_SagaID request) (req_OrderID request)
              InventoryReservedEvent
              [("reservations", appended (map reservation_value acc))]), [].
    cbn [reserve_items publishInventoryReservedEvent fst snd PublishSagaEvent
         published reservations products].
    rewrite !app_nil_r.
    split; [reflexivity|]. split; [reflexivity|]. split; [reflexivity|].
    split; [constructor|]. split; [reflexivity|]. split; [auto|].
    right. split; [reflexivity|]. split; [reflexivity|].
    split; [constructor|]. intros _. symmetry. apply raised_nil.
  - destruct (reserve_items_step now request item rest acc w)
      as [(r & Hrow & Haccepts & ->)|(reason & w1 & -> & Hpub & Hres & Hgoods & Hsound)].
    + apply accepts_spec in Haccepts as (Hchecks & Hfits & Hpos).
      destruct (IH (acc ++ [reserved_item now request item w])%list
                  (after_item now request item r w))
        as (e & added & Hout & Hpublished & Hreservations & Hmade & Hgoods
            & Hsound & Hreply).
      exists e, (reserved_item now request item w :: added).
      split; [exact Hout|]. split; [exact Hpublished|].
      split; [rewrite Hreservations; cbn [reservations after_item];
              rewrite <- app_assoc; reflexivity|].
      split; [constructor; [repeat split; exact Hpos|exact Hmade]|].
      split; [rewrite Hgoods; cbn [products after_item];
              apply (goods_insert _ _ r); [exact Hrow|reflexivity]|].
      split.
      * intros Hw. apply Hsound. cbn [products after_item].
        apply well_stocked_insert; [exact Hw|exact Hchecks].
      * destruct Hreply as [(p & reason & -> & Hlen)
                           |(-> & Hitems & Hall & Hraised)].
        -- left. exists p, reason. split; [reflexivity|]. cbn [length]. lia.
        -- right. rewrite <- app_assoc. split; [reflexivity|].
           split; [cbn [map]; rewrite Hitems; destruct item; reflexivity|].
           split.
           ++ constructor; [split; [exact Hpos|rewrite Hrow; eauto]|].
              eapply Forall_impl; [exact Hall|].
              intros it [Hq Hsome]. split; [exact Hq|].
              cbn [products after_item] in Hsome.
              apply lookup_insert_is_Some in Hsome as [<-|[_ Hsome]];
                [rewrite Hrow; eauto|exact Hsome].
           ++ intros Hw. rewrite Hraised.
              ** cbn [products after_item].
                 apply raised_step; [exact Hw|exact Hrow|exact Hfits|exact Hpos].
              ** cbn [products after_item].
                 apply well_stocked_insert; [exact Hw|exact Hchecks].
    + eexists _, []. cbn [publishInventoryFailedEvent fst snd PublishSagaEvent
                          published reservations products].
      rewrite app_nil_r, Hpub.
      split; [reflexivity|]. split; [reflexivity|]. split; [exact Hres|].
      split; [constructor|]. split; [exact Hgoods|]. split; [exact Hsound|].
      left. eexists _, _. split; [reflexivity|]. cbn [length]. lia.
Qed.

(** X13.  [ReserveInventory] hands exactly one event to the publisher,
    an event of the saga and the order of the request:
    inventory.failed, which names a product and a reason, or
    inventory.reserved.  In both cases the reservations of the table
    are kept and followed by those made by the call, all of them
    reserved, of the saga and the order of the request and of a
    positive quantity; no product is added or removed and no name,
    price or stock changes.  The reply is inventory.reserved exactly
    when every item went through: one reservation per item, in the
    order of the request, and the payload lists them all; for a
    request without items the list of the payload is the JSON null. *)
Theorem ReserveInventory_replies_once now request w :
  let w' := snd (ReserveInventory now request w) in
  exists e added,
    published w' = (published w ++ [e])%list /\
    Events.SagaID e = req_SagaID request /\
    Events.OrderID e = req_OrderID request /\
    Service e = "inventory-service" /\
    reservations w' = (reservations w ++ added)%list /\
    Forall (made_for now request) added /\
    goods <$> products w' = goods <$> products w /\
    ((EventType e = InventoryFailedEvent /\
      length added < length (req_Items request)) \/
     (EventType e = InventoryReservedEvent /\
      Payload e
      = Some (list_to_map
                [("reservations",
                  match req_Items request with
                  | [] => VNil
                  | _ :: _ => VList (map reservation_value added)
                  end)]) /\
      map item_of added = req_Items request)).
Proof.
  unfold ReserveInventory.
  destruct (reserve_items_effect now request (req_Items request) [] w)
    as (e & added & Hout & Hpublished & Hreservations & Hmade & Hgoods & _
        & Hreply).
  exists e, added. cbn zeta.
  split; [exact Hpublished|].
  assert (Henvelope : Events.SagaID e = req_SagaID request /\
                      Events.OrderID e = req_OrderID request /\
                      Service e = "inventory-service")
    by (destruct Hreply as [(p & reason & -> & _)|(-> & _)]; repeat split).
  destruct Henvelope as (Hsaga & Horder & Hservice).
  split; [exact Hsaga|]. split; [exact Horder|]. split; [exact Hservice|].
  split; [exact Hreservations|]. split; [exact Hmade|]. split; [exact Hgoods|].
  destruct Hreply as [(p & reason & -> & Hlen)|(-> & Hitems & _)].
  - left. split; [reflexivity|exact Hlen].
  - right. split; [reflexivity|]. split; [|exact Hitems].
    rewrite <- Hitems. destruct added; reflexivity.
Qed.

(** ** Release *)

Lemma UpdateReservation_products r w :
  products (UpdateReservation r w) = products w.
Proof. reflexivity. Qed.

Lemma release_one_goods now r w :
  goods <$> products (release_one now r w) = goods <$> products w.
Proof.
  unfold release_one, GetProductByID.
  destruct (products w !! res_ProductID r) as [p|] eqn:Hp; [|reflexivity].
  rewrite UpdateReservation_products.
  unfold UpdateProduct. rewrite InventoryProofs.Release_ID. cbn [ID]. rewrite Hp.
  destruct (product_checks _ _); [|reflexivity].
  cbn [products set_products].
  apply (goods_insert _ _ p); [exact Hp|].
  unfold goods, Release. cbn [row_name row_price row_stock ReservedStock].
  destruct (_ <=? _)%Z; reflexivity.
Qed.

Lemma release_loop_goods now rs : forall w,
  goods <$> products (fold_left (fun w r => release_one now r w) rs w)
  = goods <$> products w.
Proof.
  induction rs as [|r rs IH]; intros w; cbn [fold_left]; [reflexivity|].
  rewrite IH. apply release_one_goods.
Qed.

Lemma release_one_published now r w :
  published (release_one now r w) = published w.
Proof.
  unfold release_one, GetProductByID.
  destruct (products w !! res_ProductID r); [|reflexivity].
  unfold UpdateReservation, UpdateProduct. cbn [published set_reservations].
  destruct (products w !! _); [|reflexivity].
  destruct (product_checks _ _); reflexivity.
Qed.

Lemma release_loop_published now rs : forall w,
  published (fold_left (fun w r => release_one now r w) rs w) = published w.
Proof.
  induction rs as [|r rs IH]; intros w; cbn [fold_left]; [reflexivity|].
  rewrite IH. apply release_one_published.
Qed.

Lemma released_rows_miss D now rs : forall x,
  InventoryScenario.hit D rs x = false ->
  InventoryScenario.released_rows D now rs x = x.
Proof.
  induction rs as [|r rs IH]; intros x Hmiss; [reflexivity|].
  unfold InventoryScenario.hit in Hmiss. cbn [existsb] in Hmiss.
  apply orb_false_iff in Hmiss as [Hr Hrs].
  unfold InventoryScenario.released_rows. cbn [fold_left].
  unfold InventoryScenario.released_row at 2. rewrite Hr.
  apply IH, Hrs.
Qed.

Lemma release_tables now request w :
  let w' := snd (ReleaseInventory now request w) in
  goods <$> products w' = goods <$> products w /\
  map (fun x => (res_ID x, res_ProductID x, res_SagaID x)) (reservations w')
  = map (fun x => (res_ID x, res_ProductID x, res_SagaID x)) (reservations w) /\
  (forall x, In x (reservations w') ->
     res_SagaID x = rel_SagaID request ->
     is_Some (products w !! res_ProductID x) ->
     res_Status x = InventoryStatusReleased).
Proof.
  intros w'.
  destruct (InventoryProofs.ReleaseInventory_tables now request w)
    as [Hdom Hrows].
  cbn zeta in Hdom, Hrows. fold w' in Hdom, Hrows.
  set (rs := GetReservationsBySagaID (rel_SagaID request) w) in *.
  split; [|split].
  - subst w'.
    unfold ReleaseInventory, release_found, publishInventoryReleasedEvent.
    cbn [snd products PublishSagaEvent]. apply release_loop_goods.
  - rewrite Hrows, map_map. apply map_ext. intros x.
    destruct (InventoryProofs.released_rows_keep (dom (products w)) now rs x)
      as (-> & -> & ->). reflexivity.
  - intros x Hin Hsaga Hproduct. rewrite Hrows in Hin.
    apply in_map_iff in Hin as (x0 & <- & Hin0).
    destruct (InventoryProofs.released_rows_keep (dom (products w)) now rs x0)
      as (Hid & Hprod & Hsame).
    rewrite Hsame in Hsaga. rewrite Hprod in Hproduct.
    rewrite InventoryProofs.released_rows_status.
    replace (InventoryScenario.hit (dom (products w)) rs x0) with true;
      [reflexivity|].
    symmetry. unfold InventoryScenario.hit. apply existsb_exists.
    exists x0. split.
    + subst rs. unfold GetReservationsBySagaID.
      apply list_elem_of_In, list_elem_of_filter.
      split; [exact Hsaga|apply list_elem_of_In, Hin0].
    + rewrite bool_decide_eq_true_2 by (apply elem_of_dom; exact Hproduct).
      rewrite N.eqb_refl. reflexivity.
Qed.

(** X14.  [ReleaseInventory] hands exactly one event to the publisher.
    When the reservations of the saga cannot be read, the event is
    inventory.release.failed with the error in its reason, and no row
    changes.  Otherwise it is inventory.released with the ids of all
    the reservations of the saga, whatever their status and whatever
    ids the request names, the JSON null when the saga has none; no
    product is added or removed and no name, price or stock changes;
    no reservation is added or removed; every reservation of the saga
    whose product exists ends released, and a reservation whose id is
    not that of a reservation of the saga is left as it is. *)
Theorem ReleaseInventory_releases_the_saga now request w :
  (forall err,
     snd (release_found now request (inl err) w)
     = PublishSagaEvent
         (event (rel_SagaID request) (rel_OrderID request)
            "inventory.release.failed"
            [("reason",
              VString (Sprintf "Failed to get reservations: %v" err))]) w) /\
  let rs := GetReservationsBySagaID (rel_SagaID request) w in
  ReleaseInventory now request w = release_found now request (inr rs) w /\
  let w' := snd (ReleaseInventory now request w) in
  published w'
  = (published w
     ++ [event (rel_SagaID request) (rel_OrderID request)
           InventoryReleasedEvent
           [("order_id", VID (rel_OrderID request));
            ("reservation_ids",
             match rs with
             | [] => VNil
             | _ :: _ => VList (map (fun r => VID (res_ID r)) rs)
             end)]])%list /\
  goods <$> products w' = goods <$> products w /\
  map res_ID (reservations w') = map res_ID (reservations w) /\
  (forall x, In x (reservations w') ->
     res_SagaID x = rel_SagaID request ->
     is_Some (products w !! res_ProductID x) ->
     res_Status x = InventoryStatusReleased) /\
  (forall x, In x (reservations w) ->
     (forall r, In r rs -> res_ID r <> res_ID x) ->
     In x (reservations w')).
Proof.
  split; [reflexivity|]. intros rs. split; [reflexivity|].
  intros w'.
  destruct (InventoryProofs.ReleaseInventory_tables now request w)
    as [Hdom Hrows].
  cbn zeta in Hdom, Hrows. fold w' in Hdom, Hrows. fold rs in Hrows.
  split; [|split; [|split; [|split]]].
  - subst w'.
    unfold ReleaseInventory, release_found, publishInventoryReleasedEvent.
    cbn [snd published PublishSagaEvent]. rewrite release_loop_published.
    fold rs. destruct rs; reflexivity.
  - apply (release_tables now request w).
  - rewrite Hrows, map_map. apply map_ext. intros x.
    apply InventoryProofs.released_rows_keep.
  - apply (release_tables now request w).
  - intros x Hin Hother. rewrite Hrows. apply in_map_iff. exists x.
    split; [|exact Hin]. apply released_rows_miss.
    unfold InventoryScenario.hit.
    destruct (existsb _ rs) eqn:Hhit; [|reflexivity].
    apply existsb_exists in Hhit as (r & Hr & Hsame).
    apply andb_true_iff in Hsame as [_ Hsame]. apply N.eqb_eq in Hsame.
    exfalso. apply (Hother r Hr). congruence.
Qed.

(** ** Reserve, then release *)

Lemma well_stocked_raised_tail item items (m : gmap N ProductRow) :
  well_stocked m ->
  Forall (fun item => (0 < item_Quantity item)%Z) (item :: items) ->
  well_stocked (raised (item :: items) m) ->
  well_stocked (raised items m).
Proof.
  intros Hm Hpos Hraised id r' Hrow. rewrite raised_lookup in Hrow.
  destruct (m !! id) as [r|] eqn:Hr; [|discriminate Hrow].
  injection Hrow as <-.
  pose proof (Hm _ _ Hr) as Hbase. apply product_checks_spec in Hbase.
  specialize (Hraised id
    (with_reserved (row_reserved_stock r + demand id (item :: items))%Z r)).
  rewrite raised_lookup, Hr in Hraised. specialize (Hraised eq_refl).
  apply product_checks_spec in Hraised.
  cbn [with_reserved row_stock row_reserved_stock] in Hraised |- *.
  apply product_checks_spec.
  pose proof (demand_nonneg id items (Forall_inv_tail Hpos)) as Hrest.
  rewrite demand_cons in Hraised. apply Forall_inv in Hpos.
  destruct (N.eqb _ _); lia.
Qed.

Lemma release_one_lowers now x items (m : gmap N ProductRow) w :
  well_stocked m ->
  products w = raised (item_of x :: items) m ->
  well_stocked (products w) ->
  Forall (fun item => (0 < item_Quantity item)%Z) (item_of x :: items) ->
  is_Some (m !! res_ProductID x) ->
  products (release_one now x w) = raised items m.
Proof.
  intros Hm Hw Hsound Hpos [r Hr].
  pose proof (Hm _ _ Hr) as Hbase. apply product_checks_spec in Hbase.
  pose proof (demand_nonneg (res_ProductID x) items (Forall_inv_tail Hpos))
    as Hrest.
  pose proof (Forall_inv Hpos) as Hq. cbn [item_of item_Quantity] in Hq.
  assert (Hrow : products w !! res_ProductID x
                 = Some (with_reserved
                           (row_reserved_stock r
                            + (res_Quantity x + demand (res_ProductID x) items))%Z
                           r)).
  { rewrite Hw, raised_lookup, Hr, demand_cons.
    cbn [item_of item_ProductID item_Quantity]. rewrite N.eqb_refl.
    reflexivity. }
  pose proof (Hsound _ _ Hrow) as Hnow. apply product_checks_spec in Hnow.
  cbn [with_reserved row_stock row_reserved_stock] in Hnow.
  unfold release_one, GetProductByID. rewrite Hrow.
  rewrite UpdateReservation_products.
  unfold Release.
  cbn [ReservedStock with_reserved row_reserved_stock row_stock row_name
       row_price].
  replace (res_Quantity x <=? _)%Z with true
    by (symmetry; apply Z.leb_le; lia).
  unfold UpdateProduct.
  cbn [ID set_ReservedStock Stock ReservedStock]. rewrite Hrow.
  rewrite wrap64_small by lia.
  replace (product_checks _ _) with true
    by (symmetry; apply product_checks_spec;
        cbn [with_reserved row_stock]; lia).
  cbn [products set_products].
  apply map_eq. intros id. rewrite raised_lookup.
  destruct (decide (id = res_ProductID x)) as [->|Hne].
  - rewrite lookup_insert_eq, Hr.
    cbn [fmap option_fmap option_map with_reserved row_name row_price
         row_stock]. unfold with_reserved. do 2 f_equal. lia.
  - rewrite lookup_insert_ne by congruence.
    rewrite Hw, raised_lookup, demand_cons.
    cbn [item_of item_ProductID].
    replace (N.eqb (res_ProductID x) id) with false
      by (symmetry; apply N.eqb_neq; congruence).
    reflexivity.
Qed.

Lemma release_loop_lowers now (m : gmap N ProductRow) xs : forall w,
  well_stocked m ->
  products w = raised (map item_of xs) m ->
  well_stocked (products w) ->
  Forall (fun item => (0 < item_Quantity item)%Z
                      /\ is_Some (m !! item_ProductID item)) (map item_of xs) ->
  products (fold_left (fun w r => release_one now r w) xs w) = m.
Proof.
  induction xs as [|x xs IH]; intros w Hm Hw Hsound Hall; cbn [fold_left].
  - rewrite Hw. apply raised_nil.
  - cbn [map] in Hw, Hall.
    assert (Hpos : Forall (fun item => (0 < item_Quantity item)%Z)
                     (item_of x :: map item_of xs))
      by (eapply Forall_impl; [exact Hall|]; intros ? [? _]; assumption).
    pose proof (release_one_lowers now x (map item_of xs) m w Hm Hw Hsound Hpos)
      as Hstep.
    pose proof (Forall_inv Hall) as [_ Hsome]. cbn [item_of item_ProductID] in Hsome.
    specialize (Hstep Hsome).
    apply IH; [exact Hm|exact Hstep| |exact (Forall_inv_tail Hall)].
    rewrite Hstep. apply (well_stocked_raised_tail (item_of x)); [exact Hm|exact Hpos|].
    rewrite <- Hw. exact Hsound.
Qed.

(** X15.  The compensation gives the stock back.  When [ReserveInventory]
    answers inventory.reserved for a saga that had no reservation,
    the [ReleaseInventory] of that saga returns every product row to
    what it was before the reservation, and leaves every reservation
    of the saga released. *)
Theorem release_undoes_reserve now now' request release w :
  well_stocked (products w) ->
  GetReservationsBySagaID (req_SagaID request) w = [] ->
  rel_SagaID release = req_SagaID request ->
  let w1 := snd (ReserveInventory now request w) in
  let w2 := snd (ReleaseInventory now' release w1) in
  map EventType (published w1)
  = (map EventType (published w) ++ [InventoryReservedEvent])%list ->
  products w2 = products w /\
  forall x, In x (reservations w2) ->
    res_SagaID x = req_SagaID request ->
    res_Status x = InventoryStatusReleased.
Proof.
  intros Hw Hfresh Hsaga w1 w2 Hreply.
  destruct (reserve_items_effect now request (req_Items request) [] w)
    as (e & added & _ & Hpublished & Hreservations & Hmade & Hgoods & Hsound
        & Hcase).
  fold (ReserveInventory now request w) in *. fold w1 in Hpublished,
    Hreservations, Hgoods, Hsound, Hcase.
  rewrite Hpublished, map_app in Hreply. apply app_inv_head in Hreply.
  injection Hreply as Htype.
  destruct Hcase as [(p & reason & -> & _)|(_ & Hitems & Hall & Hraised)];
    [discriminate Htype|].
  assert (Hrs : GetReservationsBySagaID (rel_SagaID release) w1 = added).
  { unfold GetReservationsBySagaID in *. rewrite Hreservations, filter_app.
    rewrite Hsaga, Hfresh. cbn [app].
    clear -Hmade. induction Hmade as [|x l [Hx _] _ IH]; [reflexivity|].
    rewrite filter_cons, IH. destruct (decide _); [reflexivity|contradiction]. }
  assert (Hproducts : products w2 = products w).
  { subst w2.
    unfold ReleaseInventory, release_found, publishInventoryReleasedEvent.
    cbn [snd products PublishSagaEvent]. rewrite Hrs.
    apply release_loop_lowers.
    - exact Hw.
    - rewrite Hitems. apply Hraised, Hw.
    - apply Hsound, Hw.
    - rewrite Hitems. exact Hall. }
  split; [exact Hproducts|].
  intros x Hin Hx.
  destruct (release_tables now' release w1)
    as (_ & Hids & Hstatus).
  apply Hstatus; [exact Hin|congruence|].
  assert (Hfrom : In (res_ID x, res_ProductID x, res_SagaID x)
                    (map (fun y => (res_ID y, res_ProductID y, res_SagaID y))
                       (reservations w1))).
  { rewrite <- Hids. apply in_map_iff. eauto. }
  apply in_map_iff in Hfrom as (y & Hy & Hin1).
  injection Hy as _ Hproduct Hysaga.
  rewrite Hreservations in Hin1. apply in_app_iff in Hin1 as [Hold|Hnew].
  - exfalso.
    assert (Hmember : y ∈ GetReservationsBySagaID (req_SagaID request) w).
    { unfold GetReservationsBySagaID. apply list_elem_of_filter.
      split; [congruence|apply list_elem_of_In, Hold]. }
    rewrite Hfresh in Hmember. inversion Hmember.
  - assert (Hitem : In (item_of y) (req_Items request))
      by (rewrite <- Hitems; apply in_map, Hnew).
    rewrite Forall_forall in Hall.
    apply list_elem_of_In, Hall in Hitem as [_ Hsome].
    cbn [item_of item_ProductID] in Hsome. rewrite Hproduct in Hsome.
    destruct Hsome as [r Hr].
    assert (Hkept : (goods <$> products w1) !! res_ProductID x
                    = (goods <$> products w) !! res_ProductID x)
      by (rewrite Hgoods; reflexivity).
    rewrite !lookup_fmap, Hr in Hkept.
    destruct (products w1 !! res_ProductID x); [eauto|discriminate Hkept].
Qed.

Lemma release_after_reserve_witness :
  well_stocked (products InventoryScenario.stocked) /\
  products
    (snd (ReleaseInventory 2%N
            {| rel_SagaID := 50%N; rel_OrderID := 0%N; rel_ReservationIDs := [] |}
            (snd (ReserveInventory 1%N
                    {| req_SagaID := 50%N; req_OrderID := 7%N;
                       req_Items := [{| item_ProductID := 1%N;
                                        item_Quantity := 2 |};
                                     {| item_ProductID := 2%N;
                                        item_Quantity := 10 |};
                                     {| item_ProductID := 1%N;
                                        item_Quantity := 1 |}] |}
                    InventoryScenario.stocked))))
  = products InventoryScenario.stocked.
Proof.
  assert (Hsound : well_stocked (products InventoryScenario.stocked)).
  { assert (Hall : map_Forall
                     (fun _ r => product_checks (row_stock r)
                                   (row_reserved_stock r) = true)
                     (products InventoryScenario.stocked))
      by (match goal with |- ?P => apply (bool_decide_unpack P) end;
          vm_compute; exact I).
    exact Hall. }
  split; [exact Hsound|].
  apply (release_undoes_reserve 1%N 2%N _ _ InventoryScenario.stocked Hsound);
    reflexivity.
Defined.

(** ** Quantities that are not positive *)

(** X16.  An item with a quantity of zero or less passes the stock check of
    the aggregate and is refused only by the reservations table,
    after the product has been written: the call answers
    inventory.failed and adds no reservation, but the reserved stock
    of the product has moved by the quantity, down for a negative
    one.  When the reserved stock would fall below zero the product
    table refuses the update and nothing changes. *)
Theorem nonpositive_quantity_is_refused_late now request item rest r w :
  req_Items request = item :: rest ->
  products w !! item_ProductID item = Some r ->
  product_checks (row_stock r) (row_reserved_stock r) = true ->
  (- 2 ^ 31 <= item_Quantity item <= 0)%Z ->
  let w' := snd (ReserveInventory now request w) in
  reservations w' = reservations w /\
  map EventType (published w')
  = (map EventType (published w) ++ [InventoryFailedEvent])%list /\
  products w'
  = if (0 <=? row_reserved_stock r + item_Quantity item)%Z
    then <[item_ProductID item :=
             with_reserved (row_reserved_stock r + item_Quantity item)%Z r]>
           (products w)
    else products w.
Proof.
  intros Hitems Hrow Hchecks Hq. apply product_checks_spec in Hchecks.
  unfold ReserveInventory. rewrite Hitems. cbn [reserve_items].
  unfold GetProductByID. rewrite Hrow.
  unfold Reserve, CanReserve. cbn [Stock ReservedStock].
  rewrite (wrap64_small (row_stock r - row_reserved_stock r)) by lia.
  replace (item_Quantity item <=? row_stock r - row_reserved_stock r)%Z
    with true by (symmetry; apply Z.leb_le; lia).
  cbn [negb]. unfold UpdateProduct.
  cbn [ID set_ReservedStock Stock ReservedStock]. rewrite Hrow.
  rewrite (wrap64_small (row_reserved_stock r + item_Quantity item)) by lia.
  destruct (0 <=? row_reserved_stock r + item_Quantity item)%Z eqn:Hfloor.
  - apply Z.leb_le in Hfloor.
    replace (product_checks _ _) with true
      by (symmetry; apply product_checks_spec; lia).
    unfold uuid_New, CreateReservation.
    cbn [res_Quantity NewReservationAggregate].
    replace (0 <? item_Quantity item)%Z with false
      by (symmetry; apply Z.ltb_ge; lia).
    cbn [negb]. rewrite !orb_true_r.
    cbn [snd publishInventoryFailedEvent PublishSagaEvent reservations
         published products set_products].
    split; [reflexivity|]. split; [rewrite map_app; reflexivity|reflexivity].
  - apply Z.leb_gt in Hfloor.
    replace (product_checks _ _) with false.
    + cbn [snd publishInventoryFailedEvent PublishSagaEvent reservations
           published products].
      split; [reflexivity|]. split; [rewrite map_app; reflexivity|reflexivity].
    + symmetry. apply not_true_is_false. intros Habs.
      apply product_checks_spec in Habs. lia.
Qed.

Lemma nonpositive_quantity_witness :
  let request := {| req_SagaID := 50%N; req_OrderID := 7%N;
                    req_Items := [{| item_ProductID := 1%N;
                                     item_Quantity := -3 |}] |} in
  products InventoryScenario.held !! 1%N
  = Some (InventoryScenario.product "Laptop Pro 15" 129999 50 8) /\
  (- 2 ^ 31 <= -3 <= 0)%Z /\
  InventoryScenario.reserved_stock 1%N
    (snd (ReserveInventory 4%N request InventoryScenario.held)) = Some 5%Z /\
  map EventType
    (published (snd (ReserveInventory 4%N request InventoryScenario.held)))
  = [InventoryFailedEvent].
Proof.
  intros request.
  assert (Hrow : products InventoryScenario.held !! 1%N
                 = Some (InventoryScenario.product "Laptop Pro 15" 129999 50 8))
    by reflexivity.
  assert (Hq : (- 2 ^ 31 <= -3 <= 0)%Z) by lia.
  split; [exact Hrow|]. split; [exact Hq|].
  destruct (nonpositive_quantity_is_refused_late 4%N request
              {| item_ProductID := 1%N; item_Quantity := -3 |} []
              (InventoryScenario.product "Laptop Pro 15" 129999 50 8)
              InventoryScenario.held eq_refl Hrow eq_refl Hq)
    as (_ & Hevents & Hproducts).
  split; [|exact Hevents].
  unfold InventoryScenario.reserved_stock. rewrite Hproducts.
  reflexivity.
Defined.

End InventoryExtra.

(** * Further properties of the payment participant *)

Module PaymentExtra.

Import PaymentDomain PaymentService PaymentViews.

Lemma UpdatePayment_ignoring_frame payment w :
  map identity (payments (UpdatePayment_ignoring payment w))
  = map identity (payments w) /\
  published (UpdatePayment_ignoring payment w) = published w /\
  next_uuid (UpdatePayment_ignoring payment w) = next_uuid w.
Proof.
  unfold UpdatePayment_ignoring, UpdatePayment.
  destruct (find _ _) as [r|]; [|auto].
  destruct (payment_checks _); [|auto].
  destruct (written payment) as [values|]; [|auto].
  cbn [payments published next_uuid set_payments].
  split; [|auto]. rewrite map_map. apply map_ext. intros p.
  destruct (N.eqb _ _); reflexivity.
Qed.


Lemma inserted_identity p r : inserted p = Some r -> identity r = identity p.
Proof.
  unfold inserted, written.
  destruct (varchar 50 _); [|discriminate].
  destruct (varchar 255 (TransactionID p)); [|discriminate].
  destruct (varchar 255 (ExternalRef p)); [|discriminate].
  destruct (text _); [|discriminate].
  destruct (varchar 255 (RefundReference p)); [|discriminate].
  intros [= <-]. reflexivity.
Qed.

(** X17.  [ProcessPayment] hands exactly one event to the publisher, an
    event of the saga and the order of the request, payment.processed
    or payment.failed; it is payment.processed only when the amount
    is positive and the gateway approved the charge.  At most one
    payment row is added, and no row is removed or changes its id,
    order, customer, amount, saga or creation time. *)
Theorem ProcessPayment_replies_once gateway now request w :
  let w' := snd (ProcessPayment gateway now request w) in
  (exists e,
     published w' = (published w ++ [e])%list /\
     Events.SagaID e = proc_SagaID request /\
     Events.OrderID e = proc_OrderID request /\
     Service e = "payment-service" /\
     (EventType e = PaymentFailedEvent \/
      (EventType e = PaymentProcessedEvent /\
       (0 < proc_Amount request)%Z /\
       is_Some (approved gateway request)))) /\
  (map identity (payments w') = map identity (payments w) \/
   map identity (payments w')
   = (map identity (payments w)
      ++ [identity (pending_payment now request w)])%list).
Proof.
  unfold ProcessPayment, approved.
  destruct (proc_Amount request <=? 0)%Z eqn:Hamount.
  { split; [|left; reflexivity].
    eexists. split; [reflexivity|]. repeat split. left. reflexivity. }
  apply Z.leb_gt in Hamount.
  unfold uuid_New.
  destruct (CreatePayment _ _) as [err|w2] eqn:Hcreate.
  { split; [|left; reflexivity].
    eexists. split; [reflexivity|]. repeat split. left. reflexivity. }
  assert (Hrows : map identity (payments w2)
                  = (map identity (payments w)
                     ++ [identity (pending_payment now request w)])%list
                  /\ published w2 = published w).
  { unfold CreatePayment in Hcreate.
    destruct (_ || _); [discriminate Hcreate|].
    destruct (inserted _) as [row|] eqn:Hrow; [|discriminate Hcreate].
    injection Hcreate as <-. apply inserted_identity in Hrow.
    cbn [payments set_payments published]. rewrite map_app. cbn [map].
    rewrite Hrow. split; reflexivity. }
  destruct Hrows as [Hrows Hpublished].
  assert (Hframe : forall payment,
            map identity (payments (UpdatePayment_ignoring payment w2))
            = (map identity (payments w)
               ++ [identity (pending_payment now request w)])%list
            /\ published (UpdatePayment_ignoring payment w2) = published w).
  { intros payment.
    destruct (UpdatePayment_ignoring_frame payment w2) as (-> & -> & _).
    split; [exact Hrows|exact Hpublished]. }
  destruct (gateway_ProcessPayment gateway _) as [err|response].
  - cbn [fst snd publishPaymentFailedEvent PublishSagaEvent published payments].
    match goal with
    | |- context [UpdatePayment_ignoring ?p w2] =>
        destruct (Hframe p) as [-> ->]
    end.
    split; [|right; reflexivity].
    eexists. split; [reflexivity|]. repeat split. left. reflexivity.
  - destruct (Success response); cbn [negb].
    + cbn [fst snd publishPaymentProcessedEvent PublishSagaEvent published
           payments].
      match goal with
      | |- context [UpdatePayment_ignoring ?p w2] =>
          destruct (Hframe p) as [-> ->]
      end.
      split; [|right; reflexivity].
      eexists. split; [reflexivity|]. repeat split. right.
      repeat split; [exact Hamount|eauto].
    + cbn [fst snd publishPaymentFailedEvent PublishSagaEvent published
           payments].
      match goal with
      | |- context [UpdatePayment_ignoring ?p w2] =>
          destruct (Hframe p) as [-> ->]
      end.
      split; [|right; reflexivity].
      eexists. split; [reflexivity|]. repeat split. left. reflexivity.
Qed.







(** The widths of the columns decide.  A payment method of 51
    characters is refused by the INSERT, and the charge is answered
    with payment.failed without a row.  A transaction id of 256
    characters is refused by the UPDATE, whose error is only logged:
    payment.processed is handed to the publisher while the row stays
    pending. *)
Example long_values_are_refused :
  let long n := string_of_list_ascii (repeat "x"%char n) in
  let request :=
    {| proc_SagaID := 100%N; proc_OrderID := 7%N; proc_CustomerID := 3%N;
       proc_Amount := 259998; proc_PaymentMethod := long 51 |} in
  let w1 := snd (ProcessPayment PaymentScenario.approving 2%N request
                   PaymentScenario.no_payments) in
  let gateway :=
    {| gateway_ProcessPayment := fun _ =>
         inr {| Success := true; resp_TransactionID := long 256;
                resp_ExternalRef := "REF_1"; resp_FailureReason := "" |};
       gateway_RefundPayment :=
         gateway_RefundPayment PaymentScenario.approving |} in
  let w2 := snd (ProcessPayment gateway 2%N PaymentScenario.process_request
                   PaymentScenario.no_payments) in
  varchar 50 (long 50) = Some (long 50) /\
  varchar 50 (long 51) = None /\
  payments w1 = [] /\
  map EventType (published w1) = [PaymentFailedEvent] /\
  map Status (payments w2) = [PaymentStatusPending] /\
  map EventType (published w2) = [PaymentProcessedEvent].
Proof. vm_compute. repeat split. Qed.

(** ** Refunds *)








(** ** Refunds that name no payment *)

Lemma insert_desc_perm p l : Permutation (insert_desc p l) (p :: l).
Proof.
  induction l as [|q l IH]; cbn [insert_desc]; [reflexivity|].
  destruct (_ <? _)%N; [reflexivity|].
  rewrite IH. apply perm_swap.
Qed.

Lemma insert_desc_sorted p l :
  StronglySorted newer l -> StronglySorted newer (insert_desc p l).
Proof.
  induction 1 as [|q l Hsorted IH Hall]; cbn [insert_desc].
  - repeat constructor.
  - destruct (_ <? _)%N eqn:Hlt.
    + apply N.ltb_lt in Hlt. constructor; [constructor; assumption|].
      constructor; [unfold newer; lia|].
      eapply Forall_impl; [exact Hall|].
      unfold newer. intros z Hz. lia.
    + apply N.ltb_ge in Hlt. constructor; [exact IH|].
      rewrite insert_desc_perm.
      constructor; [exact Hlt|exact Hall].
Qed.

Lemma GetPaymentsBySagaID_spec sagaID w :
  Permutation (GetPaymentsBySagaID sagaID w)
    (filter (fun r => SagaID r = sagaID) (payments w)) /\
  StronglySorted newer (GetPaymentsBySagaID sagaID w).
Proof.
  unfold GetPaymentsBySagaID.
  set (l := filter _ _). clearbody l.
  enough (forall acc,
            Permutation (fold_left (fun acc p => insert_desc p acc) l acc)
              (l ++ acc) /\
            (StronglySorted newer acc ->
             StronglySorted newer
               (fold_left (fun acc p => insert_desc p acc) l acc))) as Hgen.
  { destruct (Hgen []) as [Hperm Hsorted].
    rewrite app_nil_r in Hperm. split; [exact Hperm|].
    apply Hsorted. constructor. }
  induction l as [|p l IH]; intros acc; cbn [fold_left].
  - split; [reflexivity|auto].
  - destruct (IH (insert_desc p acc)) as [Hperm Hsorted]. split.
    + rewrite Hperm, insert_desc_perm. cbn [app].
      symmetry. apply Permutation_middle.
    + intros Hacc. apply Hsorted, insert_desc_sorted, Hacc.
Qed.

Lemma find_by_id p l :
  NoDup (map ID l) -> In p l ->
  find (fun r => N.eqb (ID r) (ID p)) l = Some p.
Proof.
  induction l as [|q l IH]; intros Hnodup Hin; [destruct Hin|].
  cbn [map] in Hnodup. apply NoDup_cons in Hnodup as [Hfresh Hrest].
  cbn [find]. destruct Hin as [->|Hin].
  - rewrite N.eqb_refl. reflexivity.
  - destruct (N.eqb (ID q) (ID p)) eqn:Heq; [|apply IH; assumption].
    exfalso. apply N.eqb_eq in Heq. apply Hfresh. rewrite Heq.
    apply list_elem_of_In, in_map, Hin.
Qed.

(** X28.  A refund request that names no payment but a transaction is
    served from the saga alone: the transaction id of the request is
    never compared with a payment.  When the saga of the request has
    no payment the call panics; otherwise the refund runs on the
    newest payment of the saga, exactly as if the request had named
    that payment. *)
Theorem refund_by_transaction_takes_newest gateway now request w :
  ref_PaymentID request = uuid_Nil ->
  ref_TransactionID request <> "" ->
  NoDup (map ID (payments w)) ->
  Forall (fun p => ID p <> uuid_Nil) (payments w) ->
  (Forall (fun q => SagaID q <> ref_SagaID request) (payments w) /\
   ProcessRefund gateway now request w = (Panicked, w)) \/
  (exists p,
     In p (payments w) /\
     SagaID p = ref_SagaID request /\
     Forall (fun q => SagaID q = ref_SagaID request ->
                      (CreatedAt q <= CreatedAt p)%N) (payments w) /\
     forall transactionID,
       ProcessRefund gateway now request w
       = ProcessRefund gateway now
           {| ref_SagaID := ref_SagaID request;
              ref_PaymentID := ID p;
              ref_TransactionID := transactionID;
              ref_Amount := ref_Amount request;
              ref_Reason := ref_Reason request |} w).
Proof.
  intros Hnil Htransaction Hnodup Hids.
  destruct (GetPaymentsBySagaID_spec (ref_SagaID request) w)
    as [Hperm Hsorted].
  destruct (GetPaymentsBySagaID (ref_SagaID request) w) as [|p rest] eqn:Hfound.
  - left. split.
    + apply Forall_forall. intros q Hq Hsaga.
      assert (q ∈ filter (fun r => SagaID r = ref_SagaID request) (payments w))
        as Hmember by (apply list_elem_of_filter; auto).
      rewrite <- Hperm in Hmember. inversion Hmember.
    + apply PaymentProofs.ProcessRefund_panics_without_payment; assumption.
  - right. exists p.
    assert (Hp : p ∈ filter (fun r => SagaID r = ref_SagaID request) (payments w))
      by (rewrite <- Hperm; left).
    apply list_elem_of_filter in Hp as [Hsaga Hin].
    apply list_elem_of_In in Hin.
    split; [exact Hin|]. split; [exact Hsaga|]. split.
    + apply Forall_forall. intros q Hq Hqsaga.
      assert (q ∈ p :: rest) as Hmember
        by (rewrite Hperm; apply list_elem_of_filter; auto).
      apply elem_of_cons in Hmember as [->|Hrest]; [lia|].
      apply StronglySorted_inv in Hsorted as [_ Hall].
      rewrite Forall_forall in Hall. apply (Hall q Hrest).
    + intros transactionID. unfold ProcessRefund, locate_payment.
      cbn [ref_PaymentID ref_SagaID ref_Amount ref_Reason ref_TransactionID].
      rewrite Hnil, Hfound. cbn [N.eqb uuid_Nil negb].
      replace (String.eqb (ref_TransactionID request) "") with false
        by (symmetry; apply String.eqb_neq, Htransaction).
      cbn [negb].
      replace (N.eqb (ID p) uuid_Nil) with false.
      2:{ symmetry. apply N.eqb_neq. rewrite Forall_forall in Hids.
          apply (Hids p), list_elem_of_In, Hin. }
      cbn [negb]. unfold GetPaymentByID.
      rewrite (find_by_id p (payments w) Hnodup Hin). reflexivity.
Qed.

Lemma refund_by_transaction_witness :
  let request := {| ref_SagaID := 100%N; ref_PaymentID := uuid_Nil;
                    ref_TransactionID := "TXN_other"; ref_Amount := 259998;
                    ref_Reason := "Insufficient stock" |} in
  NoDup (map ID (payments PaymentScenario.paid)) /\
  Forall (fun p => ID p <> uuid_Nil) (payments PaymentScenario.paid) /\
  map EventType
    (published (snd (ProcessRefund PaymentScenario.approving 5%N request
                       PaymentScenario.paid)))
  = ["payment.refunded"].
Proof.
  intros request.
  assert (Hnodup : NoDup (map ID (payments PaymentScenario.paid)))
    by (apply NoDup_singleton).
  assert (Hids : Forall (fun p => ID p <> uuid_Nil)
                   (payments PaymentScenario.paid))
    by (repeat constructor; discriminate).
  split; [exact Hnodup|]. split; [exact Hids|].
  destruct (refund_by_transaction_takes_newest PaymentScenario.approving 5%N
              request PaymentScenario.paid eq_refl ltac:(discriminate)
              Hnodup Hids)
    as [[_ Hpanic]|(p & _ & _ & _ & Hrun)].
  - discriminate Hpanic.
  - reflexivity.
Defined.

End PaymentExtra.

(** * The commands of the orchestrator, as the participants read them *)

Module ContractExtra.

Import Orchestrator Events Observations.

Ltac index_of_fields :=
  unfold index, list_to_map; cbn [fold_right fst snd];
  repeat first [rewrite lookup_insert_eq
               |rewrite lookup_insert_ne by discriminate];
  cbn [default from_option id].






(** The first integers that a [float64] does not hold: the rounding
    is that of the conversion of the kernel, and [int(quantity)] is
    the rounded number. *)
Example float64_of_rounds :
  map InventoryHandler.float64_of
    [2 ^ 53 + 1; 2 ^ 53 + 2; 2 ^ 53 + 3; - (2 ^ 53 + 1); 2 ^ 62 + 2 ^ 9 + 1]%Z
  = [2 ^ 53; 2 ^ 53 + 2; 2 ^ 53 + 4; - 2 ^ 53; 2 ^ 62 + 2 ^ 10]%Z /\
  forallb (fun n =>
             PrimFloat.eqb
               (PrimFloat.of_uint63 (Uint63Axioms.of_Z n))
               (PrimFloat.of_uint63
                  (Uint63Axioms.of_Z (InventoryHandler.float64_of n))))
    [2 ^ 53 + 1; 2 ^ 53 + 2; 2 ^ 53 + 3; 2 ^ 62 + 2 ^ 9 + 1;
     123456789123456789]%Z
  = true /\
  InventoryHandler.int_of_number 9007199254740993 = 9007199254740992%Z.
Proof. vm_compute. repeat split. Qed.



(** X23.  The command of the inventory compensation is one that the
    inventory handler accepts, whatever the context of the saga
    holds; it names no order, so that the release runs, and answers,
    for the nil order. *)
Theorem release_command_is_understood saga w now iw :
  exists cmd reply,
    sendCompensationEvent saga StepInventoryReleased w
    = (Returned None, PublishSagaEvent cmd w) /\
    EventType cmd = "inventory.release" /\
    InventoryHandler.HandleSagaEvent now cmd iw
    = Inventory.ReleaseInventory now
        {| Inventory.rel_SagaID := ID saga;
           Inventory.rel_OrderID := uuid_Nil;
           Inventory.rel_ReservationIDs :=
             match index (Context saga) "reservation_ids" with
             | VList reservationIDs =>
                 omap PaymentService.as_uuid reservationIDs
             | _ => []
             end |} iw /\
    Inventory.published (snd (InventoryHandler.HandleSagaEvent now cmd iw))
    = (Inventory.published iw ++ [reply])%list /\
    EventType reply = InventoryReleasedEvent /\
    SagaID reply = ID saga /\
    Events.OrderID reply = uuid_Nil.
Proof.
  eexists _, _. split; [reflexivity|]. split; [reflexivity|].
  assert (Hrun :
    InventoryHandler.HandleSagaEvent now
      (command saga "inventory.release"
         [("reservation_ids", index (Context saga) "reservation_ids");
          ("reason", VString (FailureReason saga))]) iw
    = Inventory.ReleaseInventory now
        {| Inventory.rel_SagaID := ID saga;
           Inventory.rel_OrderID := uuid_Nil;
           Inventory.rel_ReservationIDs :=
             match index (Context saga) "reservation_ids" with
             | VList reservationIDs =>
                 omap PaymentService.as_uuid reservationIDs
             | _ => []
             end |} iw).
  { unfold InventoryHandler.HandleSagaEvent,
      InventoryHandler.handleInventoryReleaseCommand,
      InventoryHandler.mapToInventoryReleaseRequest.
    cbn [EventType Payload SagaID command String.eqb Ascii.eqb Bool.eqb].
    set (ids := index (Context saga) "reservation_ids").
    replace (index _ "order_id") with VNil by (index_of_fields; reflexivity).
    replace (index _ "reservation_ids") with ids
      by (index_of_fields; reflexivity).
    reflexivity. }
  split; [exact Hrun|]. rewrite Hrun.
  unfold Inventory.ReleaseInventory, Inventory.release_found,
    Inventory.publishInventoryReleasedEvent.
  cbn [snd Inventory.published Inventory.PublishSagaEvent
       Inventory.rel_SagaID Inventory.rel_OrderID].
  rewrite InventoryExtra.release_loop_published.
  split; [reflexivity|]. repeat split.
Qed.



(** X24.  A command that a participant cannot read is refused before any
    work is done: when the payload of inventory.reserve is no object
    or holds no order id, and when the payload of payment.process is
    no object or lacks the order id, the customer id or the amount,
    the handler returns an error, writes nothing and publishes
    nothing, so that no reply reaches the orchestrator. *)
Theorem unreadable_command_is_refused event :
  (EventType event = "inventory.reserve" ->
   (Payload event = None \/
    exists payload, Payload event = Some payload /\
      PaymentService.as_uuid (index payload "order_id") = None) ->
   forall now iw,
     exists err,
       InventoryHandler.HandleSagaEvent now event iw
       = (Returned (Some err), iw)) /\
  (EventType event = "payment.process" ->
   (Payload event = None \/
    exists payload, Payload event = Some payload /\
      (PaymentService.as_uuid (index payload "order_id") = None \/
       PaymentService.as_uuid (index payload "customer_id") = None \/
       PaymentService.as_number (index payload "amount") = None)) ->
   forall gateway now pw,
     exists err,
       PaymentService.HandleSagaEvent gateway now event pw
       = (Returned (Some err), pw)).
Proof.
  split.
  - intros Htype Hwhy now iw.
    unfold InventoryHandler.HandleSagaEvent,
      InventoryHandler.handleInventoryReserveCommand,
      InventoryHandler.mapToInventoryReserveRequest,
      PaymentService.required_uuid.
    rewrite Htype. cbn [String.eqb Ascii.eqb Bool.eqb].
    destruct Hwhy as [->|(payload & -> & Horder)]; [eexists; reflexivity|].
    destruct (index payload "order_id"); try discriminate Horder;
      eexists; reflexivity.
  - intros Htype Hwhy gateway now pw.
    unfold PaymentService.HandleSagaEvent,
      PaymentService.handlePaymentProcessCommand,
      PaymentService.mapToPaymentProcessRequest,
      PaymentService.required_uuid.
    rewrite Htype. cbn [String.eqb Ascii.eqb Bool.eqb].
    destruct Hwhy as [->|(payload & -> & Hwhy)]; [eexists; reflexivity|].
    destruct (index payload "order_id") eqn:Horder;
      try (eexists; reflexivity);
      destruct (index payload "customer_id") eqn:Hcustomer;
      try (eexists; reflexivity);
      destruct (index payload "amount") eqn:Hamount;
      try (eexists; reflexivity);
      destruct Hwhy as [Hwhy|[Hwhy|Hwhy]]; discriminate Hwhy.
Qed.

End ContractExtra.

(** * Further properties of the messaging layer *)

Module MessagingExtra.

Import Messaging.

Lemma filter_head {A} (f : A -> bool) a l :
  List.filter f (a :: l) = (List.filter f [a] ++ List.filter f l)%list.
Proof. cbn [List.filter]. destruct (f a); reflexivity. Qed.

Lemma retry_loop_spec broker event maxRetries remaining : forall i lastErr c,
  (exists k,
     k < remaining /\
     (forall j, j < k -> is_Some (broker (calls c + j))) /\
     broker (calls c + k) = None /\
     retry_loop broker event maxRetries remaining i lastErr c
     = (None,
        {| sent := sent c ++ [event];
           slept := slept c
                    ++ List.filter (fun s => (s <? maxRetries)%Z)
                         (map (fun j => (i + 1 + Z.of_nat j)%Z) (seq 0 k));
           calls := calls c + k + 1 |})) \/
  ((forall j, j < remaining -> is_Some (broker (calls c + j))) /\
   retry_loop broker event maxRetries remaining i lastErr c
   = (Some (Errorf "event publish başarısız (%d deneme): %v"
              match remaining with
              | O => lastErr
              | S m => broker (calls c + m)
              end),
      {| sent := sent c;
         slept := slept c
                  ++ List.filter (fun s => (s <? maxRetries)%Z)
                       (map (fun j => (i + 1 + Z.of_nat j)%Z) (seq 0 remaining));
         calls := calls c + remaining |})).
Proof.
  induction remaining as [|remaining IH]; intros i lastErr c.
  - right. split; [intros j Hj; lia|]. cbn [retry_loop seq map List.filter].
    rewrite app_nil_r, Nat.add_0_r. destruct c; reflexivity.
  - cbn [retry_loop]. unfold PublishSagaEvent.
    destruct (broker (calls c)) as [err|] eqn:Hfirst.
    + set (c2 := if (i <? maxRetries - 1)%Z then _ else _).
      assert (Hc2 : sent c2 = sent c /\ calls c2 = S (calls c) /\
                     slept c2 = (slept c
                                 ++ List.filter (fun s => (s <? maxRetries)%Z)
                                      [(i + 1 + 0)%Z])%list).
      { subst c2. cbn [List.filter].
        replace (i + 1 + 0 <? maxRetries)%Z with (i <? maxRetries - 1)%Z
          by (destruct (Z.ltb_spec i (maxRetries - 1)),
                (Z.ltb_spec (i + 1 + 0) maxRetries); lia || reflexivity).
        destruct (i <? maxRetries - 1)%Z; cbn [sent calls slept Sleep].
        - rewrite Z.add_0_r. auto.
        - rewrite app_nil_r. auto. }
      destruct Hc2 as (Hsent & Hcalls & Hslept).
      assert (Hshift : forall n,
                map (fun j => (i + 1 + Z.of_nat j)%Z) (seq 0 (S n))
                = (i + 1 + 0)%Z
                  :: map (fun j => (i + 1 + 1 + Z.of_nat j)%Z) (seq 0 n)).
      { intros n. cbn [seq map]. f_equal. rewrite <- seq_shift, map_map.
        apply map_ext. intros j. lia. }
      destruct (IH (i + 1)%Z (Some err) c2)
        as [(k & Hk & Hbefore & Hat & ->)|(Hall & ->)].
      * left. exists (S k). split; [lia|]. split; [|split].
        -- intros j Hj. destruct j as [|j]; [rewrite Nat.add_0_r, Hfirst; eauto|].
           specialize (Hbefore j ltac:(lia)). rewrite Hcalls in Hbefore.
           replace (calls c + S j) with (S (calls c) + j) by lia. exact Hbefore.
        -- rewrite Hcalls in Hat.
           replace (calls c + S k) with (S (calls c) + k) by lia. exact Hat.
        -- rewrite Hsent, Hcalls, Hslept, Hshift, (filter_head _ _ (map _ _)), app_assoc.
           f_equal. f_equal. lia.
      * right. split.
        -- intros j Hj. destruct j as [|j]; [rewrite Nat.add_0_r, Hfirst; eauto|].
           specialize (Hall j ltac:(lia)). rewrite Hcalls in Hall.
           replace (calls c + S j) with (S (calls c) + j) by lia. exact Hall.
        -- rewrite Hsent, Hcalls, Hslept, Hshift, (filter_head _ _ (map _ _)), app_assoc.
           f_equal; [|f_equal; lia].
           do 2 f_equal. destruct remaining as [|m].
           ++ rewrite Nat.add_0_r, Hfirst. reflexivity.
           ++ replace (calls c + S m) with (S (calls c) + m) by lia.
              reflexivity.
    + left. exists 0. split; [lia|]. split; [intros j Hj; lia|].
      split; [rewrite Nat.add_0_r; exact Hfirst|].
      cbn [seq map List.filter]. rewrite app_nil_r.
      f_equal. f_equal. lia.
Qed.

Lemma sleeps_kept maxRetries k :
  (Z.of_nat k < maxRetries)%Z ->
  List.filter (fun s => (s <? maxRetries)%Z)
    (map (fun j => (0 + 1 + Z.of_nat j)%Z) (seq 0 k))
  = map Z.of_nat (seq 1 k).
Proof.
  induction k as [|k IH]; intros Hk; [reflexivity|].
  rewrite !seq_S, !map_app, List.filter_app, IH by lia.
  cbn [map List.filter Nat.add].
  replace (0 + 1 + Z.of_nat k <? maxRetries)%Z with true
    by (symmetry; apply Z.ltb_lt; lia).
  f_equal. f_equal. lia.
Qed.

(** X25.  [PublishWithRetry] calls the publisher until a call succeeds, at
    most [maxRetries] times.  When the call number [k] is the first
    to succeed, it returns nil, the event has reached the exchange
    once, and it has slept 1, 2, ..., [k] seconds between the calls.
    When none of the calls succeeds it returns an error whose cause
    is the error of the last call, nothing has reached the exchange,
    and it has slept 1, 2, ..., [maxRetries - 1] seconds, not after
    the last call; with [maxRetries] at most 0 it makes no call at
    all and the error has no cause. *)
Theorem PublishWithRetry_attempts broker event maxRetries c :
  let n := Z.to_nat maxRetries in
  (exists k,
     k < n /\
     (forall j, j < k -> is_Some (broker (calls c + j))) /\
     broker (calls c + k) = None /\
     PublishWithRetry broker event maxRetries c
     = (None,
        {| sent := sent c ++ [event];
           slept := slept c ++ map Z.of_nat (seq 1 k);
           calls := calls c + k + 1 |})) \/
  ((forall j, j < n -> is_Some (broker (calls c + j))) /\
   PublishWithRetry broker event maxRetries c
   = (Some (Errorf "event publish başarısız (%d deneme): %v"
              match n with
              | O => None
              | S m => broker (calls c + m)
              end),
      {| sent := sent c;
         slept := slept c ++ map Z.of_nat (seq 1 (n - 1));
         calls := calls c + n |})).
Proof.
  intros n. unfold PublishWithRetry. fold n.
  destruct (retry_loop_spec broker event maxRetries n 0%Z None c)
    as [(k & Hk & Hbefore & Hat & ->)|(Hall & ->)].
  - left. exists k. split; [exact Hk|]. split; [exact Hbefore|].
    split; [exact Hat|]. rewrite sleeps_kept by (subst n; lia). reflexivity.
  - right. split; [exact Hall|]. f_equal. f_equal. f_equal.
    destruct n as [|m] eqn:Hn; [reflexivity|].
    replace (S m - 1) with m by lia.
    rewrite seq_S, map_app, List.filter_app, sleeps_kept by lia.
    cbn [map List.filter Nat.add].
    replace (0 + 1 + Z.of_nat m <? maxRetries)%Z with false
      by (symmetry; apply Z.ltb_ge; lia).
    rewrite app_nil_r. reflexivity.
Qed.

(** ** Consumer *)

Lemma shouldRetry_republished msg :
  shouldRetry (republished msg) = shouldRetry msg.
Proof. reflexivity. Qed.

(** X26.  A message whose handler returns an error is retried without being
    counted.  When [shouldRetry] allows it and the publish succeeds,
    the consumer sleeps two seconds, publishes a copy to the same
    exchange with the same routing key, headers and body, and
    acknowledges the original; the copy carries no count of its own,
    so [shouldRetry] allows it again.  Only a message on which the
    broker has recorded three deaths or more is rejected instead. *)
Theorem failed_message_is_republished {S : Type} msg event err
  (handler : SagaEvent -> S -> outcome * S) s s' :
  Body msg = Some event ->
  handler event s = (Returned (Some err), s') ->
  handleMessage true msg handler s
  = Some (if shouldRetry msg
          then [SleepSeconds 2; Publish (republished msg); Ack]
          else [Nack], s') /\
  Exchange (republished msg) = Exchange msg /\
  RoutingKey (republished msg) = RoutingKey msg /\
  Headers (republished msg) = Headers msg /\
  Body (republished msg) = Body msg /\
  handleMessage true (republished msg) handler s
  = handleMessage true msg handler s /\
  (shouldRetry msg = false <->
   exists death rest n,
     header (Headers msg) "x-death" = Some (HList (HTable death :: rest)) /\
     header death "count" = Some (HInt64 n) /\ (3 <= n)%Z).
Proof.
  intros Hbody Hhandler. unfold handleMessage.
  cbn [Body republished]. rewrite Hbody, Hhandler, shouldRetry_republished.
  split; [destruct (shouldRetry msg); reflexivity|].
  repeat (split; [reflexivity|]).
  unfold shouldRetry. split.
  - destruct (header (Headers msg) "x-death") as [v|]; [|discriminate].
    destruct v as [n|l|t|]; try discriminate.
    destruct l as [|d rest]; [discriminate|].
    destruct d as [n|l|death|]; try discriminate.
    destruct (header death "count") as [v|] eqn:Hheader; [|discriminate].
    destruct v as [n|l|t|]; try discriminate.
    intros Hcount. apply negb_false_iff, Z.leb_le in Hcount.
    exists death, rest, n. auto.
  - intros (death & rest & n & -> & -> & Hn).
    apply negb_false_iff, Z.leb_le, Hn.
Qed.

Lemma failed_message_witness :
  let msg := {| Exchange := "saga_events";
                RoutingKey := "saga.payment-service.payment.refunded";
                ContentType := "application/json"; DeliveryMode := 2;
                MessageId := "m1"; Headers := [("saga_id", HOther)];
                Body := Some Scenario.payment_refunded |} in
  Body msg = Some Scenario.payment_refunded /\
  handleMessage true msg (Orchestrator.HandleSagaEvent 9%N) Scenario.empty_world
  = Some ([SleepSeconds 2; Publish (republished msg); Ack],
          Scenario.empty_world).
Proof.
  intros msg. split; [reflexivity|].
  destruct (failed_message_is_republished msg Scenario.payment_refunded
              (Errorf "saga not found: %s" None)
              (Orchestrator.HandleSagaEvent 9%N)
              Scenario.empty_world Scenario.empty_world eq_refl eq_refl)
    as [Hrun _].
  exact Hrun.
Defined.

(** X27.  An event for a saga that the orchestrator does not know is
    retried for ever.  The handler returns an error and leaves the
    table as it is, so the consumer republishes the message; the copy
    has the same headers and body, and is handled in the same way
    whenever it arrives. *)
Theorem unknown_saga_is_retried msg event w now now' :
  Body msg = Some event ->
  Observations.dispatched (EventType event) = true ->
  is_Some (Payload event) ->
  Orchestrator.sagas w !! SagaID event = None ->
  shouldRetry msg = true ->
  handleMessage true msg (Orchestrator.HandleSagaEvent now) w
  = Some ([SleepSeconds 2; Publish (republished msg); Ack], w) /\
  handleMessage true (republished msg) (Orchestrator.HandleSagaEvent now') w
  = Some ([SleepSeconds 2; Publish (republished msg); Ack], w).
Proof.
  intros Hbody Hdispatched Hpayload Hrow Hretry.
  assert (Hrun : forall t,
            handleMessage true msg (Orchestrator.HandleSagaEvent t) w
            = Some ([SleepSeconds 2; Publish (republished msg); Ack], w)).
  { intros t.
    destruct (OrchestratorExtra.unknown_saga_is_an_error t event w
                Hdispatched Hrow Hpayload) as [err Herr].
    unfold handleMessage, Orchestrator.HandleSagaEvent.
    rewrite Hbody, Herr, Hretry. reflexivity. }
  split; [apply Hrun|].
  rewrite <- (Hrun now'). unfold handleMessage.
  cbn [Body republished]. rewrite shouldRetry_republished. reflexivity.
Qed.

Lemma unknown_saga_witness :
  let msg := {| Exchange := "saga_events";
                RoutingKey := "saga.payment-service.payment.processed";
                ContentType := "application/json"; DeliveryMode := 2;
                MessageId := "m1"; Headers := [];
                Body := Some Scenario.payment_processed |} in
  Orchestrator.sagas Scenario.empty_world !! SagaID Scenario.payment_processed
  = None /\
  shouldRetry msg = true /\
  handleMessage true msg (Orchestrator.HandleSagaEvent 9%N) Scenario.empty_world
  = Some ([SleepSeconds 2; Publish (republished msg); Ack],
          Scenario.empty_world).
Proof.
  intros msg. split; [reflexivity|]. split; [reflexivity|].
  exact (proj1 (unknown_saga_is_retried msg Scenario.payment_processed
                  Scenario.empty_world 9%N 10%N eq_refl eq_refl
                  (ex_intro _ _ eq_refl) eq_refl eq_refl)).
Defined.

End MessagingExtra.
